(** * llm_forecasting: a shallow embedding of the evidence pipeline and of the
      ensemble aggregation engine, with the properties of its specification.

    Python strings are modelled as [string] (sequences of 8-bit characters),
    Python floats as exact rationals [Q] (with an explicit [NaN] where numpy
    produces one), exceptions as an explicit [Raised] outcome, the logging
    module and the external providers as an explicit trace of events. *)

From Stdlib Require Import ZArith QArith Qround Lia List Ascii String Bool.
From Stdlib Require Import DecimalString Sorted.
From stdpp Require Import base list strings gmap.

Import ListNotations.
Local Open Scope string_scope.

(** ** Python string primitives *)

Module PyStr.

Definition is_digit (c : ascii) : bool :=
  (48 <=? nat_of_ascii c)%nat && (nat_of_ascii c <=? 57)%nat.

(** [str.split()] and [str.isspace] whitespace: TAB..CR, FS..US and space. *)
Definition is_space (c : ascii) : bool :=
  let n := nat_of_ascii c in
  ((9 <=? n)%nat && (n <=? 13)%nat) || ((28 <=? n)%nat && (n <=? 32)%nat).

Definition lower_char (c : ascii) : ascii :=
  let n := nat_of_ascii c in
  if (65 <=? n)%nat && (n <=? 90)%nat then ascii_of_nat (n + 32) else c.

(** [s.lower()] *)
Fixpoint lower (s : string) : string :=
  match s with
  | EmptyString => EmptyString
  | String c r => String (lower_char c) (lower r)
  end.

(** [s.startswith(p)] *)
Fixpoint starts_with (p s : string) : bool :=
  match p, s with
  | EmptyString, _ => true
  | String a p', String b s' => Ascii.eqb a b && starts_with p' s'
  | String _ _, EmptyString => false
  end.

(** [sub in s] *)
Fixpoint contains (sub s : string) : bool :=
  starts_with sub s ||
  match s with
  | EmptyString => false
  | String _ r => contains sub r
  end.

(** [s[n:]] for [0 <= n] *)
Fixpoint drop (n : nat) (s : string) : string :=
  match n, s with
  | O, _ => s
  | S _, EmptyString => EmptyString
  | S k, String _ r => drop k r
  end.

(** [s[k:]] for an arbitrary integer [k]: a negative [k] counts from the
    end, and out-of-range bounds are clipped. *)
Definition slice_from (k : Z) (s : string) : string :=
  if (k <? 0)%Z
  then drop (Z.to_nat (Z.max 0 (Z.of_nat (String.length s) + k))) s
  else drop (Z.to_nat k) s.

(** [s.split()]: maximal runs of non-whitespace characters. *)
Definition head_is_space (s : string) : bool :=
  match s with
  | EmptyString => true
  | String c _ => is_space c
  end.

Fixpoint split_ws (s : string) : list string :=
  match s with
  | EmptyString => []
  | String c r =>
      let ws := split_ws r in
      if is_space c then ws
      else if head_is_space r then String c EmptyString :: ws
           else match ws with
                | w :: ws' => String c w :: ws'
                | [] => [String c EmptyString]
                end
  end.

(** [sep.join(l)] *)
Fixpoint join (sep : string) (l : list string) : string :=
  match l with
  | [] => EmptyString
  | [x] => x
  | x :: r => x ++ sep ++ join sep r
  end.

(** [s.split(sep)] for a non-empty separator: the pieces between the
    non-overlapping occurrences of [sep], scanned from the left. *)
Fixpoint split_on_aux (fuel : nat) (sep : string) (cur : string) (s : string)
  : list string :=
  match fuel with
  | O => [cur ++ s]
  | S f =>
      match s with
      | EmptyString => [cur]
      | String c r =>
          if starts_with sep s
          then cur :: split_on_aux f sep EmptyString (drop (String.length sep) s)
          else split_on_aux f sep (cur ++ String c EmptyString) r
      end
  end.

Definition split_on (sep s : string) : list string :=
  split_on_aux (S (String.length s)) sep EmptyString s.

(** [s.isnumeric()] on 8-bit text: non-empty, decimal digits only. *)
Fixpoint all_digits (s : string) : bool :=
  match s with
  | EmptyString => true
  | String c r => is_digit c && all_digits r
  end.

Definition isnumeric (s : string) : bool :=
  match s with
  | EmptyString => false
  | _ => all_digits s
  end.

(** [c * n]: the character [c] repeated [n] times *)
Fixpoint times (c : ascii) (n : nat) : string :=
  match n with
  | O => EmptyString
  | S k => String c (times c k)
  end.

Definition digit_val (c : ascii) : Z := Z.of_nat (nat_of_ascii c) - 48.

(** value of a string of decimal digits, most significant first *)
Fixpoint digits_val (acc : Z) (s : string) : Z :=
  match s with
  | EmptyString => acc
  | String c r => digits_val (10 * acc + digit_val c) r
  end.

End PyStr.

(** [sorted(l, key=key, reverse=True)]: stable, larger keys first; elements
    of equal key keep their original order.  [lt a b] tells that the key of
    [a] is smaller than the key of [b]. *)
Fixpoint insert_desc {A : Type} (lt : A -> A -> bool) (x : A) (l : list A)
  : list A :=
  match l with
  | [] => [x]
  | y :: r => if lt x y then y :: insert_desc lt x r else x :: y :: r
  end.

Definition sorted_desc {A : Type} (lt : A -> A -> bool) (l : list A) : list A :=
  foldr (insert_desc lt) [] l.

(** ** Python values and outcomes *)

(** A Python call either returns or raises; the exception is kept by name. *)
Inductive outcome (A : Type) : Type :=
| Ok (a : A)
| Raised (exn : string).
Arguments Ok {A} a.
Arguments Raised {A} exn.

#[global] Instance outcome_ret : MRet outcome := fun _ a => Ok a.
#[global] Instance outcome_bind : MBind outcome := fun _ _ k m =>
  match m with
  | Ok a => k a
  | Raised e => Raised e
  end.

(** The values a prediction can take: a float (an exact rational here), the
    float [nan], a string, or [None]. *)
Inductive pyval : Type :=
| VFloat (q : Q)
| VNaN
| VStr (s : string)
| VNone.

(** ** utils/string_utils.py *)

Module StringUtils.
Import PyStr.

(** [any(s.lower() == target_string.lower() for s in string_list)] *)
Definition is_string_in_list (target_string : string) (string_list : list string)
  : bool :=
  let target_string_lower := lower target_string in
  existsb (fun s => String.eqb (lower s) target_string_lower) string_list.

(** *** find_end_word *)

(** [len(s.split(" "))] *)
Definition num_words (s : string) : nat := List.length (split_on " " s).

(** [paragraph[-window_size:]] *)
Definition window (paragraph : string) (window_size : Z) : string :=
  slice_from (- window_size) paragraph.

Definition find_end_word (paragraph : string) (end_words : list string)
  (window_size : Z) : option string :=
  let sorted_words :=
    sorted_desc (fun a b => (num_words a <? num_words b)%nat) end_words in
  List.find (fun end_word => contains end_word (window paragraph window_size))
    sorted_words.

(** *** extract_probability_with_stars *)

(** the character class [[\d\.]] *)
Definition is_numchar (c : ascii) : bool := is_digit c || Ascii.eqb c ".".

(** [.] matches every character but the line feed *)
Definition is_newline (c : ascii) : bool := Ascii.eqb c "010".

Definition is_star (c : ascii) : bool := Ascii.eqb c "*".

(** The match of [(.*?[\d\.]+.*?)\*] right after an opening star: the lazy
    [.*?] runs to the first character of the class (stars included), the
    class takes its maximal run, the second lazy [.*?] runs to the first
    star; no line feed may be crossed.  Returns the group and the text
    after the closing star. *)
Fixpoint star_group (seen : bool) (s : string) : option (string * string) :=
  match s with
  | EmptyString => None
  | String c r =>
      if is_newline c then None
      else if is_star c && seen then Some (EmptyString, r)
      else match star_group (seen || is_numchar c) r with
           | Some (g, rest) => Some (String c g, rest)
           | None => None
           end
  end.

(** [re.findall(r"\*(.*?[\d\.]+.*?)\*", text)]: leftmost matches, each
    search resuming after the previous match. *)
Fixpoint findall_star_groups (fuel : nat) (s : string) : list string :=
  match fuel with
  | O => []
  | S f =>
      match s with
      | EmptyString => []
      | String c r =>
          if is_star c
          then match star_group false r with
               | Some (g, rest) => g :: findall_star_groups f rest
               | None => findall_star_groups f r
               end
          else findall_star_groups f r
      end
  end.

(** The match of [([\d\.]+.*?)\*] at a character of the class: everything
    up to the first star, no line feed crossed. *)
Fixpoint until_star (s : string) : option (string * string) :=
  match s with
  | EmptyString => None
  | String c r =>
      if is_star c then Some (EmptyString, r)
      else if is_newline c then None
      else match until_star r with
           | Some (g, rest) => Some (String c g, rest)
           | None => None
           end
  end.

(** [re.findall(r"([\d\.]+.*?)\*", text)] *)
Fixpoint findall_num_groups (fuel : nat) (s : string) : list string :=
  match fuel with
  | O => []
  | S f =>
      match s with
      | EmptyString => []
      | String c r =>
          if is_numchar c
          then match until_star s with
               | Some (g, rest) => g :: findall_num_groups f rest
               | None => findall_num_groups f r
               end
          else findall_num_groups f r
      end
  end.

Definition head_is_numchar (s : string) : bool :=
  match s with
  | EmptyString => false
  | String c _ => is_numchar c
  end.

(** [re.findall(r"[\d\.]+", s)]: the maximal runs of the class, in order *)
Fixpoint num_runs (s : string) : list string :=
  match s with
  | EmptyString => []
  | String c r =>
      let rs := num_runs r in
      if is_numchar c
      then if head_is_numchar r
           then match rs with
                | h :: t => String c h :: t
                | [] => [String c EmptyString]
                end
           else String c EmptyString :: rs
      else rs
  end.

(** [re.search(r"[\d\.]+", s)]: the first maximal run, if any *)
Definition first_num_run (s : string) : option string := head (num_runs s).

(** [float(s)] on a run of digits and dots: digits with at most one dot and
    at least one digit; anything else raises [ValueError] ([None] here).
    The decimal is read exactly. *)
Fixpoint split_dot (s : string) : string * option string :=
  match s with
  | EmptyString => (EmptyString, None)
  | String c r =>
      if Ascii.eqb c "." then (EmptyString, Some r)
      else let '(i, f) := split_dot r in (String c i, f)
  end.

Fixpoint pow10 (n : nat) : positive :=
  match n with
  | O => 1%positive
  | S k => (10 * pow10 k)%positive
  end.

Definition float_of_run (s : string) : option Q :=
  let '(i, f) := split_dot s in
  let f' := match f with Some x => x | None => EmptyString end in
  if all_digits i && all_digits f' &&
     negb (String.eqb i EmptyString && String.eqb f' EmptyString)
  then Some (Qmake (digits_val 0 (i ++ f')) (pow10 (String.length f')))
  else None.

(** first loop: one number per match that parses, divided by 100 when
    the match holds a percent sign *)
Definition star_numbers (matches : list string) : list Q :=
  flat_map
    (fun m =>
       match first_num_run m with
       | Some run =>
           match float_of_run run with
           | Some number => [if contains "%" m then (number / 100)%Q else number]
           | None => []
           end
       | None => []
       end)
    matches.

(** second loop: every run of every match that parses *)
Definition plain_numbers (matches : list string) : list Q :=
  flat_map
    (fun m =>
       flat_map
         (fun run => match float_of_run run with
                     | Some number => [number]
                     | None => []
                     end)
         (num_runs m))
    matches.

(** [len(l) > 0 and l[-1] <= 1], with [l[-1]] *)
Definition last_if_le_1 (l : list Q) : option Q :=
  match list.last l with
  | Some x => if Qle_bool x 1%Q then Some x else None
  | None => None
  end.

Definition extract_probability_with_stars (text : string) : Q :=
  let matches := findall_star_groups (String.length text) text in
  match last_if_le_1 (star_numbers matches) with
  | Some x => x
  | None =>
      let matches := findall_num_groups (String.length text) text in
      match last_if_le_1 (plain_numbers matches) with
      | Some x => x
      | None => (1 # 2)%Q
      end
  end.

(** *** extract_prediction *)

Definition extract_prediction (response answer_type : string)
  (end_words : list string) : outcome pyval :=
  if String.eqb answer_type "probability"
  then Ok (VFloat (extract_probability_with_stars response))
  else if String.eqb answer_type "tokens"
  then Ok (match find_end_word response end_words 50 with
           | Some w => VStr w
           | None => VNone
           end)
  else Raised "ValueError".

(** *** get_prompt *)

(** values put into the format mapping *)
Inductive fval : Type :=
| FStr (s : string)
| FInt (n : Z)
| FNone.

Definition of_opt (o : option string) : fval :=
  match o with
  | Some s => FStr s
  | None => FNone
  end.

(** [str(n)] for a natural number *)
Definition str_of_nat (n : nat) : string :=
  NilEmpty.string_of_uint (Nat.to_uint n).

(** the keyword arguments of [get_prompt]; [None] is the default of each *)
Record prompt_args : Type := {
  pa_question : option string;
  pa_data_source : option string;
  pa_dates : option (list string);
  pa_background : option string;
  pa_resolution_criteria : option string;
  pa_num_keywords : option Z;
  pa_retrieved_info : option string;
  pa_reasoning : option string;
  pa_article : option string;
  pa_summary : option string;
  pa_few_shot_examples : option (list (string * string));
  pa_max_words : option Z
}.

Definition no_args : prompt_args :=
  {| pa_question := None; pa_data_source := None; pa_dates := None;
     pa_background := None; pa_resolution_criteria := None;
     pa_num_keywords := None; pa_retrieved_info := None;
     pa_reasoning := None; pa_article := None; pa_summary := None;
     pa_few_shot_examples := None; pa_max_words := None |}.

(** [dates[i]]: [TypeError] on [None], [IndexError] out of range *)
Definition date_at (dates : option (list string)) (i : nat) : outcome fval :=
  match dates with
  | None => Raised "TypeError"
  | Some l => match l !! i with
              | Some d => Ok (FStr d)
              | None => Raised "IndexError"
              end
  end.

(** [enumerate(examples, 1)] turned into the two keys of each example *)
Fixpoint few_shot_entries (j : nat) (examples : list (string * string))
  : list (string * fval) :=
  match examples with
  | [] => []
  | (q, answer) :: r =>
      ("question_" ++ str_of_nat j, FStr q)
        :: ("answer_" ++ str_of_nat j, FStr answer)
        :: few_shot_entries (S j) r
  end.

(** the entries one field adds to the mapping (later entries of a key
    override earlier ones, as in a dict) *)
Definition field_entries (a : prompt_args) (f : string)
  : outcome (list (string * fval)) :=
  if String.eqb f "QUESTION" then Ok [("question", of_opt (pa_question a))]
  else if String.eqb f "DATES" then
    d0 ← date_at (pa_dates a) 0;
    d1 ← date_at (pa_dates a) 1;
    Ok [("date_begin", d0); ("date_end", d1)]
  else if String.eqb f "FEW_SHOT_EXAMPLES" then
    Ok (few_shot_entries 1 (default [] (pa_few_shot_examples a)))
  else if String.eqb f "RETRIEVED_INFO" then
    Ok [("retrieved_info", of_opt (pa_retrieved_info a))]
  else if String.eqb f "BACKGROUND" then
    Ok [("background", of_opt (pa_background a))]
  else if String.eqb f "RESOLUTION_CRITERIA" then
    Ok [("resolution_criteria", of_opt (pa_resolution_criteria a))]
  else if String.eqb f "REASONING" then
    Ok [("reasoning", of_opt (pa_reasoning a))]
  else if String.eqb f "BASE_REASONINGS" then
    Ok [("base_reasonings", of_opt (pa_reasoning a))]
  else if String.eqb f "NUM_KEYWORDS" then
    Ok [("num_keywords",
         match pa_num_keywords a with Some n => FInt n | None => FNone end)]
  else if String.eqb f "MAX_WORDS" then
    Ok [("max_words",
         FStr match pa_max_words a with
              | Some n => if (n <? 0)%Z
                          then "-" ++ str_of_nat (Z.to_nat (- n))
                          else str_of_nat (Z.to_nat n)
              | None => "None"
              end)]
  else if String.eqb f "ARTICLE" then Ok [("article", of_opt (pa_article a))]
  else if String.eqb f "SUMMARY" then Ok [("summary", of_opt (pa_summary a))]
  else if String.eqb f "DATA_SOURCE" then
    Ok [("data_source", of_opt (pa_data_source a))]
  else Ok [].

Section GetPrompt.
(** [str.format] applied to the template and the mapping, a built-in of
    the language: the
    rendered text, or the exception it raises (a key of the template is
    not in the mapping, the template is malformed). *)
Variable str_format : string -> list (string * fval) -> outcome string.

Definition get_prompt (prompt_template : string) (fields : list string)
  (a : prompt_args) : outcome string :=
  entries ← mapM (field_entries a) fields;
  str_format prompt_template (concat entries).
End GetPrompt.

End StringUtils.

(** ** Observable events: log records and calls to external providers *)

Inductive event : Type :=
| Log (level : string) (template : string) (args : list pyval)
| Completion (model_name prompt : string)
| Search (source query date_from date_to : string)
| FetchArticle (url : string).

(** the calls to an external provider, as opposed to log records *)
Definition is_call (e : event) : bool :=
  match e with
  | Log _ _ _ => false
  | _ => true
  end.

Definition calls (t : list event) : list event := List.filter is_call t.

(** a computation with its trace of events *)
Definition traced (A : Type) : Type := (list event * outcome A)%type.

(** ** utils/utils.py *)

Module Utils.

Definition pyval_eqb (a b : pyval) : bool :=
  match a, b with
  | VFloat x, VFloat y => Qeq_bool x y
  | VNaN, VNaN => false
  | VStr x, VStr y => String.eqb x y
  | VNone, VNone => true
  | _, _ => false
  end.

Definition count_of (x : pyval) (lst : list pyval) : nat :=
  List.length (List.filter (pyval_eqb x) lst).

(** [Counter(lst).most_common(1)[0][0]]: the keys are visited in the order
    of their first occurrence and the first one of maximal count wins. *)
Fixpoint best_of (lst : list pyval) (cands : list pyval) (best : pyval)
  : pyval :=
  match cands with
  | [] => best
  | c :: r => if (count_of best lst <? count_of c lst)%nat
              then best_of lst r c else best_of lst r best
  end.

Definition most_frequent_item (lst : list pyval) : pyval :=
  match lst with
  | [] => VNone
  | x :: r => best_of lst r x
  end.

End Utils.

(** ** numpy: the three reductions used by the ensemble *)

Module Np.
Local Open Scope Q_scope.

Definition sum (xs : list Q) : Q := foldr Qplus 0 xs.

(** [np.mean]: [nan] on an empty array *)
Definition mean (xs : list Q) : pyval :=
  match xs with
  | [] => VNaN
  | _ => VFloat (sum xs / inject_Z (Z.of_nat (List.length xs)))
  end.

Fixpoint insert_sorted (x : Q) (l : list Q) : list Q :=
  match l with
  | [] => [x]
  | y :: r => if Qle_bool x y then x :: y :: r else y :: insert_sorted x r
  end.

Definition sort (xs : list Q) : list Q := foldr insert_sorted [] xs.

(** [np.median]: the middle of the sorted array, the mean of the two
    middle elements for an even length, [nan] on an empty array *)
Definition median (xs : list Q) : pyval :=
  let s := sort xs in
  let n := List.length s in
  match xs with
  | [] => VNaN
  | _ => if Nat.even n
         then VFloat ((nth (n / 2 - 1) s 0 + nth (n / 2) s 0) / 2)
         else VFloat (nth (n / 2) s 0)
  end.

Definition dot (xs ws : list Q) : Q :=
  sum (zip_with Qmult xs ws).

(** an entry of an array of weights: a number, [nan] or an infinity *)
Inductive weight : Type :=
| Finite (q : Q)
| NotANumber
| Infinite (negative : bool).

(** the weights as numbers, when all of them are finite *)
Fixpoint finite_weights (ws : list weight) : option (list Q) :=
  match ws with
  | [] => Some []
  | Finite q :: r =>
      match finite_weights r with
      | Some qs => Some (q :: qs)
      | None => None
      end
  | _ :: _ => None
  end.

(** [np.average(xs, weights=ws)]: the plain mean without weights; with
    weights, [TypeError] when the shapes differ, [ZeroDivisionError] when
    the weights sum to zero, and otherwise the weighted sum divided by the
    sum of the weights.  With a weight that is [nan] or infinite the sum
    of the weights is [nan] or infinite, not zero, and the quotient is
    [nan].  Finite weights are taken as exact numbers: the rounding and
    the overflow of the sums are not modelled. *)
Definition average (xs : list Q) (weights : option (list weight))
  : outcome pyval :=
  match weights with
  | None => Ok (mean xs)
  | Some ws =>
      if negb (List.length xs =? List.length ws)%nat then Raised "TypeError"
      else match finite_weights ws with
           | Some qs =>
               if Qeq_bool (sum qs) 0 then Raised "ZeroDivisionError"
               else Ok (VFloat (dot xs qs / sum qs))
           | None => Ok VNaN
           end
  end.

End Np.

(** ** ensemble.py *)

Module Ensemble.
Import PyStr StringUtils.

(** [enumerate(reasonings)] rendered one by one *)
Fixpoint reason_strs (i : nat) (reasonings : list string) : list string :=
  match reasonings with
  | [] => []
  | reasoning :: r =>
      ("Response from forecaster " ++ str_of_nat (i + 1) ++ ":"
         ++ String "010" reasoning)
        :: reason_strs (S i) r
  end.

Definition concatenate_reasonings (reasonings : list string) : string :=
  "---" ++ String "010"
    (join (String "010" (String "010" ("-" ++ String "010" "")))
       (reason_strs 0 reasonings))
    ++ String "010" "---".

(** the dictionary returned by [aggregate_base_reasonings] *)
Record aggregation : Type := {
  base_reasonings : list (list string);
  base_predictions : list (list pyval);
  meta_prediction : pyval;
  meta_prompt : option string;
  meta_reasoning : option string
}.

(** [v is None or v < 0.0 or v > 1.0]; every comparison with [nan] is
    false *)
Definition out_of_unit (v : pyval) : outcome bool :=
  match v with
  | VNone => Ok true
  | VFloat q => Ok (negb (Qle_bool 0 q) || negb (Qle_bool q 1))
  | VNaN => Ok false
  | VStr _ => Raised "TypeError"
  end.

(** [v is None or not is_string_in_list(v, end_words)] *)
Definition not_a_token (v : pyval) (end_words : list string) : outcome bool :=
  match v with
  | VNone => Ok true
  | VStr s => Ok (negb (is_string_in_list s end_words))
  | _ => Raised "AttributeError"
  end.

Definition as_float (v : pyval) : outcome Q :=
  match v with
  | VFloat q => Ok q
  | _ => Raised "TypeError"
  end.

Definition is_method (aggregation_method : option string) (name : string)
  : bool :=
  match aggregation_method with
  | Some m => String.eqb m name
  | None => false
  end.

Definition token_val (o : option string) : pyval :=
  match o with
  | Some w => VStr w
  | None => VNone
  end.

(** the prediction extracted from a reasoning, for the two answer types *)
Definition prediction_of (answer_type : string) (end_words : list string)
  (reasoning : string) : pyval :=
  if String.eqb answer_type "probability"
  then VFloat (extract_probability_with_stars reasoning)
  else token_val (find_end_word reasoning end_words 50).

(** the keyword arguments with which the meta prompt is rendered *)
Definition meta_args (base_reasonings : list (list string))
  (question background_info : string)
  (today_to_close_date_range : option (list string))
  (resolution_criteria retrieved_info : string) : prompt_args :=
  {| pa_question := Some question;
     pa_data_source := None;
     pa_dates := today_to_close_date_range;
     pa_background := Some background_info;
     pa_resolution_criteria := Some resolution_criteria;
     pa_num_keywords := None;
     pa_retrieved_info := Some retrieved_info;
     pa_reasoning := Some (concatenate_reasonings (concat base_reasonings));
     pa_article := None;
     pa_summary := None;
     pa_few_shot_examples := None;
     pa_max_words := None |}.

Section Aggregate.
Variable str_format : string -> list (string * fval) -> outcome string.
(** [model_eval.get_response_from_model(model_name, prompt, temperature)] *)
Variable get_response_from_model : string -> string -> Q -> outcome string.

Definition aggregate_base_reasonings
  (base_reasonings : list (list string))
  (question background_info : string)
  (today_to_close_date_range : option (list string))
  (resolution_criteria retrieved_info : string)
  (aggregation_method : option string)
  (answer_type : string)
  (weights : option (list Np.weight))
  (end_words : list string)
  (model_name : string)
  (meta_prompt_template : string * list string)
  (meta_temperature : Q) : traced aggregation :=
  if (List.length base_reasonings =? 0)%nat then ([], Raised "AssertionError")
  else
  match mapM (mapM (fun reasoning =>
                      extract_prediction reasoning answer_type end_words))
             base_reasonings with
  | Raised e => ([], Raised e)
  | Ok all_base_predictions =>
  let flattened_all_base_predictions := concat all_base_predictions in
  let result meta_prediction meta_prompt meta_reasoning :=
    {| base_reasonings := base_reasonings;
       base_predictions := all_base_predictions;
       meta_prediction := meta_prediction;
       meta_prompt := meta_prompt;
       meta_reasoning := meta_reasoning |} in
  match flattened_all_base_predictions with
  | [only] => ([], Ok (result only None None))
  | _ =>
  if String.eqb answer_type "probability"
     && negb (is_method aggregation_method "meta")
  then
    match
      xs ← mapM as_float flattened_all_base_predictions;
      if is_method aggregation_method "mean"
         || match aggregation_method with None => true | _ => false end
      then Ok (Np.mean xs)
      else if is_method aggregation_method "vote-or-median"
      then Ok (Np.median xs)
      else if is_method aggregation_method "weighted-mean"
      then Np.average xs weights
      else Raised "UnboundLocalError"
    with
    | Raised e => ([], Raised e)
    | Ok meta_prediction =>
        match out_of_unit meta_prediction with
        | Raised e => ([], Raised e)
        | Ok true =>
            ([Log "debug" "final_answer {} is not between 0 and 1"
                [meta_prediction]],
             Ok (result (VFloat (1 # 2)) None None))
        | Ok false => ([], Ok (result meta_prediction None None))
        end
    end
  else if String.eqb answer_type "tokens"
          && is_method aggregation_method "vote-or-median"
  then
    let meta_prediction :=
      Utils.most_frequent_item flattened_all_base_predictions in
    match not_a_token meta_prediction end_words with
    | Raised e => ([], Raised e)
    | Ok true =>
        ([Log "debug" "final_answer {} is not valid" [meta_prediction]],
         Ok (result (VStr "Slightly Unlikely") None None))
    | Ok false => ([], Ok (result meta_prediction None None))
    end
  else
    let '(prompt, fields) := meta_prompt_template in
    let flattened_base_reasonings := concat base_reasonings in
    match get_prompt str_format prompt fields
            {| pa_question := Some question;
               pa_data_source := None;
               pa_dates := today_to_close_date_range;
               pa_background := Some background_info;
               pa_resolution_criteria := Some resolution_criteria;
               pa_num_keywords := None;
               pa_retrieved_info := Some retrieved_info;
               pa_reasoning :=
                 Some (concatenate_reasonings flattened_base_reasonings);
               pa_article := None;
               pa_summary := None;
               pa_few_shot_examples := None;
               pa_max_words := None |} with
    | Raised e => ([], Raised e)
    | Ok meta_full_prompt =>
        let call := Completion model_name meta_full_prompt in
        match get_response_from_model model_name meta_full_prompt
                meta_temperature with
        | Raised e => ([call], Raised e)
        | Ok meta_reasoning =>
            if String.eqb answer_type "probability" then
              let meta_prediction :=
                VFloat (extract_probability_with_stars meta_reasoning) in
              match out_of_unit meta_prediction with
              | Raised e => ([call], Raised e)
              | Ok true =>
                  ([call;
                    Log "debug" "final_answer {} is not between 0 and 1"
                      [meta_prediction]],
                   Ok (result (VFloat (1 # 2)) (Some meta_full_prompt)
                         (Some meta_reasoning)))
              | Ok false =>
                  ([call],
                   Ok (result meta_prediction (Some meta_full_prompt)
                         (Some meta_reasoning)))
              end
            else if String.eqb answer_type "tokens" then
              let meta_prediction :=
                token_val (find_end_word meta_reasoning end_words 50) in
              match not_a_token meta_prediction end_words with
              | Raised e => ([call], Raised e)
              | Ok true =>
                  ([call;
                    Log "debug" "final_answer {} is not valid"
                      [meta_prediction]],
                   Ok (result (VStr "Slightly Unlikely")
                         (Some meta_full_prompt) (Some meta_reasoning)))
              | Ok false =>
                  ([call],
                   Ok (result meta_prediction (Some meta_full_prompt)
                         (Some meta_reasoning)))
              end
            else ([call], Raised "UnboundLocalError")
        end
    end
  end
  end.

End Aggregate.

End Ensemble.

(** ** Traced computations *)

Definition tret {A : Type} (a : A) : traced A := ([], Ok a).

Definition tbind {A B : Type} (m : traced A) (k : A -> traced B) : traced B :=
  match m with
  | (t, Ok a) => let '(t', r) := k a in ((t ++ t')%list, r)
  | (t, Raised e) => (t, Raised e)
  end.

#[global] Instance traced_ret : MRet traced := @tret.
#[global] Instance traced_bind : MBind traced := fun _ _ k m => tbind m k.

Definition emit (e : event) : traced unit := ([e], Ok tt).
Definition lift {A : Type} (o : outcome A) : traced A := ([], o).

(** [try: m except Exception: handler] *)
Definition try_except {A : Type} (m : traced A) (handler : string -> traced A)
  : traced A :=
  match m with
  | (t, Ok a) => (t, Ok a)
  | (t, Raised e) => let '(t', r) := handler e in ((t ++ t')%list, r)
  end.

(** a [for] loop whose body can raise and emit events *)
Fixpoint for_each {A : Type} (l : list A) (body : A -> traced unit)
  : traced unit :=
  match l with
  | [] => tret tt
  | x :: r => _ ← body x; for_each r body
  end.

(** ** utils/time_utils.py *)

Module TimeUtils.
Import PyStr.
Local Open Scope Z_scope.

(** a [datetime]: calendar date and seconds since midnight *)
Record datetime : Type := {
  year : Z;
  month : Z;
  day : Z;
  tod : Z
}.

Definition is_leap (y : Z) : bool :=
  (y mod 4 =? 0) && (negb (y mod 100 =? 0) || (y mod 400 =? 0)).

Definition days_in_month (y m : Z) : Z :=
  if m =? 2 then (if is_leap y then 29 else 28)
  else if (m =? 4) || (m =? 6) || (m =? 9) || (m =? 11) then 30
  else 31.

Definition two_digits (a b : ascii) : option Z :=
  if is_digit a && is_digit b then Some (10 * digit_val a + digit_val b)
  else None.

(** the directive [%m]: [1[0-2]|0[1-9]|[1-9]], followed by the dash *)
Definition parse_month (s : string) : option (Z * string) :=
  match s with
  | String a (String b (String "-" r)) =>
      match two_digits a b with
      | Some m => if (1 <=? m) && (m <=? 12) then Some (m, r) else None
      | None => None
      end
  | String a (String "-" r) =>
      if is_digit a && negb (Ascii.eqb a "0") then Some (digit_val a, r)
      else None
  | _ => None
  end.

(** the directive [%d]: [3[0-1]|[1-2]\d|0[1-9]|[1-9]| [1-9]], which has
    to end the text *)
Definition parse_day (s : string) : option Z :=
  match s with
  | String a (String b EmptyString) =>
      if Ascii.eqb a " " then
        (if is_digit b && negb (Ascii.eqb b "0") then Some (digit_val b)
         else None)
      else match two_digits a b with
           | Some d => if (1 <=? d) && (d <=? 31) then Some d else None
           | None => None
           end
  | String a EmptyString =>
      if is_digit a && negb (Ascii.eqb a "0") then Some (digit_val a)
      else None
  | _ => None
  end.

(** [datetime.strptime(s, "%Y-%m-%d")]; [None] stands for [ValueError] *)
Definition strptime_ymd (s : string) : option datetime :=
  match s with
  | String y1 (String y2 (String y3 (String y4 (String "-" r)))) =>
      match two_digits y1 y2, two_digits y3 y4, parse_month r with
      | Some hi, Some lo, Some (m, r') =>
          match parse_day r' with
          | Some d =>
              let y := 100 * hi + lo in
              if (1 <=? y) && (d <=? days_in_month y m)
              then Some {| year := y; month := m; day := d; tod := 0 |}
              else None
          | None => None
          end
      | _, _, _ => None
      end
  | _ => None
  end.

(** the order of [datetime] objects *)
Definition dt_key (d : datetime) : Z :=
  ((year d * 13 + month d) * 32 + day d) * 86400 + tod d.

Definition dt_ltb (a b : datetime) : bool := dt_key a <? dt_key b.
Definition dt_leb (a b : datetime) : bool := dt_key a <=? dt_key b.

(** [d.date()] *)
Definition date_of (d : datetime) : datetime :=
  {| year := year d; month := month d; day := day d; tod := 0 |}.

Definition is_more_recent (first_date_str second_date_str : string)
  (or_equal_to : bool) : outcome bool :=
  match strptime_ymd first_date_str with
  | None => Raised "ValueError"
  | Some first_date_obj =>
      match strptime_ymd second_date_str with
      | None => Raised "ValueError"
      | Some second_date_obj =>
          if or_equal_to then Ok (dt_leb first_date_obj second_date_obj)
          else Ok (dt_ltb first_date_obj second_date_obj)
      end
  end.

End TimeUtils.

(** ** information_retrieval.py *)

Module InformationRetrieval.
Import PyStr TimeUtils.

(** An article object (a [NewscatcherArticle] or a newspaper article), with
    the attributes the pipeline reads.  [None] in [title] or
    [canonical_link] stands for a value that is not a [str].  The attribute
    [publish_date] can be missing: the constructor of [NewscatcherArticle]
    sets it only when the payload's [published_date] is not null.  [None]
    in [publish_date] stands for an object without the attribute,
    [Some None] for the value [None]. *)
Record Article : Type := {
  title : option string;
  canonical_link : option string;
  text_cleaned : option string;
  publish_date : option (option datetime);
  search_term : string;
  summary : string;
  relevance_rating : option Q
}.

Definition with_search_term (a : Article) (term : string) : Article :=
  {| title := title a; canonical_link := canonical_link a;
     text_cleaned := text_cleaned a; publish_date := publish_date a;
     search_term := term; summary := summary a;
     relevance_rating := relevance_rating a |}.

(** an article with string title and link, for examples *)
Definition sample_article (t l : string) (rating : option Q) : Article :=
  {| title := Some t; canonical_link := Some l; text_cleaned := Some "text";
     publish_date := Some None; search_term := "q"; summary := "text";
     relevance_rating := rating |}.

(** *** deduplicate_articles *)

Fixpoint dedup_loop (articles unique_articles : list Article)
  (unique_urls unique_titles : gset string) : list Article :=
  match articles with
  | [] => unique_articles
  | article :: rest =>
      match title article, canonical_link article with
      | Some t, Some l =>
          if bool_decide (lower l ∉ unique_urls)
             && bool_decide (lower t ∉ unique_titles)
          then dedup_loop rest (unique_articles ++ [article])%list
                 ({[lower l]} ∪ unique_urls) ({[lower t]} ∪ unique_titles)
          else dedup_loop rest unique_articles unique_urls unique_titles
      | _, _ => dedup_loop rest unique_articles unique_urls unique_titles
      end
  end.

Definition deduplicate_articles (articles : list Article) : list Article :=
  dedup_loop articles [] ∅ ∅.

(** *** helpers *)

(** [s.replace(old, "")] for a non-empty [old] *)
Definition remove_all (old s : string) : string := join "" (split_on old s).

Definition characters_to_remove : list string :=
  ["["; "]"; "/"; "\\"; "%5B"; "%5D"; "%2F"; "%5C"; ":"; "%3A"; "^"; "%5E"].

(** the lists of queries after [clean_search_queries] has rewritten them in
    place *)
Definition clean_search_queries (search_queries : list string) : list string :=
  map (fun q => foldl (fun acc char => remove_all char acc) q
                  characters_to_remove)
    search_queries.

(** [l[:n]] *)
Definition take_py {A : Type} (n : Z) (l : list A) : list A :=
  if (n <? 0)%Z then take (Z.to_nat (Z.of_nat (List.length l) + n)) l
  else take (Z.to_nat n) l.

(** [len(s) > n] *)
Definition longer_than (s : string) (n : Z) : bool :=
  (n <? Z.of_nat (String.length s))%Z.

(** one entry of the Newscatcher payload: its ["summary"] and the object
    the [NewscatcherArticle] constructor builds from it (it raises on a
    malformed date) *)
Record nc_raw : Type := {
  nc_summary : option string;
  nc_article : outcome Article
}.

Record nc_response : Type := {
  nc_status : string;
  nc_articles : list (option nc_raw)
}.

(** one entry of the GNews payload; [gn_href] is [None] without the keys
    ["publisher"]["href"], [Some None] when the value is not a [str] *)
Record gn_raw : Type := {
  gn_url : string;
  gn_href : option (option string);
  gn_search_term : string
}.

Section Sources.
(** configuration constants *)
Variable NEWSCASTCHER_KEY : string.
Variable IRRETRIEVABLE_SITES : list string.
(** [int(s)], a built-in *)
Variable py_int : string -> outcome Z.
(** the providers: [newscatcherapi.get_search], [GNews(...).get_news]
    and [GNews().get_full_article] *)
Variable newscatcher_get_search :
  string -> Z -> string -> string -> Z -> outcome nc_response.
Variable gnews_get_news :
  string -> Z * Z * Z -> Z * Z * Z -> Z -> outcome (list (option gn_raw)).
Variable gnews_get_full_article : string -> outcome (option Article).

Definition is_irretrievable_site (url : option string) : bool :=
  match url with
  | None => true
  | Some u => existsb (fun site => contains site u) IRRETRIEVABLE_SITES
  end.

Definition convert_date_string_to_tuple (date_string : string)
  : outcome (Z * Z * Z) :=
  match split_on "-" date_string with
  | [a; b; c] => y ← py_int a; m ← py_int b; d ← py_int c; Ok (y, m, d)
  | _ => Raised "AssertionError"
  end.

Definition date_error (d0 d1 : string) : event :=
  Log "error"
    "retrieval_dates[1] {} should be strictly more recent than retrieval_dates[0] {}."
    [VStr d1; VStr d0].

(** the body of the loop of [get_newscatcher_articles] for one term *)
Definition newscatcher_term (d0 d1 : string)
  (num_articles max_results length_threshold to_rank : Z) (term : string)
  : traced (list Article) :=
  response ←
    try_except
      (_ ← emit (Search "newscatcher" term d0 d1);
       r ← lift (newscatcher_get_search term max_results d0 d1 to_rank);
       mret (Some r))
      (fun e => _ ← emit (Log "error" e []); mret None);
  match response with
  | None => mret []
  | Some response =>
      articles ←
        (if negb (String.eqb (nc_status response)
                    "No matches for your search.")
         then
           let kept :=
             omap (fun article =>
                     match article with
                     | Some a =>
                         match nc_summary a with
                         | Some s => if longer_than s length_threshold
                                     then Some a else None
                         | None => None
                         end
                     | None => None
                     end)
               (take_py num_articles (nc_articles response)) in
           lift (mapM (fun a => x ← nc_article a;
                                Ok (with_search_term x term)) kept)
         else mret []);
      _ ← emit (Log "info" "Retrieved {} articles for {} via Newscatcher."
                  [VStr (StringUtils.str_of_nat (List.length articles));
                   VStr term]);
      mret articles
  end.

Definition get_newscatcher_articles (search_terms retrieval_dates : list string)
  (num_articles max_results length_threshold to_rank : Z)
  : traced (list Article) :=
  match retrieval_dates with
  | [d0; d1] =>
      if String.eqb NEWSCASTCHER_KEY "" then
        _ ← emit (Log "error" "Skipping Newscatcher since no key is set." []);
        mret []
      else
        recent ← lift (is_more_recent d0 d1 false);
        if negb recent then _ ← emit (date_error d0 d1); mret []
        else if (List.length search_terms =? 0)%nat then mret []
        else
          per_term ←
            mapM (newscatcher_term d0 d1 num_articles max_results
                    length_threshold to_rank)
              (clean_search_queries search_terms);
          mret (deduplicate_articles (concat per_term))
  | _ => lift (Raised "AssertionError")
  end.

(** the body of the loop of [get_gnews_articles] for one term *)
Definition gnews_term (d0 d1 : string) (max_results : Z) (term : string)
  : traced (list gn_raw) :=
  start_date ← lift (convert_date_string_to_tuple d0);
  end_date ← lift (convert_date_string_to_tuple d1);
  _ ← emit (Search "gnews" term d0 d1);
  articles ← lift (gnews_get_news term start_date end_date max_results);
  let articles :=
    omap (fun article =>
            match article with
            | Some a =>
                match gn_href a with
                | Some href =>
                    if negb (is_irretrievable_site href)
                    then Some {| gn_url := gn_url a; gn_href := gn_href a;
                                 gn_search_term := term |}
                    else None
                | None => None
                end
            | None => None
            end)
      articles in
  _ ← emit (Log "info" "Retrieved {} articles for {} via GNews."
              [VStr (StringUtils.str_of_nat (List.length articles));
               VStr term]);
  mret articles.

Definition get_gnews_articles (search_terms retrieval_dates : list string)
  (max_results : Z) : traced (list (list gn_raw)) :=
  match retrieval_dates with
  | [d0; d1] =>
      recent ← lift (is_more_recent d0 d1 false);
      if negb recent then _ ← emit (date_error d0 d1); mret []
      else mapM (gnews_term d0 d1 max_results) search_terms
  | _ => lift (Raised "AssertionError")
  end.

(** the inner loop of [retrieve_gnews_articles_fulldata] over one group,
    threading the articles found so far and the set of urls seen *)
Fixpoint fulldata_group (num_articles length_threshold : Z)
  (articles_group : list gn_raw) (articles_added : Z)
  (fulltext_articles : list Article) (unique_urls : gset string)
  : traced (list Article * gset string) :=
  match articles_group with
  | [] => mret (fulltext_articles, unique_urls)
  | article :: rest =>
      if (num_articles <=? articles_added)%Z
      then mret (fulltext_articles, unique_urls)
      else if bool_decide (gn_url article ∈ unique_urls)
      then fulldata_group num_articles length_threshold rest articles_added
             fulltext_articles unique_urls
      else
        let unique_urls := {[gn_url article]} ∪ unique_urls in
        _ ← emit (FetchArticle (gn_url article));
        full_article ← lift (gnews_get_full_article (gn_url article));
        _ ← emit (Log "info" "Retrieved full article text for {}"
                    [VStr (gn_url article)]);
        let skip :=
          fulldata_group num_articles length_threshold rest
            articles_added fulltext_articles unique_urls in
        match full_article with
        | Some fa =>
            match text_cleaned fa with
            | Some text =>
                if negb (String.eqb text "") then
                  match publish_date fa with
                  | None => lift (Raised "AttributeError")
                  | Some (Some _) =>
                      if longer_than text length_threshold
                      then fulldata_group num_articles length_threshold rest
                             (articles_added + 1)
                             (fulltext_articles
                                ++ [with_search_term fa
                                      (gn_search_term article)])%list
                             unique_urls
                      else skip
                  | Some None => skip
                  end
                else skip
            | None => skip
            end
        | None => skip
        end
  end.

Fixpoint fulldata_groups (num_articles length_threshold : Z)
  (retrieved_articles : list (list gn_raw))
  (fulltext_articles : list Article) (unique_urls : gset string)
  : traced (list Article) :=
  match retrieved_articles with
  | [] => mret fulltext_articles
  | articles_group :: rest =>
      st ← fulldata_group num_articles length_threshold articles_group 0
             fulltext_articles unique_urls;
      fulldata_groups num_articles length_threshold rest st.1 st.2
  end.

Definition retrieve_gnews_articles_fulldata
  (retrieved_articles : list (list gn_raw))
  (num_articles length_threshold : Z) : traced (list Article) :=
  fulldata_groups num_articles length_threshold retrieved_articles [] ∅.

(** [retrieval_dates[i]] *)
Definition date_index (retrieval_dates : list string) (i : nat)
  : outcome string :=
  match retrieval_dates !! i with
  | Some d => Ok d
  | None => Raised "IndexError"
  end.

Definition nonempty_queries (queries : option (list string)) : bool :=
  match queries with
  | Some (_ :: _) => true
  | _ => false
  end.

Definition get_articles_from_all_sources
  (queries_gnews queries_nc : option (list string))
  (retrieval_dates : list string) (num_articles length_threshold : Z)
  : traced (list Article) :=
  d0 ← lift (date_index retrieval_dates 0);
  d1 ← lift (date_index retrieval_dates 1);
  recent ← lift (is_more_recent d0 d1 false);
  if negb recent then _ ← emit (date_error d0 d1); mret []
  else
    articles_nc ←
      (if nonempty_queries queries_nc
       then get_newscatcher_articles (default [] queries_nc) retrieval_dates
              num_articles 20 length_threshold 10000
       else mret []);
    articles_gnews ←
      (if nonempty_queries queries_gnews
       then
         groups ← get_gnews_articles (default [] queries_gnews)
                    retrieval_dates num_articles;
         retrieve_gnews_articles_fulldata groups num_articles
           length_threshold
       else mret []);
    mret (deduplicate_articles (articles_nc ++ articles_gnews)%list).

End Sources.

End InformationRetrieval.

(** ** ranking.py *)

Module Ranking.
Import PyStr TimeUtils InformationRetrieval.

(** [l[0]] *)
Definition first_word (l : list string) : outcome string :=
  match l with
  | w :: _ => Ok w
  | [] => Raised "IndexError"
  end.

(** [float(rating)] for a string of decimal digits *)
Definition float_of_digits (rating : string) : pyval :=
  VFloat (inject_Z (digits_val 0 rating)).

Definition extract_rating_from_response (response_str : string)
  : outcome pyval :=
  rating ← first_word (split_ws response_str);
  if isnumeric rating then Ok (float_of_digits rating)
  else
    let loc := split_on "Rating:" response_str in
    match loc with
    | _ :: after :: _ =>
        rating ← first_word (split_ws after);
        if isnumeric rating then Ok (float_of_digits rating)
        else Ok (VFloat 1)
    | _ => Ok VNone
    end.

(** the object after [article.publish_date = d] *)
Definition with_publish_date (a : Article) (d : option datetime) : Article :=
  {| title := title a; canonical_link := canonical_link a;
     text_cleaned := text_cleaned a; publish_date := Some d;
     search_term := search_term a; summary := summary a;
     relevance_rating := relevance_rating a |}.

(** [article.relevance_rating and article.relevance_rating >= threshold] *)
Definition keeps (threshold : Q) (article : Article) : bool :=
  match relevance_rating article with
  | Some r => negb (Qeq_bool r 0) && Qle_bool threshold r
  | None => false
  end.

Definition rating_lt (a b : Article) : bool :=
  match relevance_rating a, relevance_rating b with
  | Some x, Some y => negb (Qle_bool y x)
  | _, _ => false
  end.

Definition date_lt (a b : Article) : bool :=
  match publish_date a, publish_date b with
  | Some (Some x), Some (Some y) => dt_ltb (date_of x) (date_of y)
  | _, _ => false
  end.

(** one round of the loop that fills in the default date: reading the
    attribute of an object that does not have it raises [AttributeError],
    the default date is parsed for an article whose publish date is
    [None] *)
Definition fill_default_date (default_date : string) (article : Article)
  : outcome Article :=
  match publish_date article with
  | None => Raised "AttributeError"
  | Some (Some _) => Ok article
  | Some None =>
      match strptime_ymd default_date with
      | Some d => Ok (with_publish_date article (Some d))
      | None => Raised "ValueError"
      end
  end.

Definition _sort_and_filter_articles (articles : list Article)
  (default_date : string) (threshold : Q) (sort_by : string)
  : traced (list Article) :=
  let filtered_articles := List.filter (keeps threshold) articles in
  if String.eqb sort_by "relevance"
  then mret (sorted_desc rating_lt filtered_articles)
  else if String.eqb sort_by "date"
  then
    filtered_articles ← lift (mapM (fill_default_date default_date)
                                filtered_articles);
    mret (sorted_desc date_lt filtered_articles)
  else
    _ ← emit (Log "error" ("Not a valid sorting criterion: " ++ sort_by) []);
    mret filtered_articles.

End Ranking.

(** ** config/constants.py (the tables of models) and utils/model_utils.py *)

Module ModelUtils.
Import PyStr.

Definition OAI_SOURCE := "OAI".
Definition ANTHROPIC_SOURCE := "ANTHROPIC".
Definition TOGETHER_AI_SOURCE := "TOGETHER".
Definition GOOGLE_SOURCE := "GOOGLE".

Definition MODEL_TOKEN_LIMITS : list (string * Z) :=
  [("claude-2.1", 200000); ("claude-2", 100000);
   ("claude-3-opus-20240229", 200000); ("claude-3-sonnet-20240229", 200000);
   ("gpt-4", 8000); ("gpt-3.5-turbo-1106", 16000);
   ("gpt-3.5-turbo-16k", 16000); ("gpt-3.5-turbo", 8000);
   ("gpt-4-1106-preview", 128000); ("gemini-pro", 30720);
   ("togethercomputer/llama-2-7b-chat", 4096);
   ("togethercomputer/llama-2-13b-chat", 4096);
   ("togethercomputer/llama-2-70b-chat", 4096);
   ("togethercomputer/StripedHyena-Hessian-7B", 32768);
   ("togethercomputer/LLaMA-2-7B-32K", 32768);
   ("mistralai/Mistral-7B-Instruct-v0.2", 32768);
   ("mistralai/Mixtral-8x7B-Instruct-v0.1", 32768);
   ("zero-one-ai/Yi-34B-Chat", 4096);
   ("NousResearch/Nous-Hermes-2-Mixtral-8x7B-DPO", 32768);
   ("NousResearch/Nous-Hermes-2-Yi-34B", 32768)]%Z.

Definition MODEL_NAME_TO_SOURCE : list (string * string) :=
  [("claude-2.1", ANTHROPIC_SOURCE); ("claude-2", ANTHROPIC_SOURCE);
   ("claude-3-opus-20240229", ANTHROPIC_SOURCE);
   ("claude-3-sonnet-20240229", ANTHROPIC_SOURCE);
   ("gpt-4", OAI_SOURCE); ("gpt-3.5-turbo-1106", OAI_SOURCE);
   ("gpt-3.5-turbo-16k", OAI_SOURCE); ("gpt-3.5-turbo", OAI_SOURCE);
   ("gpt-4-1106-preview", OAI_SOURCE); ("gemini-pro", GOOGLE_SOURCE);
   ("togethercomputer/llama-2-7b-chat", TOGETHER_AI_SOURCE);
   ("togethercomputer/llama-2-13b-chat", TOGETHER_AI_SOURCE);
   ("togethercomputer/llama-2-70b-chat", TOGETHER_AI_SOURCE);
   ("togethercomputer/LLaMA-2-7B-32K", TOGETHER_AI_SOURCE);
   ("togethercomputer/StripedHyena-Hessian-7B", TOGETHER_AI_SOURCE);
   ("mistralai/Mistral-7B-Instruct-v0.2", TOGETHER_AI_SOURCE);
   ("mistralai/Mixtral-8x7B-Instruct-v0.1", TOGETHER_AI_SOURCE);
   ("zero-one-ai/Yi-34B-Chat", TOGETHER_AI_SOURCE);
   ("NousResearch/Nous-Hermes-2-Mixtral-8x7B-DPO", TOGETHER_AI_SOURCE);
   ("NousResearch/Nous-Hermes-2-Yi-34B", TOGETHER_AI_SOURCE)].

(** [d[key]] on a table *)
Fixpoint lookup {V : Type} (key : string) (d : list (string * V)) : option V :=
  match d with
  | [] => None
  | (k, v) :: r => if String.eqb k key then Some v else lookup key r
  end.

Definition infer_model_source (model_name : string) : outcome string :=
  if contains "ft:gpt" model_name then Ok OAI_SOURCE
  else match lookup model_name MODEL_NAME_TO_SOURCE with
       | Some src => Ok src
       | None => Raised "ValueError"
       end.

Section CountTokens.
(** [len(tiktoken.encoding_for_model(model_name).encode(text))] *)
Variable tiktoken_len : string -> string -> outcome nat.

(** the token count: an integer for the OpenAI models, a third of the
    number of characters for the others *)
Definition count_tokens (text model_name : string) : outcome Q :=
  model_source ← infer_model_source model_name;
  if String.eqb model_source OAI_SOURCE
  then n ← tiktoken_len model_name text; Ok (inject_Z (Z.of_nat n))
  else Ok (Z.of_nat (String.length text) # 3).
End CountTokens.

End ModelUtils.

(** ** summarize.py *)

Module Summarize.
Import PyStr ModelUtils StringUtils.
Local Open Scope Q_scope.

(** the state of the loop of [split_text_into_chunks] *)
Record chunker : Type := {
  current_chunk : list string;
  current_chunk_tokens : Q;
  chunks : list string
}.

Section Summarizer.
Variable tiktoken_len : string -> string -> outcome nat.
Variable str_format : string -> list (string * fval) -> outcome string.
(** [model_eval.get_response_from_model(model_name, prompt, max_tokens)] *)
Variable get_response_from_model :
  string -> string -> option Z -> outcome string.

Definition chunk_step (model_name : string) (token_limit : Q)
  (st : chunker) (word : string) : outcome chunker :=
  word_tokens ← count_tokens tiktoken_len word model_name;
  if negb (Qle_bool (current_chunk_tokens st + word_tokens) token_limit)
  then Ok {| current_chunk := [word];
             current_chunk_tokens := word_tokens;
             chunks := (chunks st ++ [join " " (current_chunk st)])%list |}
  else Ok {| current_chunk := (current_chunk st ++ [word])%list;
             current_chunk_tokens := current_chunk_tokens st + word_tokens;
             chunks := chunks st |}.

Fixpoint chunk_loop (model_name : string) (token_limit : Q)
  (st : chunker) (words : list string) : outcome chunker :=
  match words with
  | [] => Ok st
  | word :: r =>
      st' ← chunk_step model_name token_limit st word;
      chunk_loop model_name token_limit st' r
  end.

Definition split_text_into_chunks (text model_name : string)
  (token_limit : Q) : outcome (list string) :=
  st ← chunk_loop model_name token_limit
         {| current_chunk := []; current_chunk_tokens := 0; chunks := [] |}
         (split_ws text);
  match current_chunk st with
  | [] => Ok (chunks st)
  | _ => Ok (chunks st ++ [join " " (current_chunk st)])%list
  end.

(** the branch of a text within the limit: one completion call *)
Definition summarize_once (text model_name prompt : string)
  (output_token_length : option Z) : traced string :=
  let prompt :=
    match output_token_length with
    | Some n =>
        if (n =? 0)%Z then prompt
        else prompt ++ String "010" (String "010"
               ("Also, ensure the summary is under "
                  ++ (if (n <? 0)%Z
                      then "-" ++ str_of_nat (Z.to_nat (- n))
                      else str_of_nat (Z.to_nat n))
                  ++ " words." ++ String "010" ""))
    | None => prompt
    end in
  full_prompt ← lift (str_format prompt [("article", FStr text)]);
  _ ← emit (Completion model_name full_prompt);
  output ← lift (get_response_from_model model_name full_prompt
                   output_token_length);
  _ ← emit (Log "info" "Time taken for summarization: {:.2f} seconds" []);
  _ ← emit (Log "info" "Finished summarizing the article!" []);
  mret output.

(** the loop over the chunks; [None] when a recursive call does not
    return *)
Fixpoint summarize_chunks (rec : string -> option (traced string))
  (chunks : list string) : option (traced (list string)) :=
  match chunks with
  | [] => Some (mret [])
  | chunk :: r =>
      match rec chunk with
      | None => None
      | Some (t, Raised e) => Some (t, Raised e)
      | Some (t, Ok summarized_chunk) =>
          match summarize_chunks rec r with
          | None => None
          | Some (t', Raised e) => Some ((t ++ t')%list, Raised e)
          | Some (t', Ok l) =>
              Some ((t ++ t')%list, Ok (summarized_chunk :: l))
          end
      end
  end.

(** [recursive_summarize], with the depth of the recursion bounded by
    [fuel]: [None] when the bound is reached.  A call that returns at no
    depth is a call that CPython ends with [RecursionError], at its own
    bound on the depth of the recursion. *)
Fixpoint recursive_summarize (fuel : nat) (text model_name prompt : string)
  (output_token_length : option Z) (temperature : Q)
  : option (traced string) :=
  match fuel with
  | O => None
  | S fuel' =>
      match count_tokens tiktoken_len text model_name with
      | Raised e => Some ([], Raised e)
      | Ok total_tokens =>
          let log :=
            Log "info" "Total number of tokens of the given text: {}"
              [VFloat total_tokens] in
          match lookup model_name MODEL_TOKEN_LIMITS with
          | None => Some ([log], Raised "KeyError")
          | Some limit =>
              if Qle_bool total_tokens (inject_Z limit)
              then
                Some (_ ← emit log;
                      summarize_once text model_name prompt
                        output_token_length)
              else
                let token_limit := inject_Z (limit - 1000) in
                match split_text_into_chunks text model_name token_limit with
                | Raised e => Some ([log], Raised e)
                | Ok chunks =>
                    match
                      summarize_chunks
                        (fun chunk =>
                           recursive_summarize fuel' chunk model_name prompt
                             output_token_length temperature)
                        chunks
                    with
                    | None => None
                    | Some (t, Raised e) => Some (log :: t, Raised e)
                    | Some (t, Ok summarized_chunks) =>
                        let summarized_text := join " " summarized_chunks in
                        match
                          recursive_summarize fuel' summarized_text
                            model_name prompt output_token_length temperature
                        with
                        | None => None
                        | Some (t', r) => Some (log :: (t ++ t')%list, r)
                        end
                    end
                end
          end
      end
  end.

End Summarizer.

End Summarize.

(** ** information_retrieval.py: the search queries of a model response *)

Module SearchQueries.
Import PyStr InformationRetrieval.

(** [str.isspace] among the first 256 code points: TAB..CR, FS..US, space,
    NEL and the no-break space *)
Definition is_whitespace (c : ascii) : bool :=
  let n := nat_of_ascii c in
  is_space c || (n =? 133)%nat || (n =? 160)%nat.

(** the line boundaries of [str.splitlines], the pair CR LF apart: LF, VT,
    FF, CR, FS, GS, RS and NEL *)
Definition is_linebreak (c : ascii) : bool :=
  let n := nat_of_ascii c in
  ((10 <=? n)%nat && (n <=? 13)%nat) || ((28 <=? n)%nat && (n <=? 30)%nat)
  || (n =? 133)%nat.

Fixpoint lstrip_by (f : ascii -> bool) (s : string) : string :=
  match s with
  | EmptyString => EmptyString
  | String c r => if f c then lstrip_by f r else s
  end.

Fixpoint rstrip_by (f : ascii -> bool) (s : string) : string :=
  match s with
  | EmptyString => EmptyString
  | String c r =>
      let r' := rstrip_by f r in
      if f c && String.eqb r' EmptyString then EmptyString else String c r'
  end.

(** [s.strip()] *)
Definition strip (s : string) : string :=
  rstrip_by is_whitespace (lstrip_by is_whitespace s).

(** [c in chars] for a character *)
Fixpoint char_in (chars : string) (c : ascii) : bool :=
  match chars with
  | EmptyString => false
  | String x r => Ascii.eqb c x || char_in r c
  end.

(** [s.strip(chars)] *)
Definition strip_chars (chars s : string) : string :=
  rstrip_by (char_in chars) (lstrip_by (char_in chars) s).

(** [l[-k]] for [1 <= k] *)
Definition from_end {A : Type} (k : nat) (l : list A) : outcome A :=
  match rev l !! (k - 1)%nat with
  | Some x => Ok x
  | None => Raised "IndexError"
  end.

(** [s.split(sep, 1)[1]]: what follows the first occurrence of [sep] *)
Fixpoint after_first (sep s : string) : outcome string :=
  if starts_with sep s then Ok (drop (String.length sep) s)
  else match s with
       | EmptyString => Raised "IndexError"
       | String _ r => after_first sep r
       end.

(** [s.splitlines()] *)
Fixpoint splitlines_aux (cur s : string) : list string :=
  match s with
  | EmptyString =>
      if String.eqb cur EmptyString then [] else [cur]
  | String c r =>
      if Ascii.eqb c "013" then
        match r with
        | String c' r' =>
            if Ascii.eqb c' "010" then cur :: splitlines_aux EmptyString r'
            else cur :: splitlines_aux EmptyString r
        | EmptyString => cur :: splitlines_aux EmptyString r
        end
      else if is_linebreak c then cur :: splitlines_aux EmptyString r
      else splitlines_aux (cur ++ String c EmptyString) r
  end.

Definition splitlines (s : string) : list string := splitlines_aux EmptyString s.

(** the double quote *)
Definition double_quote : string := String "034" EmptyString.

Definition extract_search_queries_from_line (line : string) : list string :=
  let substrings := split_on ";" line in
  let queries :=
    map (fun q => remove_all double_quote (strip_chars ".-; " q))
      (List.filter (fun q => negb (String.eqb (strip q) EmptyString))
         substrings) in
  List.filter (fun q => negb (String.eqb q EmptyString)) queries.

Definition extract_search_queries (model_response : string)
  : outcome (list string) :=
  let lines := split_on (String "010" EmptyString) (strip model_response) in
  second_last_line ← from_end 2 lines;
  if contains "Search Queries:" second_last_line
  then
    last_line ← from_end 1 lines;
    Ok (extract_search_queries_from_line last_line)
  else
    search_queries_part ← after_first "Search Queries:" model_response;
    let flattened_string :=
      join " " (map strip (splitlines search_queries_part)) in
    Ok (extract_search_queries_from_line flattened_string).

End SearchQueries.

(** ** utils/utils.py: the indices of the largest numbers *)

Module ListUtils.
Local Open Scope Q_scope.

(** [l[k:]] for an arbitrary integer [k]: a negative [k] counts from the
    end, and out-of-range bounds are clipped. *)
Definition list_slice_from {A : Type} (k : Z) (l : list A) : list A :=
  if (k <? 0)%Z
  then drop (Z.to_nat (Z.max 0 (Z.of_nat (List.length l) + k))) l
  else drop (Z.to_nat k) l.

(** [sorted(l, key=key)]: stable, smaller keys first.  [lt a b] tells that
    the key of [a] is smaller than the key of [b]. *)
Definition sorted_asc {A : Type} (lt : A -> A -> bool) (l : list A) : list A :=
  sorted_desc (fun a b => lt b a) l.

(** [list_of_numbers[i]] for an index of [range(len(list_of_numbers))] *)
Definition number_at (list_of_numbers : list Q) (i : nat) : Q :=
  nth i list_of_numbers 0.

Definition indices_of_N_largest_numbers (list_of_numbers : list Q) (N : Z)
  : list nat :=
  let indices :=
    list_slice_from (- N)
      (sorted_asc
         (fun i j => negb (Qle_bool (number_at list_of_numbers j)
                             (number_at list_of_numbers i)))
         (seq 0 (List.length list_of_numbers))) in
  indices.

End ListUtils.

(** ** utils/time_utils.py: distances between dates *)

Module DateUtils.
Import PyStr TimeUtils.
Local Open Scope Z_scope.

(** [extract_date] of a string: the part before the first "T", if any *)
Definition extract_date (datetime : string) : string :=
  if contains "T" datetime
  then match split_on "T" datetime with
       | first :: _ => first
       | [] => EmptyString
       end
  else datetime.

(** the number of days before January 1st of year [y] *)
Definition days_before_year (y : Z) : Z :=
  let y := y - 1 in y * 365 + y / 4 - y / 100 + y / 400.

(** the number of days of year [y] before the first day of month [m] *)
Definition days_before_month (y m : Z) : Z :=
  foldr Z.add 0
    (map (fun k => days_in_month y (Z.of_nat k)) (seq 1 (Z.to_nat (m - 1)))).

(** [d.toordinal()]: day 1 is January 1st of year 1 *)
Definition toordinal (d : datetime) : Z :=
  days_before_year (year d) + days_before_month (year d) (month d) + day d.

(** [(b - a).days] for two datetimes at midnight *)
Definition days_between (a b : datetime) : Z := toordinal b - toordinal a.

(** the largest number of days of a [timedelta] *)
Definition max_timedelta_days : Z := 999999999.

(** [timedelta(days=N)] for an integer [N], as its number of days:
    [OverflowError] beyond the magnitude 999999999 *)
Definition timedelta_days (N : Z) : outcome Z :=
  if Z.abs N <=? max_timedelta_days then Ok N else Raised "OverflowError".

(** [(date_obj2 - date_obj1) < timedelta(days=N)] for an integer [N]: the
    two dates are parsed first, then the [timedelta] is built *)
Definition is_less_than_N_days_apart (date1_str date2_str : string) (N : Z)
  : outcome bool :=
  match strptime_ymd date1_str with
  | None => Raised "ValueError"
  | Some date_obj1 =>
      match strptime_ymd date2_str with
      | None => Raised "ValueError"
      | Some date_obj2 =>
          match timedelta_days N with
          | Ok days => Ok (days_between date_obj1 date_obj2 <? days)
          | Raised e => Raised e
          end
      end
  end.

(** the loop of [find_pred_with_closest_date]: [min_diff] is [None] for
    [float("inf")] *)
Fixpoint closest_loop {A : Type} (ref_date : datetime)
  (date_pred_list : list (string * A))
  (closest_date : option (string * A)) (min_diff : option Z)
  : outcome (option (string * A)) :=
  match date_pred_list with
  | [] => Ok closest_date
  | date_tuple :: rest =>
      match strptime_ymd date_tuple.1 with
      | None => Raised "ValueError"
      | Some current_date =>
          let diff := Z.abs (days_between ref_date current_date) in
          if match min_diff with
             | None => true
             | Some m => diff <? m
             end
          then closest_loop ref_date rest (Some date_tuple) (Some diff)
          else closest_loop ref_date rest closest_date min_diff
      end
  end.

Definition find_pred_with_closest_date {A : Type} (date_str : string)
  (date_pred_list : list (string * A)) : outcome (option (string * A)) :=
  match strptime_ymd date_str with
  | None => Raised "ValueError"
  | Some ref_date => closest_loop ref_date date_pred_list None None
  end.

End DateUtils.

(** * Properties *)

(** ** Probability extraction *)

Module ProbabilityFacts.
Import PyStr StringUtils.

(** The three examples of the specification. *)
Example extract_star_decimal :
  extract_probability_with_stars "My forecast is *0.73* overall." = (73 # 100)%Q.
Proof. reflexivity. Qed.

Example extract_star_percent :
  (extract_probability_with_stars "My forecast is *70%* overall." == 7 # 10)%Q.
Proof. vm_compute. reflexivity. Qed.

Example extract_no_number :
  extract_probability_with_stars "no number here" = (1 # 2)%Q.
Proof. reflexivity. Qed.

(** C1 (the code departs from its docstring): on the text
    ["*0.3* and *5*"] the numbers found between asterisks are 0.3 and 5, so
    the last one that is at most 1 is 0.3; the function looks at the very
    last number only, finds 5, and falls back to the default 0.5. *)
Theorem extract_probability_checks_last_number_only :
  star_numbers
    (findall_star_groups (String.length "*0.3* and *5*") "*0.3* and *5*")
    = [(3 # 10)%Q; (5 # 1)%Q]
  /\ extract_probability_with_stars "*0.3* and *5*" = (1 # 2)%Q.
Proof. split; reflexivity. Qed.

End ProbabilityFacts.

(** ** The extracted probability always lies in the unit interval *)

Module ProbabilityRange.
Import PyStr StringUtils.
Local Open Scope Q_scope.

Lemma digit_val_nonneg c : is_digit c = true -> (0 <= digit_val c)%Z.
Proof.
  unfold is_digit, digit_val. intros H.
  apply andb_true_iff in H as [H _]. apply Nat.leb_le in H. lia.
Qed.

Lemma digits_val_nonneg s : forall acc,
  all_digits s = true -> (0 <= acc)%Z -> (0 <= digits_val acc s)%Z.
Proof.
  induction s as [|c r IH]; simpl; intros acc H Hacc; [assumption|].
  apply andb_true_iff in H as [Hc Hr].
  apply IH; [assumption|]. pose proof (digit_val_nonneg c Hc). lia.
Qed.

Lemma all_digits_app a b :
  all_digits a = true -> all_digits b = true -> all_digits (a ++ b) = true.
Proof.
  induction a as [|c r IH]; simpl; intros Ha Hb; [assumption|].
  apply andb_true_iff in Ha as [Hc Hr]. rewrite Hc. simpl. auto.
Qed.

Lemma float_of_run_nonneg s q : float_of_run s = Some q -> 0 <= q.
Proof.
  unfold float_of_run. destruct (split_dot s) as [i f].
  set (f' := match f with Some x => x | None => EmptyString end).
  destruct (all_digits i) eqn:Hi; simpl; [|discriminate].
  destruct (all_digits f') eqn:Hf; simpl; [|discriminate].
  destruct (negb _); [|discriminate].
  intros [= <-]. unfold Qle. simpl.
  pose proof (digits_val_nonneg (i ++ f') 0 (all_digits_app _ _ Hi Hf)). lia.
Qed.

Lemma star_numbers_nonneg ms : Forall (Qle 0) (star_numbers ms).
Proof.
  unfold star_numbers. induction ms as [|m r IH]; simpl; [constructor|].
  apply Forall_app. split; [|exact IH].
  destruct (first_num_run m) as [run|]; [|constructor].
  destruct (float_of_run run) as [q|] eqn:Hq; [|constructor].
  constructor; [|constructor].
  apply float_of_run_nonneg in Hq.
  destruct (contains "%" m); [|assumption].
  apply Qle_shift_div_l; [reflexivity|]. rewrite Qmult_0_l. assumption.
Qed.

Lemma plain_numbers_nonneg ms : Forall (Qle 0) (plain_numbers ms).
Proof.
  unfold plain_numbers. induction ms as [|m r IH]; simpl; [constructor|].
  apply Forall_app. split; [|exact IH].
  induction (num_runs m) as [|run rs IHr]; simpl; [constructor|].
  apply Forall_app. split; [|exact IHr].
  destruct (float_of_run run) as [q|] eqn:Hq; [|constructor].
  constructor; [|constructor]. eapply float_of_run_nonneg; eassumption.
Qed.

Lemma last_if_le_1_unit l x :
  Forall (Qle 0) l -> last_if_le_1 l = Some x -> 0 <= x /\ x <= 1.
Proof.
  unfold last_if_le_1. intros Hl.
  destruct (list.last l) as [y|] eqn:Hy; [|discriminate].
  destruct (Qle_bool y 1) eqn:Hle; [|discriminate].
  intros [= <-]. split.
  - rewrite Forall_forall in Hl. apply Hl.
    apply last_Some in Hy as [l' ->]. apply elem_of_app. right. constructor.
  - apply Qle_bool_iff. assumption.
Qed.

(** Whatever the text, the extracted probability is between 0 and 1. *)
Lemma extract_probability_in_unit text :
  0 <= extract_probability_with_stars text
  /\ extract_probability_with_stars text <= 1.
Proof.
  unfold extract_probability_with_stars.
  destruct (last_if_le_1 (star_numbers _)) as [x|] eqn:H1.
  - eapply last_if_le_1_unit; [apply star_numbers_nonneg|exact H1].
  - destruct (last_if_le_1 (plain_numbers _)) as [x|] eqn:H2.
    + eapply last_if_le_1_unit; [apply plain_numbers_nonneg|exact H2].
    + split; discriminate.
Qed.

End ProbabilityRange.

(** ** Ensemble aggregation *)

Module EnsembleFacts.
Import PyStr StringUtils Ensemble.

Lemma mapM_total {A B : Type} (f : A -> outcome B) (g : A -> B) l :
  (forall x, f x = Ok (g x)) -> mapM f l = Ok (map g l).
Proof.
  intros Hf. induction l as [|x r IH]; [reflexivity|].
  cbn. rewrite Hf. cbn. rewrite IH. reflexivity.
Qed.

Lemma extract_prediction_total answer_type end_words reasoning :
  answer_type = "probability" \/ answer_type = "tokens" ->
  extract_prediction reasoning answer_type end_words
  = Ok (prediction_of answer_type end_words reasoning).
Proof. intros [-> | ->]; reflexivity. Qed.

Lemma extract_all_total answer_type end_words (brs : list (list string)) :
  answer_type = "probability" \/ answer_type = "tokens" ->
  mapM (mapM (fun reasoning =>
                extract_prediction reasoning answer_type end_words)) brs
  = Ok (map (map (prediction_of answer_type end_words)) brs).
Proof.
  intros H. apply mapM_total. intros l. apply mapM_total.
  intros r. apply extract_prediction_total, H.
Qed.

Lemma concat_map_map {A B : Type} (g : A -> B) (ll : list (list A)) :
  concat (map (map g) ll) = map g (concat ll).
Proof.
  induction ll as [|l r IH]; [reflexivity|].
  cbn. rewrite IH, map_app. reflexivity.
Qed.

Section Facts.
Variable str_format : string -> list (string * fval) -> outcome string.
Variable get_response_from_model : string -> string -> Q -> outcome string.

Local Abbreviation aggregate :=
  (aggregate_base_reasonings str_format get_response_from_model).

(** C5: with exactly one base reasoning across all groups the
    aggregation is skipped whatever the method: the result carries the
    prediction extracted from that reasoning, no meta prompt and no meta
    reasoning, and nothing at all is emitted, in particular no
    completion call. *)
Theorem single_reasoning_shortcut
  (brs : list (list string)) (reasoning question background : string)
  (dates : option (list string)) (criteria info : string)
  (method : option string) (answer_type : string)
  (weights : option (list Np.weight)) (end_words : list string)
  (model_name : string) (template : string * list string) (temp : Q) :
  answer_type = "probability" \/ answer_type = "tokens" ->
  concat brs = [reasoning] ->
  aggregate brs question background dates criteria info method answer_type
    weights end_words model_name template temp
  = ([], Ok {| base_reasonings := brs;
               base_predictions :=
                 map (map (prediction_of answer_type end_words)) brs;
               meta_prediction :=
                 prediction_of answer_type end_words reasoning;
               meta_prompt := None;
               meta_reasoning := None |})
  /\ extract_prediction reasoning answer_type end_words
     = Ok (prediction_of answer_type end_words reasoning).
Proof.
  intros Hty Hone. split; [|apply extract_prediction_total, Hty].
  unfold aggregate_base_reasonings.
  destruct brs as [|g gs]; [discriminate|]. cbn [List.length Nat.eqb].
  rewrite (extract_all_total _ _ _ Hty).
  rewrite concat_map_map, Hone. reflexivity.
Qed.

End Facts.

Lemma single_reasoning_shortcut_witness :
  aggregate_base_reasonings (fun t _ => Ok t) (fun _ _ _ => Ok "")
    [[]; ["I say *0.8*."]] "Will it rain?" "" None "" ""
    (Some "weighted-mean") "probability" None [] "gpt-4" ("", []) 0
  = ([], Ok {| base_reasonings := [[]; ["I say *0.8*."]];
               base_predictions := [[]; [VFloat (8 # 10)]];
               meta_prediction := VFloat (8 # 10);
               meta_prompt := None;
               meta_reasoning := None |}).
Proof.
  exact (proj1 (single_reasoning_shortcut (fun t _ => Ok t)
                  (fun _ _ _ => Ok "") [[]; ["I say *0.8*."]] "I say *0.8*."
                  "Will it rain?" "" None "" "" (Some "weighted-mean")
                  "probability" None [] "gpt-4" ("", []) 0
                  (or_introl eq_refl) eq_refl)).
Defined.

End EnsembleFacts.

(** ** The clamp of the aggregated probability *)

Module EnsembleClamp.
Import PyStr StringUtils Ensemble EnsembleFacts.

Section Clamp.
Variable str_format : string -> list (string * fval) -> outcome string.
Variable get_response_from_model : string -> string -> Q -> outcome string.

Local Abbreviation aggregate :=
  (aggregate_base_reasonings str_format get_response_from_model).

(** C2 (the clamp misses [nan]): two forecasters answer 0.3 and 0.6 and
    the method is "weighted-mean" with the weights [nan] and 1.  The
    weighted average is [nan], every comparison of the range check
    [v is None or v < 0.0 or v > 1.0] is false on [nan], and [nan] is
    returned as [meta_prediction] instead of 0.5; nothing is logged.  The
    same happens with an infinite weight. *)
Theorem clamp_lets_nan_through
  (question background : string) (dates : option (list string))
  (criteria info : string) (end_words : list string) (model_name : string)
  (template : string * list string) (temp : Q) :
  let brs := [["I say *0.3*"]; ["It is *0.6*"]] in
  let nan_result :=
    ([], Ok {| base_reasonings := brs;
               base_predictions := [[VFloat (3 # 10)]; [VFloat (6 # 10)]];
               meta_prediction := VNaN; meta_prompt := None;
               meta_reasoning := None |}) in
  let call weights :=
    aggregate_base_reasonings str_format get_response_from_model brs
      question background dates criteria info (Some "weighted-mean")
      "probability" (Some weights) end_words model_name template temp in
  call [Np.NotANumber; Np.Finite 1] = nan_result
  /\ call [Np.Infinite false; Np.Finite 1] = nan_result.
Proof. split; vm_compute; reflexivity. Qed.

(** A call whose groups hold no reasoning at all passes the assertion on
    [base_reasonings]; the mean, the median and the unweighted average of
    an empty array are [nan], and [nan] is returned in the same way. *)
Lemma aggregate_without_reasonings_returns_nan
  (question background : string) (dates : option (list string))
  (criteria info : string) (end_words : list string) (model_name : string)
  (template : string * list string) (temp : Q) :
  let nan_result :=
    ([], Ok {| base_reasonings := [[]]; base_predictions := [[]];
               meta_prediction := VNaN; meta_prompt := None;
               meta_reasoning := None |}) in
  let call method :=
    aggregate_base_reasonings str_format get_response_from_model [[]]
      question background dates criteria info (Some method) "probability"
      None end_words model_name template temp in
  call "mean" = nan_result
  /\ call "vote-or-median" = nan_result
  /\ call "weighted-mean" = nan_result.
Proof. repeat split. Qed.

Lemma out_of_unit_false v :
  out_of_unit v = Ok false ->
  v = VNaN \/ exists q, v = VFloat q /\ (0 <= q)%Q /\ (q <= 1)%Q.
Proof.
  destruct v as [q| |s|]; cbn; try discriminate; [|auto].
  intros [= H]. right. exists q. split; [reflexivity|].
  apply orb_false_iff in H as [H0 H1].
  apply negb_false_iff in H0, H1.
  split; apply Qle_bool_iff; assumption.
Qed.

Lemma mean_not_nan xs : xs <> [] -> Np.mean xs <> VNaN.
Proof. destruct xs; [congruence|discriminate]. Qed.

Lemma median_not_nan xs : xs <> [] -> Np.median xs <> VNaN.
Proof.
  destruct xs; [congruence|]. intros _. unfold Np.median.
  destruct (Nat.even _); discriminate.
Qed.

Lemma average_not_nan xs v :
  xs <> [] -> Np.average xs None = Ok v -> v <> VNaN.
Proof. intros Hxs [= <-]. apply mean_not_nan, Hxs. Qed.

(** With at least one base reasoning and no array of weights in use, a
    probability answer that is returned is a number between 0 and 1,
    whatever the method. *)
Lemma aggregate_probability_in_unit
  (brs : list (list string)) (question background : string)
  (dates : option (list string)) (criteria info : string)
  (method : option string) (weights : option (list Np.weight))
  (end_words : list string) (model_name : string)
  (template : string * list string) (temp : Q) t r :
  concat brs <> [] ->
  (is_method method "weighted-mean" = true -> weights = None) ->
  aggregate brs question background dates criteria info method "probability"
    weights end_words model_name template temp = (t, Ok r) ->
  exists q, meta_prediction r = VFloat q /\ (0 <= q)%Q /\ (q <= 1)%Q.
Proof.
  intros Hne Hw. unfold aggregate_base_reasonings.
  destruct (List.length brs =? 0)%nat; [discriminate|].
  rewrite (extract_all_total "probability" end_words brs (or_introl eq_refl)).
  rewrite concat_map_map.
  set (ps := map (prediction_of "probability" end_words) (concat brs)).
  assert (Hfl : mapM as_float ps
                = Ok (map extract_probability_with_stars (concat brs))).
  { subst ps. induction (concat brs) as [|x l IH]; [reflexivity|].
    cbn. destruct l as [|y l'].
    - reflexivity.
    - rewrite IH by discriminate. reflexivity. }
  assert (Hxs : map extract_probability_with_stars (concat brs) <> []).
  { destruct (concat brs); [congruence|discriminate]. }
  destruct ps as [|p [|p' ps']] eqn:Hps.
  - subst ps. destruct (concat brs); [congruence|discriminate].
  - intros [= <- <-]. cbn.
    subst ps. destruct (concat brs) as [|x [|? ?]]; try discriminate.
    injection Hps as <-. eexists. split; [reflexivity|].
    apply ProbabilityRange.extract_probability_in_unit.
  - cbn [String.eqb Ascii.eqb Bool.eqb andb].
    destruct (negb (is_method method "meta")).
    + rewrite Hfl. cbn [mbind outcome_bind].
      set (xs := map extract_probability_with_stars (concat brs)) in *.
      destruct (_ || _).
      * pose proof (mean_not_nan xs Hxs) as Hn.
        destruct (out_of_unit (Np.mean xs)) as [[|]|] eqn:Ho;
          intros [= <- <-]; cbn.
        -- eexists. split; [reflexivity|]. split; discriminate.
        -- apply out_of_unit_false in Ho as [Ho|Ho]; [congruence|exact Ho].
      * destruct (is_method method "vote-or-median").
        -- pose proof (median_not_nan xs Hxs) as Hn.
           destruct (out_of_unit (Np.median xs)) as [[|]|] eqn:Ho;
             intros [= <- <-]; cbn.
           ++ eexists. split; [reflexivity|]. split; discriminate.
           ++ apply out_of_unit_false in Ho as [Ho|Ho]; [congruence|exact Ho].
        -- destruct (is_method method "weighted-mean"); [|discriminate].
           rewrite (Hw eq_refl).
           destruct (Np.average xs None) as [v|] eqn:Hv; [|discriminate].
           pose proof (average_not_nan xs v Hxs Hv) as Hn.
           destruct (out_of_unit v) as [[|]|] eqn:Ho; intros [= <- <-]; cbn.
           ++ eexists. split; [reflexivity|]. split; discriminate.
           ++ apply out_of_unit_false in Ho as [Ho|Ho]; [congruence|exact Ho].
    + cbn [andb]. destruct template as [prompt fields].
      destruct (get_prompt _ _ _ _) as [p0|]; [|discriminate].
      destruct (get_response_from_model _ _ _) as [resp|]; [|discriminate].
      cbn [String.eqb Ascii.eqb Bool.eqb].
      pose proof (ProbabilityRange.extract_probability_in_unit resp) as Hr.
      destruct (out_of_unit _) as [[|]|] eqn:Ho; intros [= <- <-]; cbn.
      * eexists. split; [reflexivity|]. split; discriminate.
      * eexists. split; [reflexivity|]. exact Hr.
Qed.

End Clamp.

End EnsembleClamp.

(** ** The vocabulary of token answers *)

Module EnsembleTokens.
Import PyStr StringUtils Ensemble EnsembleFacts.

Lemma in_insert_desc {A : Type} (lt : A -> A -> bool) x y l :
  In x (insert_desc lt y l) <-> x = y \/ In x l.
Proof.
  induction l as [|z r IH]; cbn; [intuition congruence|].
  destruct (lt y z); cbn; rewrite ?IH; intuition congruence.
Qed.

Lemma in_sorted_desc {A : Type} (lt : A -> A -> bool) x l :
  In x (sorted_desc lt l) <-> In x l.
Proof.
  unfold sorted_desc. induction l as [|y r IH]; cbn; [tauto|].
  rewrite in_insert_desc, IH. intuition congruence.
Qed.

Lemma find_end_word_in paragraph end_words n w :
  find_end_word paragraph end_words n = Some w ->
  In w end_words /\ contains w (window paragraph n) = true.
Proof.
  unfold find_end_word. intros H. apply find_some in H as [Hin Hc].
  split; [|exact Hc]. eapply in_sorted_desc, Hin.
Qed.

Lemma is_string_in_list_of_in w l : In w l -> is_string_in_list w l = true.
Proof.
  intros H. unfold is_string_in_list. apply existsb_exists.
  exists w. split; [exact H|]. apply String.eqb_refl.
Qed.

Lemma length_gt_1_not_single {A : Type} (l : list A) :
  (1 < List.length l)%nat -> exists a b r, l = a :: b :: r.
Proof. destruct l as [|a [|b r]]; cbn; intros H; try lia; eauto. Qed.

End EnsembleTokens.

(** ** Relevance ranking *)

Module RankingFacts.
Import PyStr TimeUtils InformationRetrieval Ranking.

(** the documented paths of the rating parser *)
Example rating_leading_token :
  extract_rating_from_response "4 The article is on topic." = Ok (VFloat 4).
Proof. reflexivity. Qed.

Example rating_after_marker :
  extract_rating_from_response "Thoughts: on topic. Rating: 5"
  = Ok (VFloat 5).
Proof. reflexivity. Qed.

Example rating_marker_not_numeric :
  extract_rating_from_response "Thoughts: on topic. Rating: high"
  = Ok (VFloat 1).
Proof. reflexivity. Qed.

(** C7 (a missed case): a response whose first word is not a number and
    that holds no "Rating:" marker falls off the end of the function, which
    returns [None] instead of the default 1; a response made of white space
    only, though not empty, raises [IndexError]. *)
Theorem rating_without_marker_is_none :
  extract_rating_from_response "Not relevant at all." = Ok VNone
  /\ extract_rating_from_response " " = Raised "IndexError".
Proof. split; reflexivity. Qed.

(** C9: a sort key other than "relevance" and "date" is reported by an
    error record of the log that names the key; the function then returns
    the articles that pass the threshold, in their input order. *)
Theorem unknown_sort_key_is_reported
  (articles : list Article) (default_date : string) (threshold : Q)
  (sort_by : string) :
  sort_by <> "relevance" ->
  sort_by <> "date" ->
  _sort_and_filter_articles articles default_date threshold sort_by
  = ([Log "error" ("Not a valid sorting criterion: " ++ sort_by) []],
     Ok (List.filter (keeps threshold) articles)).
Proof.
  intros Hr Hd. unfold _sort_and_filter_articles.
  apply String.eqb_neq in Hr, Hd. rewrite Hr, Hd. reflexivity.
Qed.

Lemma unknown_sort_key_is_reported_witness :
  let low := sample_article "A" "http://a" (Some 2%Q) in
  let high := sample_article "B" "http://b" (Some 5%Q) in
  _sort_and_filter_articles [low; high] "2024-01-01" 4 "both"
  = ([Log "error" "Not a valid sorting criterion: both" []], Ok [high]).
Proof.
  apply (unknown_sort_key_is_reported
           [sample_article "A" "http://a" (Some 2%Q);
            sample_article "B" "http://b" (Some 5%Q)] "2024-01-01" 4 "both");
    discriminate.
Defined.

End RankingFacts.

(** ** Token extraction *)

Module TokenFacts.
Import PyStr StringUtils Ensemble EnsembleTokens.

Lemma starts_with_app p s : starts_with p (p ++ s) = true.
Proof.
  induction p as [|c r IH]; [reflexivity|].
  change (String c r ++ s) with (String c (r ++ s)).
  cbn [starts_with]. rewrite Ascii.eqb_refl. exact IH.
Qed.

Lemma starts_with_refl w : starts_with w w = true.
Proof.
  induction w as [|c r IH]; [reflexivity|].
  cbn [starts_with]. rewrite Ascii.eqb_refl. exact IH.
Qed.

Lemma contains_refl w : contains w w = true.
Proof.
  destruct w as [|c r]; [reflexivity|].
  cbn [contains]. rewrite starts_with_refl. reflexivity.
Qed.

Lemma contains_suffix a w : contains w (a ++ w) = true.
Proof.
  induction a as [|c r IH].
  - change ("" ++ w) with w. apply contains_refl.
  - change (String c r ++ w) with (String c (r ++ w)).
    cbn [contains]. rewrite IH. apply orb_true_r.
Qed.

Lemma length_app a b :
  String.length (a ++ b) = (String.length a + String.length b)%nat.
Proof.
  induction a as [|c r IH]; [reflexivity|].
  change (String c r ++ b) with (String c (r ++ b)). cbn. congruence.
Qed.

Lemma drop_app n a b :
  (n <= String.length a)%nat -> drop n (a ++ b) = drop n a ++ b.
Proof.
  revert a. induction n as [|n IH]; intros a Hn; [reflexivity|].
  destruct a as [|c r]; [cbn in Hn; lia|].
  change (String c r ++ b) with (String c (r ++ b)). cbn in *. apply IH. lia.
Qed.

(** a response that ends with a phrase of at most 50 characters has the
    phrase in its window *)
Lemma window_holds_suffix prefix w :
  (String.length w <= 50)%nat ->
  contains w (window (prefix ++ w) 50) = true.
Proof.
  intros Hw. unfold window, slice_from. cbn [Z.opp Z.ltb Z.compare].
  rewrite drop_app.
  - apply contains_suffix.
  - rewrite length_app. lia.
Qed.

Lemma find_split {A : Type} (f : A -> bool) l x :
  List.find f l = Some x ->
  exists l1 l2, l = (l1 ++ x :: l2)%list /\ f x = true
                /\ forall y, In y l1 -> f y = false.
Proof.
  induction l as [|a r IH]; cbn; [discriminate|].
  destruct (f a) eqn:Ha.
  - intros [= ->]. exists [], r. repeat split; [exact Ha|]. intros y [].
  - intros H. destruct (IH H) as (l1 & l2 & -> & Hx & Hl1).
    exists (a :: l1), l2. repeat split; [exact Hx|].
    intros y [<- | Hy]; [exact Ha|]. apply Hl1, Hy.
Qed.

(** larger keys come first in the result of the sort *)
Lemma insert_desc_sorted {A : Type} (key : A -> nat) x l :
  StronglySorted (fun a b => (key b <= key a)%nat) l ->
  StronglySorted (fun a b => (key b <= key a)%nat)
    (insert_desc (fun a b => (key a <? key b)%nat) x l).
Proof.
  induction 1 as [|y r Hr IH Hy]; cbn [insert_desc].
  - repeat constructor.
  - destruct (key x <? key y)%nat eqn:Hlt.
    + constructor; [exact IH|].
      apply Nat.ltb_lt in Hlt. rewrite Forall_forall in Hy |- *.
      intros z Hz. apply list_elem_of_In, in_insert_desc in Hz as [-> | Hz].
      * lia.
      * apply Hy, list_elem_of_In, Hz.
    + apply Nat.ltb_ge in Hlt. constructor.
      * constructor; assumption.
      * constructor; [exact Hlt|].
        rewrite Forall_forall in Hy |- *. intros z Hz.
        specialize (Hy z Hz). lia.
Qed.

Lemma sorted_desc_sorted {A : Type} (key : A -> nat) l :
  StronglySorted (fun a b => (key b <= key a)%nat)
    (sorted_desc (fun a b => (key a <? key b)%nat) l).
Proof.
  unfold sorted_desc. induction l as [|x r IH]; cbn [foldr]; [constructor|].
  apply insert_desc_sorted, IH.
Qed.

Lemma sorted_app_inv {A : Type} (R : A -> A -> Prop) l1 x l2 :
  StronglySorted R (l1 ++ x :: l2)%list -> forall y, In y l2 -> R x y.
Proof.
  induction l1 as [|a r IH]; cbn; intros H y Hy.
  - apply StronglySorted_inv in H as [_ H]. rewrite Forall_forall in H.
    apply H, list_elem_of_In, Hy.
  - apply StronglySorted_inv in H as [H _]. eapply IH; eassumption.
Qed.

Lemma drop_is_suffix n s : exists skipped, s = skipped ++ drop n s.
Proof.
  revert s. induction n as [|n IH]; intros s; [exists ""; reflexivity|].
  destruct s as [|c r]; [exists ""; reflexivity|].
  destruct (IH r) as [skipped E]. exists (String c skipped).
  change (String c skipped ++ drop (S n) (String c r))
    with (String c (skipped ++ drop n r)).
  rewrite <- E. reflexivity.
Qed.

Lemma window_is_suffix response n :
  exists skipped, response = skipped ++ window response n.
Proof.
  unfold window, slice_from. destruct (- n <? 0)%Z; apply drop_is_suffix.
Qed.

Lemma contains_after a b w : contains w b = true -> contains w (a ++ b) = true.
Proof.
  intros H. induction a as [|c r IH]; [exact H|].
  change (String c r ++ b) with (String c (r ++ b)).
  cbn [contains]. rewrite IH. apply orb_true_r.
Qed.

(** what [find_end_word] returns, in terms of the part of the response
    that it searches *)
Lemma find_end_word_choice response end_words n :
  (forall w, find_end_word response end_words n = Some w ->
     In w end_words
     /\ contains w (window response n) = true
     /\ forall w', In w' end_words ->
                   contains w' (window response n) = true ->
                   (num_words w' <= num_words w)%nat)
  /\ (find_end_word response end_words n = None <->
      forall w, In w end_words -> contains w (window response n) = false).
Proof.
  split.
  - intros w Hw. destruct (find_end_word_in _ _ _ _ Hw) as [Hin Hc].
    repeat split; [exact Hin|exact Hc|].
    intros w' Hin' Hc'. unfold find_end_word in Hw.
    apply find_split in Hw as (l1 & l2 & Hl & _ & Hl1).
    pose proof (sorted_desc_sorted num_words end_words) as Hs.
    rewrite Hl in Hs.
    assert (Hin2 : In w' (l1 ++ w :: l2)%list)
      by (rewrite <- Hl; apply in_sorted_desc, Hin').
    apply in_app_or in Hin2 as [H1 | [<- | H2]].
    + rewrite (Hl1 _ H1) in Hc'. discriminate.
    + lia.
    + apply (sorted_app_inv _ _ _ _ Hs _ H2).
  - unfold find_end_word. split.
    + intros Hn w Hin. eapply find_none in Hn; [exact Hn|].
      apply in_sorted_desc, Hin.
    + intros Hall.
      destruct (List.find _ _) as [w|] eqn:Hf; [|reflexivity].
      apply find_some in Hf as [Hin Hc].
      rewrite (Hall w) in Hc; [discriminate|]. eapply in_sorted_desc, Hin.
Qed.

(** C4, counterexample: without a vocabulary entry in the response the
    token extraction returns [None], not the middle-of-scale token. *)
Lemma token_extraction_returns_none :
  extract_prediction "no token in this response" "tokens"
    ["Unlikely"; "Very Unlikely"] = Ok VNone
  /\ VNone <> VStr "Slightly Unlikely".
Proof. split; [reflexivity|discriminate]. Qed.

(** C4, as amended: token extraction searches a part at the end of the
    response, in which a phrase of up to 50 characters that ends the
    response is always found.  It tries the entries with more words first:
    the entry it returns belongs to the vocabulary and occurs in the
    searched part, and no entry that occurs there has more words.  It
    returns [None] exactly when no entry occurs in the searched part.  For
    the vocabulary ["Unlikely"; "Very Unlikely"] a response that ends with
    "Very Unlikely" yields "Very Unlikely". *)
Theorem token_extraction_prefers_longer_entries
  (response : string) (end_words : list string) :
  (exists searched skipped token,
     response = skipped ++ searched
     /\ (forall before phrase,
           response = before ++ phrase -> (String.length phrase <= 50)%nat ->
           contains phrase searched = true)
     /\ extract_prediction response "tokens" end_words = Ok (token_val token)
     /\ (forall w, token = Some w ->
           In w end_words
           /\ contains w searched = true
           /\ forall w', In w' end_words -> contains w' searched = true ->
                         (num_words w' <= num_words w)%nat)
     /\ (token = None <->
         forall w, In w end_words -> contains w searched = false))
  /\ extract_prediction (response ++ "Very Unlikely") "tokens"
       ["Unlikely"; "Very Unlikely"]
     = Ok (VStr "Very Unlikely").
Proof.
  split.
  - destruct (window_is_suffix response 50) as [skipped E].
    exists (window response 50), skipped, (find_end_word response end_words 50).
    split; [exact E|]. split.
    { intros before phrase -> Hlen. apply window_holds_suffix, Hlen. }
    split; [reflexivity|]. apply find_end_word_choice.
  - unfold extract_prediction, find_end_word.
    cbn [String.eqb Ascii.eqb Bool.eqb andb].
    change (sorted_desc _ ["Unlikely"; "Very Unlikely"])
      with ["Very Unlikely"; "Unlikely"].
    cbn [List.find]. rewrite window_holds_suffix; [reflexivity|cbn; lia].
Qed.

End TokenFacts.

(** ** Token answers with an averaging method *)

Module TokenAggregation.
Import PyStr StringUtils Ensemble EnsembleFacts EnsembleTokens TokenFacts.

(** the keys of [END_WORDS_TO_PROBS_6], the vocabulary "six_options" of
    config/constants.py *)
Definition six_options : list string :=
  ["No"; "Very Unlikely"; "Unlikely"; "Likely"; "Very Likely"; "Yes"].

Section Tokens.
Variable str_format : string -> list (string * fval) -> outcome string.
Variable get_response_from_model : string -> string -> Q -> outcome string.

Local Abbreviation aggregate :=
  (aggregate_base_reasonings str_format get_response_from_model).

(** the call on the meta path, for token answers and more than one
    reasoning *)
Lemma token_meta_path
  (brs : list (list string)) (question background : string)
  (dates : option (list string)) (criteria info : string)
  (weights : option (list Np.weight)) (end_words : list string)
  (model_name prompt : string) (fields : list string) (temp : Q) (m : string) :
  (1 < List.length (concat brs))%nat ->
  m = "mean" \/ m = "weighted-mean" \/ m = "meta" ->
  aggregate brs question background dates criteria info (Some m)
    "tokens" weights end_words model_name (prompt, fields) temp
  = (if List.length brs =? 0 then ([], Raised "AssertionError")
     else match get_prompt str_format prompt fields
                  (meta_args brs question background dates criteria info)
          with
          | Raised e => ([], Raised e)
          | Ok p =>
              match get_response_from_model model_name p temp with
              | Raised e => ([Completion model_name p], Raised e)
              | Ok resp =>
                  let result v :=
                    {| base_reasonings := brs;
                       base_predictions :=
                         map (map (prediction_of "tokens" end_words)) brs;
                       meta_prediction := v;
                       meta_prompt := Some p;
                       meta_reasoning := Some resp |} in
                  match find_end_word resp end_words 50 with
                  | Some w => ([Completion model_name p], Ok (result (VStr w)))
                  | None =>
                      ([Completion model_name p;
                        Log "debug" "final_answer {} is not valid" [VNone]],
                       Ok (result (VStr "Slightly Unlikely")))
                  end
              end
          end)%nat.
Proof.
  intros Hlen Hmm. unfold aggregate_base_reasonings.
  destruct (List.length brs =? 0)%nat; [reflexivity|].
  rewrite (extract_all_total "tokens" end_words brs (or_intror eq_refl)).
  rewrite concat_map_map.
  unfold meta_args.
  destruct (length_gt_1_not_single _ Hlen) as (a & b & r & ->).
  cbn [map].
  assert (is_method (Some m) "vote-or-median" = false) as ->
    by (destruct Hmm as [-> | [-> | ->]]; reflexivity).
  cbn [String.eqb Ascii.eqb Bool.eqb andb].
  destruct (get_prompt _ _ _ _) as [p|]; [|reflexivity].
  destruct (get_response_from_model _ _ _) as [resp|]; [|reflexivity].
  destruct (find_end_word resp end_words 50) as [w|] eqn:Hw; cbn.
  - apply find_end_word_in in Hw as [Hin _].
    rewrite (is_string_in_list_of_in _ _ Hin). reflexivity.
  - reflexivity.
Qed.

(** C10, as amended: with token answers, the method "mean" or
    "weighted-mean" and more than one base reasoning, no average is taken:
    the call behaves exactly as with the method "meta".  When the meta
    prompt renders and the model answers, a single completion call is
    issued and the result carries the prompt, the response and a token.
    The token is the vocabulary entry found in the response: if the
    response ends with a vocabulary entry (of at most 50 characters), the
    token is an entry of the vocabulary that occurs in the response and has
    at least as many words.  If no vocabulary entry occurs in the response,
    the token is "Slightly Unlikely", in the vocabulary or not, and a debug
    record is logged. *)
Theorem token_average_is_meta
  (brs : list (list string)) (question background : string)
  (dates : option (list string)) (criteria info method : string)
  (weights : option (list Np.weight)) (end_words : list string)
  (model_name prompt : string) (fields : list string) (temp : Q) :
  method = "mean" \/ method = "weighted-mean" ->
  (1 < List.length (concat brs))%nat ->
  aggregate brs question background dates criteria info (Some method)
    "tokens" weights end_words model_name (prompt, fields) temp
  = aggregate brs question background dates criteria info (Some "meta")
      "tokens" weights end_words model_name (prompt, fields) temp
  /\ forall full_prompt response,
       get_prompt str_format prompt fields
         (meta_args brs question background dates criteria info)
       = Ok full_prompt ->
       get_response_from_model model_name full_prompt temp = Ok response ->
       exists token t,
         aggregate brs question background dates criteria info (Some method)
           "tokens" weights end_words model_name (prompt, fields) temp
         = (Completion model_name full_prompt :: t,
            Ok {| base_reasonings := brs;
                  base_predictions :=
                    map (map (prediction_of "tokens" end_words)) brs;
                  meta_prediction := VStr token;
                  meta_prompt := Some full_prompt;
                  meta_reasoning := Some response |})
         /\ calls t = []
         /\ token = default "Slightly Unlikely"
                      (find_end_word response end_words 50)
         /\ (forall before entry,
               In entry end_words -> response = before ++ entry ->
               (String.length entry <= 50)%nat ->
               t = [] /\ In token end_words
               /\ contains token response = true
               /\ (num_words entry <= num_words token)%nat)
         /\ ((forall entry, In entry end_words ->
                contains entry response = false) ->
             token = "Slightly Unlikely"
             /\ t = [Log "debug" "final_answer {} is not valid" [VNone]]).
Proof.
  intros Hm Hlen. split.
  - rewrite (token_meta_path _ _ _ _ _ _ _ _ _ _ _ _ method Hlen) by tauto.
    rewrite (token_meta_path _ _ _ _ _ _ _ _ _ _ _ _ "meta" Hlen) by tauto.
    reflexivity.
  - intros p resp Hp Hr.
    rewrite (token_meta_path _ _ _ _ _ _ _ _ _ _ _ _ method Hlen) by tauto.
    destruct (List.length brs =? 0)%nat eqn:Hl.
    { destruct brs; [cbn in Hlen; lia|discriminate]. }
    rewrite Hp, Hr.
    destruct (find_end_word_choice resp end_words 50) as [Hsome Hnone].
    destruct (window_is_suffix resp 50) as [skipped Hskip].
    destruct (find_end_word resp end_words 50) as [w|] eqn:Hw.
    + destruct (Hsome w eq_refl) as (Hin & Hc & Hmax).
      exists w, []. split; [reflexivity|]. split; [reflexivity|].
      split; [reflexivity|]. split.
      * intros before entry Hentry -> Hshort.
        split; [reflexivity|]. split; [exact Hin|]. split.
        -- rewrite Hskip. apply contains_after, Hc.
        -- apply Hmax; [exact Hentry|]. apply window_holds_suffix, Hshort.
      * intros Hall. exfalso.
        assert (Hc' : contains w resp = true)
          by (rewrite Hskip; apply contains_after, Hc).
        rewrite (Hall w Hin) in Hc'. discriminate.
    + exists "Slightly Unlikely",
        [Log "debug" "final_answer {} is not valid" [VNone]].
      split; [reflexivity|]. split; [reflexivity|]. split; [reflexivity|].
      split; [|auto].
      intros before entry Hentry -> Hshort. exfalso.
      pose proof (proj1 Hnone eq_refl entry Hentry) as Hno.
      rewrite window_holds_suffix in Hno by exact Hshort. discriminate.
Qed.

End Tokens.

Lemma token_average_is_meta_witness :
  let brs := [["It is Likely"]; ["I think Unlikely"]] in
  exists token t,
    aggregate_base_reasonings (fun t _ => Ok t)
      (fun _ _ _ => Ok "So it is Very Likely")
      brs "Q" "" None "" "" (Some "mean") "tokens" None six_options
      "gpt-4" ("meta prompt", []) 0
    = (Completion "gpt-4" "meta prompt" :: t,
       Ok {| base_reasonings := brs;
             base_predictions :=
               map (map (prediction_of "tokens" six_options)) brs;
             meta_prediction := VStr token;
             meta_prompt := Some "meta prompt";
             meta_reasoning := Some "So it is Very Likely" |})
    /\ t = [] /\ In token six_options
    /\ contains token "So it is Very Likely" = true
    /\ (num_words "Very Likely" <= num_words token)%nat.
Proof.
  cbv zeta.
  destruct (proj2 (token_average_is_meta (fun t _ => Ok t)
                     (fun _ _ _ => Ok "So it is Very Likely")
                     [["It is Likely"]; ["I think Unlikely"]] "Q" "" None "" ""
                     "mean" None six_options "gpt-4" "meta prompt" [] 0
                     (or_introl eq_refl) (le_n 2))
              "meta prompt" "So it is Very Likely" eq_refl eq_refl)
    as (token & t & E & _ & _ & Hfound & _).
  exists token, t. split; [exact E|].
  apply (Hfound "So it is " "Very Likely");
    [right; right; right; right; left; reflexivity|reflexivity|cbn; lia].
Defined.

(** C10, counterexample: a meta response without a vocabulary entry.  The
    call with the method "mean" returns "Slightly Unlikely", which is no
    entry of the vocabulary "six_options" and is not read from the
    response. *)
Lemma token_average_returns_default :
  let brs := [["It is Likely"]; ["I think Unlikely"]] in
  aggregate_base_reasonings (fun t _ => Ok t)
    (fun _ _ _ => Ok "I cannot tell.")
    brs "Q" "" None "" "" (Some "mean") "tokens" None six_options
    "gpt-4" ("meta prompt", []) 0
  = ([Completion "gpt-4" "meta prompt";
      Log "debug" "final_answer {} is not valid" [VNone]],
     Ok {| base_reasonings := brs;
           base_predictions := [[VStr "Likely"]; [VStr "Unlikely"]];
           meta_prediction := VStr "Slightly Unlikely";
           meta_prompt := Some "meta prompt";
           meta_reasoning := Some "I cannot tell." |})
  /\ is_string_in_list "Slightly Unlikely" six_options = false
  /\ contains "Slightly Unlikely" "I cannot tell." = false.
Proof. cbv zeta. split; [vm_compute; reflexivity|split; reflexivity]. Qed.

End TokenAggregation.

(** ** Deduplication *)

Module DedupFacts.
Import PyStr InformationRetrieval.

(** the lowercased links and titles of a list of articles *)
Definition low_links (l : list Article) : list string :=
  omap (fun a => lower <$> canonical_link a) l.

Definition low_titles (l : list Article) : list string :=
  omap (fun a => lower <$> title a) l.

(** the state of the loop: the articles kept and the two sets *)
Definition dedup_st : Type := (list Article * gset string * gset string)%type.

Definition dedup_step (article : Article) (st : dedup_st) : dedup_st :=
  let '(unique_articles, unique_urls, unique_titles) := st in
  match title article, canonical_link article with
  | Some t, Some l =>
      if bool_decide (lower l ∉ unique_urls)
         && bool_decide (lower t ∉ unique_titles)
      then ((unique_articles ++ [article])%list,
            {[lower l]} ∪ unique_urls, {[lower t]} ∪ unique_titles)
      else st
  | _, _ => st
  end.

Definition dedup_state (articles : list Article) (st : dedup_st) : dedup_st :=
  foldl (fun st a => dedup_step a st) st articles.

Lemma dedup_loop_state articles : forall acc U T,
  dedup_loop articles acc U T = (dedup_state articles (acc, U, T)).1.1.
Proof.
  induction articles as [|a r IH]; intros acc U T; [reflexivity|].
  cbn [dedup_loop dedup_state foldl dedup_step].
  destruct (title a) as [t|], (canonical_link a) as [l|]; try apply IH.
  destruct (_ && _); apply IH.
Qed.

(** the two sets hold exactly the links and the titles of the kept
    articles *)
Definition consistent (st : dedup_st) : Prop :=
  (forall s, s ∈ st.1.2 <-> s ∈ low_links st.1.1)
  /\ (forall s, s ∈ st.2 <-> s ∈ low_titles st.1.1)
  /\ NoDup (low_links st.1.1) /\ NoDup (low_titles st.1.1).

Lemma low_links_snoc acc a l :
  canonical_link a = Some l -> low_links (acc ++ [a]) = (low_links acc ++ [lower l])%list.
Proof. intros H. unfold low_links. rewrite omap_app. cbn. rewrite H. reflexivity. Qed.

Lemma low_titles_snoc acc a t :
  title a = Some t -> low_titles (acc ++ [a]) = (low_titles acc ++ [lower t])%list.
Proof. intros H. unfold low_titles. rewrite omap_app. cbn. rewrite H. reflexivity. Qed.

Lemma NoDup_snoc (l : list string) x : NoDup l -> x ∉ l -> NoDup (l ++ [x]).
Proof.
  intros Hl Hx. apply NoDup_app. split; [exact Hl|]. split.
  - intros y Hy Hy'. apply list_elem_of_singleton in Hy'. subst. auto.
  - apply NoDup_singleton.
Qed.

Lemma dedup_step_consistent a st : consistent st -> consistent (dedup_step a st).
Proof.
  destruct st as [[acc U] T]. intros Hc.
  destruct Hc as (HU & HT & NU & NT) eqn:Ec. clear Ec. cbn in HU, HT, NU, NT.
  assert (Hsame : consistent (acc, U, T)) by exact (conj HU (conj HT (conj NU NT))).
  unfold dedup_step.
  destruct (title a) as [t|] eqn:Ht, (canonical_link a) as [l|] eqn:Hl;
    try exact Hsame.
  destruct (bool_decide (lower l ∉ U)) eqn:Hbl; cbn [andb]; [|exact Hsame].
  destruct (bool_decide (lower t ∉ T)) eqn:Hbt; [|exact Hsame].
  apply bool_decide_eq_true in Hbl, Hbt.
  unfold consistent. cbn.
  rewrite (low_links_snoc _ _ _ Hl), (low_titles_snoc _ _ _ Ht).
  split; [intros s; split|split; [intros s; split|split]].
  - intros H. apply elem_of_app. apply elem_of_union in H as [H|H].
    + right. apply elem_of_singleton in H. subst. constructor.
    + left. apply HU, H.
  - intros H. apply elem_of_union. apply elem_of_app in H as [H|H].
    + right. apply HU, H.
    + left. apply list_elem_of_singleton in H. subst. apply elem_of_singleton. reflexivity.
  - intros H. apply elem_of_app. apply elem_of_union in H as [H|H].
    + right. apply elem_of_singleton in H. subst. constructor.
    + left. apply HT, H.
  - intros H. apply elem_of_union. apply elem_of_app in H as [H|H].
    + right. apply HT, H.
    + left. apply list_elem_of_singleton in H. subst. apply elem_of_singleton. reflexivity.
  - apply NoDup_snoc; [exact NU|]. rewrite <- HU. exact Hbl.
  - apply NoDup_snoc; [exact NT|]. rewrite <- HT. exact Hbt.
Qed.

Lemma dedup_state_consistent articles : forall st,
  consistent st -> consistent (dedup_state articles st).
Proof.
  induction articles as [|a r IH]; intros st H; [exact H|].
  apply IH, dedup_step_consistent, H.
Qed.

Lemma consistent_init : consistent ([], ∅, ∅).
Proof.
  split; [|split; [|split]]; cbn; try apply NoDup_nil_2.
  - intros s. split; intros H; [set_solver|inversion H].
  - intros s. split; intros H; [set_solver|inversion H].
Qed.

(** the sets only grow *)
Lemma dedup_step_mono a st :
  st.1.2 ⊆ (dedup_step a st).1.2 /\ st.2 ⊆ (dedup_step a st).2.
Proof.
  destruct st as [[acc U] T]. unfold dedup_step.
  destruct (title a), (canonical_link a); cbn; try (split; set_solver).
  destruct (_ && _); cbn; split; set_solver.
Qed.

Lemma dedup_state_mono articles : forall st,
  st.1.2 ⊆ (dedup_state articles st).1.2 /\ st.2 ⊆ (dedup_state articles st).2.
Proof.
  induction articles as [|a r IH]; intros st; [split; done|].
  cbn [dedup_state foldl]. fold (dedup_state r (dedup_step a st)).
  destruct (IH (dedup_step a st)) as [H1 H2].
  destruct (dedup_step_mono a st) as [H3 H4].
  split; etransitivity; eassumption.
Qed.

(** an article met by the loop has its link or its title in the sets *)
Lemma dedup_step_seen a st t l :
  title a = Some t -> canonical_link a = Some l ->
  lower l ∈ (dedup_step a st).1.2 \/ lower t ∈ (dedup_step a st).2.
Proof.
  intros Ht Hl. destruct st as [[acc U] T]. unfold dedup_step.
  rewrite Ht, Hl.
  destruct (bool_decide (lower l ∉ U)) eqn:Hbl; cbn [andb].
  - destruct (bool_decide (lower t ∉ T)) eqn:Hbt; cbn.
    + left. set_solver.
    + right. apply bool_decide_eq_false in Hbt.
      destruct (decide (lower t ∈ T)); tauto.
  - left. cbn. apply bool_decide_eq_false in Hbl.
    destruct (decide (lower l ∈ U)); tauto.
Qed.

Lemma dedup_state_seen articles : forall st b t l,
  In b articles -> title b = Some t -> canonical_link b = Some l ->
  lower l ∈ (dedup_state articles st).1.2
  \/ lower t ∈ (dedup_state articles st).2.
Proof.
  induction articles as [|a r IH]; intros st b t l Hin Ht Hl; [destruct Hin|].
  cbn [dedup_state foldl]. fold (dedup_state r (dedup_step a st)).
  destruct Hin as [-> | Hin].
  - destruct (dedup_step_seen b st t l Ht Hl) as [H|H];
      destruct (dedup_state_mono r (dedup_step b st)) as [H1 H2];
      [left|right]; set_solver.
  - eapply IH; eassumption.
Qed.

Lemma deduplicate_snoc pre a :
  deduplicate_articles (pre ++ [a])
  = (dedup_step a (dedup_state pre ([], ∅, ∅))).1.1.
Proof.
  unfold deduplicate_articles. rewrite dedup_loop_state.
  unfold dedup_state. rewrite foldl_app. reflexivity.
Qed.

(** C3, counterexample: the second article has the link of the first one but
    another title, so its key pair is new; it is dropped all the same. *)
Lemma dedup_drops_article_with_new_key :
  let first := sample_article "Storm hits coast" "http://news/1" None in
  let second := sample_article "Markets rally" "http://news/1" None in
  deduplicate_articles [first; second] = [first]
  /\ (lower "http://news/1", lower "Markets rally")
     <> (lower "http://news/1", lower "Storm hits coast").
Proof. split; [vm_compute; reflexivity|discriminate]. Qed.

(** C3, as amended: an article with string link and title is retained if
    and only if neither its lowercased link nor its lowercased title is
    that of an article retained before it.  Hence an article whose key pair
    equals the key of an earlier article is always dropped, and the retained
    articles have pairwise distinct lowercased links and pairwise distinct
    lowercased titles. *)
Theorem dedup_keeps_new_link_and_title
  (pre : list Article) (a : Article) (t l : string) :
  title a = Some t ->
  canonical_link a = Some l ->
  let kept := deduplicate_articles pre in
  deduplicate_articles (pre ++ [a])
  = (if bool_decide ((lower l ∉ low_links kept) /\ (lower t ∉ low_titles kept))
     then kept ++ [a] else kept)%list
  /\ (forall b tb lb,
        In b pre -> title b = Some tb -> canonical_link b = Some lb ->
        (lower lb, lower tb) = (lower l, lower t) ->
        deduplicate_articles (pre ++ [a]) = kept)
  /\ NoDup (low_links kept) /\ NoDup (low_titles kept).
Proof.
  intros Ht Hl kept.
  pose proof (dedup_state_consistent pre _ consistent_init) as Hc.
  assert (Hk : kept = (dedup_state pre ([], ∅, ∅)).1.1).
  { unfold kept, deduplicate_articles. apply dedup_loop_state. }
  destruct (dedup_state pre ([], ∅, ∅)) as [[acc U] T] eqn:Hst.
  cbn in Hk. subst acc. destruct Hc as (HU & HT & NU & NT). cbn in HU, HT, NU, NT.
  assert (Hsn : deduplicate_articles (pre ++ [a])
                = if bool_decide ((lower l ∉ low_links kept)
                                  /\ (lower t ∉ low_titles kept))
                  then (kept ++ [a])%list else kept).
  { rewrite deduplicate_snoc, Hst. unfold dedup_step. rewrite Ht, Hl.
    destruct (bool_decide (lower l ∉ U)) eqn:Hbl;
      destruct (bool_decide (lower t ∉ T)) eqn:Hbt; cbn [andb].
    - apply bool_decide_eq_true in Hbl, Hbt.
      rewrite bool_decide_eq_true_2; [reflexivity|].
      rewrite <- HU, <- HT. tauto.
    - apply bool_decide_eq_false in Hbt.
      rewrite bool_decide_eq_false_2; [reflexivity|].
      rewrite <- HU, <- HT. tauto.
    - apply bool_decide_eq_false in Hbl.
      rewrite bool_decide_eq_false_2; [reflexivity|].
      rewrite <- HU, <- HT. tauto.
    - apply bool_decide_eq_false in Hbl.
      rewrite bool_decide_eq_false_2; [reflexivity|].
      rewrite <- HU, <- HT. tauto. }
  split; [exact Hsn|]. split; [|split; assumption].
  intros b tb lb Hin Htb Hlb [= El Et]. rewrite Hsn.
  rewrite bool_decide_eq_false_2; [reflexivity|].
  pose proof (dedup_state_seen pre ([], ∅, ∅) b tb lb Hin Htb Hlb) as Hs.
  rewrite Hst in Hs. cbn in Hs. rewrite El, Et in Hs.
  rewrite <- HU, <- HT. tauto.
Qed.

Lemma dedup_keeps_new_link_and_title_witness :
  let first := sample_article "Storm hits coast" "http://news/1" None in
  let copy := sample_article "STORM HITS COAST" "HTTP://news/1" None in
  deduplicate_articles ([first] ++ [copy]) = [first].
Proof.
  exact (proj1 (dedup_keeps_new_link_and_title
                  [sample_article "Storm hits coast" "http://news/1" None]
                  (sample_article "STORM HITS COAST" "HTTP://news/1" None)
                  "STORM HITS COAST" "HTTP://news/1" eq_refl eq_refl)).
Defined.

End DedupFacts.

(** ** Validation of the date range *)

Module DateRangeFacts.
Import PyStr TimeUtils InformationRetrieval.

Lemma not_more_recent d0 d1 first second :
  strptime_ymd d0 = Some first ->
  strptime_ymd d1 = Some second ->
  dt_leb second first = true ->
  is_more_recent d0 d1 false = Ok false.
Proof.
  intros H0 H1 Hle. unfold is_more_recent. rewrite H0, H1.
  unfold dt_leb in Hle. unfold dt_ltb.
  apply Z.leb_le in Hle. f_equal. apply Z.ltb_ge. exact Hle.
Qed.

Section Sources.
Variable NEWSCASTCHER_KEY : string.
Variable IRRETRIEVABLE_SITES : list string.
Variable py_int : string -> outcome Z.
Variable newscatcher_get_search :
  string -> Z -> string -> string -> Z -> outcome nc_response.
Variable gnews_get_news :
  string -> Z * Z * Z -> Z * Z * Z -> Z -> outcome (list (option gn_raw)).
Variable gnews_get_full_article : string -> outcome (option Article).

(** C6: when both dates parse and the end date is not strictly after the
    start date, the entry point and the two fetchers return the empty list;
    they do not raise, and their trace holds one error record of the log
    and no call to a provider. *)
Theorem invalid_date_range_returns_nothing
  (d0 d1 : string) (first second : datetime)
  (queries_gnews queries_nc : option (list string))
  (search_terms : list string)
  (num_articles max_results length_threshold to_rank : Z) :
  strptime_ymd d0 = Some first ->
  strptime_ymd d1 = Some second ->
  dt_leb second first = true ->
  get_articles_from_all_sources NEWSCASTCHER_KEY IRRETRIEVABLE_SITES py_int
    newscatcher_get_search gnews_get_news gnews_get_full_article
    queries_gnews queries_nc [d0; d1] num_articles length_threshold
  = ([date_error d0 d1], Ok [])
  /\ get_gnews_articles IRRETRIEVABLE_SITES py_int gnews_get_news
       search_terms [d0; d1] max_results
     = ([date_error d0 d1], Ok [])
  /\ get_newscatcher_articles NEWSCASTCHER_KEY newscatcher_get_search
       search_terms [d0; d1] num_articles max_results length_threshold to_rank
     = ([if String.eqb NEWSCASTCHER_KEY ""
         then Log "error" "Skipping Newscatcher since no key is set." []
         else date_error d0 d1], Ok [])
  /\ calls [date_error d0 d1] = []
  /\ calls [Log "error" "Skipping Newscatcher since no key is set." []] = [].
Proof.
  intros H0 H1 Hle.
  pose proof (not_more_recent d0 d1 first second H0 H1 Hle) as Hr.
  repeat split.
  - unfold get_articles_from_all_sources. cbn. rewrite Hr. reflexivity.
  - unfold get_gnews_articles. cbn. rewrite Hr. reflexivity.
  - unfold get_newscatcher_articles.
    destruct (String.eqb NEWSCASTCHER_KEY ""); [reflexivity|].
    cbn. rewrite Hr. reflexivity.
Qed.

End Sources.

(** a valid range does reach the provider: the guard is what keeps the
    calls away in the theorem above *)
Example valid_range_calls_provider :
  calls (get_gnews_articles [] (fun _ => Ok 0%Z) (fun _ _ _ _ => Ok [])
           ["storm"] ["2024-01-01"; "2024-01-31"] 5).1
  = [Search "gnews" "storm" "2024-01-01" "2024-01-31"].
Proof. reflexivity. Qed.

Lemma invalid_date_range_returns_nothing_witness :
  get_articles_from_all_sources "key" [] (fun _ => Ok 0%Z)
    (fun _ _ _ _ _ => Raised "Timeout") (fun _ _ _ _ => Ok [])
    (fun _ => Ok None) (Some ["storm"]) (Some ["storm"])
    ["2024-01-31"; "2024-01-31"] 5 200
  = ([date_error "2024-01-31" "2024-01-31"], Ok []).
Proof.
  exact (proj1 (invalid_date_range_returns_nothing "key" [] (fun _ => Ok 0%Z)
                  (fun _ _ _ _ _ => Raised "Timeout") (fun _ _ _ _ => Ok [])
                  (fun _ => Ok None) "2024-01-31" "2024-01-31"
                  {| year := 2024; month := 1; day := 31; tod := 0 |}
                  {| year := 2024; month := 1; day := 31; tod := 0 |}
                  (Some ["storm"]) (Some ["storm"]) ["storm"] 5 20 200 10000
                  eq_refl eq_refl eq_refl)).
Defined.

End DateRangeFacts.


(** ** Recursive summarization *)

Module SummarizeFacts.
Import PyStr StringUtils ModelUtils Summarize.
Local Open Scope Q_scope.

(** every token count is a whole number of thirds *)
Lemma count_tokens_thirds tiktoken_len text model_name q :
  count_tokens tiktoken_len text model_name = Ok q ->
  exists n : nat, q == Z.of_nat n # 3.
Proof.
  unfold count_tokens. destruct (infer_model_source model_name) as [src|]; cbn;
    [|discriminate].
  destruct (String.eqb src OAI_SOURCE).
  - destruct (tiktoken_len model_name text) as [n|]; cbn; [|discriminate].
    intros [= <-]. exists (3 * n)%nat. unfold Qeq, inject_Z. cbn. lia.
  - intros [= <-]. exists (String.length text). reflexivity.
Qed.

Section Fuel.
Variable tiktoken_len : string -> string -> outcome nat.
Variable str_format : string -> list (string * fval) -> outcome string.
Variable get_response_from_model :
  string -> string -> option Z -> outcome string.
Variables model_name prompt : string.
Variable output_token_length : option Z.
Variable temperature : Q.

Local Abbreviation rs fuel text :=
  (recursive_summarize tiktoken_len str_format get_response_from_model fuel
     text model_name prompt output_token_length temperature).
Local Abbreviation once text :=
  (summarize_once str_format get_response_from_model text model_name prompt
     output_token_length).
Local Abbreviation split text limit :=
  (split_text_into_chunks tiktoken_len text model_name limit).

(** more fuel does not change a result *)
Lemma summarize_chunks_mono (rec rec' : string -> option (traced string)) chunks r :
  (forall c x, rec c = Some x -> rec' c = Some x) ->
  summarize_chunks rec chunks = Some r ->
  summarize_chunks rec' chunks = Some r.
Proof.
  intros Hrec. revert r. induction chunks as [|c l IH]; intros r; [trivial|].
  cbn [summarize_chunks].
  destruct (rec c) as [[t [s|e]]|] eqn:Hc; [| |discriminate];
    rewrite (Hrec _ _ Hc); [|trivial].
  destruct (summarize_chunks rec l) as [[t' [ss|e]]|] eqn:Hl; [| |discriminate];
    rewrite (IH _ eq_refl); trivial.
Qed.

(** one step of the recursion *)
Lemma rs_unfold fuel text :
  rs (S fuel) text
  = match count_tokens tiktoken_len text model_name with
    | Raised e => Some ([], Raised e)
    | Ok total_tokens =>
        let log :=
          Log "info" "Total number of tokens of the given text: {}"
            [VFloat total_tokens] in
        match lookup model_name MODEL_TOKEN_LIMITS with
        | None => Some ([log], Raised "KeyError")
        | Some limit =>
            if Qle_bool total_tokens (inject_Z limit)
            then Some (_ ← emit log; once text)
            else
              match split text (inject_Z (limit - 1000)) with
              | Raised e => Some ([log], Raised e)
              | Ok chunks =>
                  match summarize_chunks (fun chunk => rs fuel chunk) chunks with
                  | None => None
                  | Some (t, Raised e) => Some (log :: t, Raised e)
                  | Some (t, Ok summarized_chunks) =>
                      match rs fuel (join " " summarized_chunks) with
                      | None => None
                      | Some (t', r) => Some (log :: (t ++ t')%list, r)
                      end
                  end
              end
        end
    end.
Proof. reflexivity. Qed.

Lemma rs_mono_step fuel : forall text r,
  rs fuel text = Some r -> rs (S fuel) text = Some r.
Proof.
  induction fuel as [|f IH]; intros text r; [discriminate|].
  intros H. rewrite rs_unfold in H. rewrite (rs_unfold (S f)).
  destruct (count_tokens tiktoken_len text model_name) as [q|]; [|exact H].
  cbv zeta in H |- *.
  destruct (lookup model_name MODEL_TOKEN_LIMITS) as [limit|]; [|exact H].
  destruct (Qle_bool q (inject_Z limit)); [exact H|].
  destruct (split text (inject_Z (limit - 1000))) as [chunks|]; [|exact H].
  destruct (summarize_chunks (fun chunk => rs f chunk) chunks)
    as [[t [ss|e]]|] eqn:Hc; [| |discriminate].
  - rewrite (summarize_chunks_mono _ (fun chunk => rs (S f) chunk) _ _ IH Hc).
    destruct (rs f (join " " ss)) as [[t' r']|] eqn:Hj; [|discriminate].
    rewrite (IH _ _ Hj). exact H.
  - rewrite (summarize_chunks_mono _ (fun chunk => rs (S f) chunk) _ _ IH Hc).
    exact H.
Qed.

Lemma rs_mono fuel fuel' text r :
  (fuel <= fuel')%nat -> rs fuel text = Some r -> rs fuel' text = Some r.
Proof.
  induction 1 as [|m Hle IH]; [trivial|].
  intros H. apply rs_mono_step, IH, H.
Qed.

End Fuel.

(** *** A word that is over the limit *)

Definition llama : string := "togethercomputer/llama-2-7b-chat".

(** a tokenizer that is never consulted for this model, a template rendered
    as it is, and a summarizer with a constant answer *)
Definition no_tiktoken : string -> string -> outcome nat := fun _ _ => Ok 0%nat.
Definition plain_format : string -> list (string * fval) -> outcome string :=
  fun template _ => Ok template.
Definition empty_summary : string -> string -> option Z -> outcome string :=
  fun _ _ _ => Ok "".

(** one word of 12289 characters: 4096 tokens and a third *)
Definition long_word : string := times "a" (Z.to_nat 12289).

Lemma llama_limit : lookup llama MODEL_TOKEN_LIMITS = Some 4096%Z.
Proof. reflexivity. Qed.

Lemma llama_count text :
  count_tokens no_tiktoken text llama = Ok (Z.of_nat (String.length text) # 3).
Proof. reflexivity. Qed.

Lemma long_word_length : String.length long_word = Z.to_nat 12289.
Proof. vm_compute. reflexivity. Qed.

Lemma long_word_chunks :
  split_text_into_chunks no_tiktoken long_word llama (inject_Z (4096 - 1000))
  = Ok [""; long_word].
Proof. vm_compute. reflexivity. Qed.

Lemma empty_text_summarized fuel :
  exists tr,
    recursive_summarize no_tiktoken plain_format empty_summary (S fuel) ""
      llama "{article}" None 0 = Some (tr, Ok "").
Proof. eexists. rewrite rs_unfold. reflexivity. Qed.

(** A text the splitter cannot cut: the summarizer answers with the empty
    text, which has fewer tokens than any text over the limit, yet on a
    single word of 12289 characters (more than the 4096 tokens of the model)
    the recursion never returns. The word is split into the chunks [""] and
    the word itself, against the docstring of [split_text_into_chunks]
    (each chunk below the token limit), and the call on the word starts
    over. *)
Lemma recursive_summarize_loops_on_long_word :
  (forall model prompt max_tokens,
     empty_summary model prompt max_tokens = Ok ""
     /\ count_tokens no_tiktoken "" llama = Ok (0 # 3))
  /\ count_tokens no_tiktoken long_word llama = Ok (12289 # 3)
  /\ Qle_bool (12289 # 3) (inject_Z 4096) = false
  /\ forall fuel,
       recursive_summarize no_tiktoken plain_format empty_summary fuel
         long_word llama "{article}" None 0 = None.
Proof.
  split; [intros; split; reflexivity|].
  assert (Hc : count_tokens no_tiktoken long_word llama = Ok (12289 # 3)).
  { rewrite llama_count, long_word_length. reflexivity. }
  split; [exact Hc|]. split; [reflexivity|].
  induction fuel as [|fuel IH]; [reflexivity|].
  rewrite rs_unfold, Hc. cbv zeta. rewrite llama_limit.
  change (Qle_bool (12289 # 3) (inject_Z 4096)) with false. cbv iota.
  rewrite long_word_chunks. cbn [summarize_chunks].
  destruct fuel as [|fuel]; [reflexivity|].
  destruct (empty_text_summarized fuel) as [tr ->].
  rewrite IH. reflexivity.
Qed.

(** *** More passes than the logarithm *)

(** [prompt.format(article=text)] for the prompt ["{article}"] *)
Definition article_format : string -> list (string * fval) -> outcome string :=
  fun template args =>
    match args with
    | (_, FStr text) :: _ => Ok text
    | _ => Ok template
    end.

(** a summarizer that leaves out the first 1000 characters of what it reads *)
Definition trim_summary : string -> string -> option Z -> outcome string :=
  fun _ prompt _ => Ok (drop (Z.to_nat 1000) prompt).

(** three words, 24576 characters in all: twice the 4096 tokens of the model *)
Definition three_words : string :=
  times "a" (Z.to_nat 8191) ++ " " ++ times "a" (Z.to_nat 8191) ++ " "
    ++ times "a" (Z.to_nat 8192).

Definition summary_length (r : option (traced string)) : option nat :=
  match r with
  | Some (_, Ok out) => Some (String.length out)
  | _ => None
  end.

Lemma drop_shorter n s :
  (0 < n)%nat -> (0 < String.length s)%nat ->
  (String.length (drop n s) < String.length s)%nat.
Proof.
  revert s. induction n as [|n IH]; intros [|c s] Hn Hs; cbn in *; try lia.
  destruct n as [|n]; [cbn; lia|].
  destruct s as [|c' s]; [cbn; lia|].
  specialize (IH (String c' s) ltac:(lia) ltac:(cbn; lia)). lia.
Qed.

(** The number of passes is not logarithmic: every answer of the
    summarizer is strictly shorter than what it was given, and the text
    has 8192 tokens, twice the limit of 4096, so that a bound of
    ceil(log 8192 / log 4096) passes would be 2 (4096 < 8192 <= 4096^2).
    The call returns a summary, but not within a
    recursion depth of 5: the text is split, summarized and joined five
    times over (24576, 21576, 18576, 15576 and 12576 characters) before
    the joined summaries fit the limit. *)
Lemma recursive_summarize_exceeds_log_bound :
  (forall model prompt max_tokens,
     (0 < String.length prompt)%nat ->
     exists s, trim_summary model prompt max_tokens = Ok s
               /\ (String.length s < String.length prompt)%nat)
  /\ count_tokens no_tiktoken three_words llama = Ok (24576 # 3)
  /\ (24576 # 3 == inject_Z (2 * 4096))%Q
  /\ lookup llama MODEL_TOKEN_LIMITS = Some 4096%Z
  /\ (4096 ^ 1 < 2 * 4096 <= 4096 ^ 2)%Z
  /\ (forall fuel, (fuel <= 5)%nat ->
        recursive_summarize no_tiktoken article_format trim_summary fuel
          three_words llama "{article}" None 0 = None)
  /\ summary_length
       (recursive_summarize no_tiktoken article_format trim_summary 6
          three_words llama "{article}" None 0) = Some (Z.to_nat 9576).
Proof.
  split.
  { intros model prompt max_tokens Hp. eexists. split; [reflexivity|].
    apply drop_shorter; [vm_compute|]; lia. }
  split; [vm_compute; reflexivity|].
  split; [reflexivity|]. split; [reflexivity|]. split; [lia|].
  split.
  - intros fuel Hf.
    destruct (recursive_summarize no_tiktoken article_format trim_summary fuel
                three_words llama "{article}" None 0) as [r|] eqn:E;
      [|reflexivity].
    apply (rs_mono _ _ _ _ _ _ _ fuel 5) in E; [|exact Hf].
    revert E. vm_compute. discriminate.
  - vm_compute. reflexivity.
Qed.

End SummarizeFacts.

(** * Further properties of the code *)

(** ** The range of an extracted probability *)

Module ExtractionLaws.
Import PyStr StringUtils Ensemble.
Local Open Scope Q_scope.

(** X1: for the answer type "probability" the extraction never fails and
    never returns [None]: it yields a float between 0 and 1, whatever the
    response holds (numbers above 1, several numbers, no number at all). *)
Theorem probability_extraction_in_unit_interval
  (response : string) (end_words : list string) :
  exists q,
    extract_prediction response "probability" end_words = Ok (VFloat q)
    /\ q == extract_probability_with_stars response
    /\ 0 <= q /\ q <= 1.
Proof.
  exists (extract_probability_with_stars response).
  split; [reflexivity|]. split; [reflexivity|].
  apply ProbabilityRange.extract_probability_in_unit.
Qed.

End ExtractionLaws.

(** ** The aggregate of at least one probability *)

Module AggregationLaws.
Import PyStr StringUtils Ensemble.
Local Open Scope Q_scope.

(** X2: when the groups hold at least one reasoning and no array of
    weights is in use (the method is not "weighted-mean", or no weights
    are given), every result that [aggregate_base_reasonings] returns for
    the answer type "probability" carries a float between 0 and 1 as
    [meta_prediction], for the methods mean, vote-or-median and meta and
    for the weighted mean without weights. *)
Theorem probability_aggregate_in_unit_interval
  (str_format : string -> list (string * fval) -> outcome string)
  (get_response_from_model : string -> string -> Q -> outcome string)
  (brs : list (list string)) (question background : string)
  (dates : option (list string)) (criteria info : string)
  (method : option string) (weights : option (list Np.weight))
  (end_words : list string) (model_name : string)
  (template : string * list string) (temp : Q)
  (t : list event) (r : aggregation) :
  concat brs <> [] ->
  (method = Some "weighted-mean" -> weights = None) ->
  aggregate_base_reasonings str_format get_response_from_model brs question
    background dates criteria info method "probability" weights end_words
    model_name template temp = (t, Ok r) ->
  exists q, meta_prediction r = VFloat q /\ 0 <= q /\ q <= 1.
Proof.
  intros Hne Hw. apply EnsembleClamp.aggregate_probability_in_unit; [exact Hne|].
  intros Hm. apply Hw. destruct method as [m|]; [|discriminate].
  cbn in Hm. apply String.eqb_eq in Hm. congruence.
Qed.

Lemma probability_aggregate_in_unit_interval_witness :
  exists q, VFloat (900 # 2000) = VFloat q /\ 0 <= q /\ q <= 1.
Proof.
  exact (probability_aggregate_in_unit_interval
           (fun template _ => Ok template) (fun _ _ _ => Ok "*0.4*")
           [["I settle on *0.3*"]; ["My answer: *60%*"]]
           "Will it rain?" "" None "" "" (Some "vote-or-median")
           (Some [Np.NotANumber; Np.Finite 1]) [] "gpt-4"
           ("{question}", ["QUESTION"]) 0 []
           {| base_reasonings := [["I settle on *0.3*"]; ["My answer: *60%*"]];
              base_predictions := [[VFloat (3 # 10)]; [VFloat (60 # 100)]];
              meta_prediction := VFloat (900 # 2000);
              meta_prompt := None; meta_reasoning := None |}
           ltac:(discriminate) ltac:(discriminate)
           ltac:(vm_compute; reflexivity)).
Defined.

End AggregationLaws.

(** ** Deduplication keeps a duplicate-free sublist *)

Module DedupLaws.
Import PyStr InformationRetrieval DedupFacts.

(** the title and the link of the article are both strings *)
Definition has_strings (a : Article) : Prop :=
  is_Some (title a) /\ is_Some (canonical_link a).

Lemma dedup_loop_sublist articles : forall acc U T,
  exists kept,
    dedup_loop articles acc U T = (acc ++ kept)%list
    /\ kept `sublist_of` articles
    /\ Forall has_strings kept.
Proof.
  induction articles as [|a r IH]; intros acc U T; cbn [dedup_loop].
  - exists []. rewrite app_nil_r. repeat split; constructor.
  - assert (Hskip : exists kept,
               dedup_loop r acc U T = (acc ++ kept)%list
               /\ kept `sublist_of` a :: r /\ Forall has_strings kept).
    { destruct (IH acc U T) as (k & E & S & F).
      exists k. split; [exact E|]. split; [constructor; exact S|exact F]. }
    destruct (title a) as [t|] eqn:Ht; [|exact Hskip].
    destruct (canonical_link a) as [l|] eqn:Hl; [|exact Hskip].
    destruct (_ && _); [|exact Hskip].
    destruct (IH (acc ++ [a])%list ({[lower l]} ∪ U) ({[lower t]} ∪ T))
      as (k & E & S & F).
    exists (a :: k). split; [rewrite E, <- app_assoc; reflexivity|].
    split; [constructor; exact S|].
    constructor; [|exact F]. split; [rewrite Ht|rewrite Hl]; eexists; reflexivity.
Qed.

Lemma dedup_loop_fresh kept : forall acc (U T : gset string),
  Forall has_strings kept ->
  NoDup (low_links kept) -> NoDup (low_titles kept) ->
  (forall s, s ∈ low_links kept -> s ∉ U) ->
  (forall s, s ∈ low_titles kept -> s ∉ T) ->
  dedup_loop kept acc U T = (acc ++ kept)%list.
Proof.
  induction kept as [|a r IH]; intros acc U T Hs NL NT HU HT; cbn [dedup_loop].
  - rewrite app_nil_r. reflexivity.
  - apply Forall_cons in Hs as [[[t Ht] [l Hl]] Hs].
    unfold low_links, low_titles in NL, NT, HU, HT. cbn in NL, NT, HU, HT.
    rewrite Ht, Hl in *. cbn in NL, NT, HU, HT.
    apply NoDup_cons in NL as [Hl' NL]. apply NoDup_cons in NT as [Ht' NT].
    rewrite !bool_decide_eq_true_2; cbn [andb].
    + rewrite IH; [rewrite <- app_assoc; reflexivity|assumption..| |].
      * intros s Hin Hs'. apply elem_of_union in Hs' as [Hs'|Hs'].
        -- apply elem_of_singleton in Hs'. subst s. exact (Hl' Hin).
        -- apply (HU s); [right; exact Hin|exact Hs'].
      * intros s Hin Hs'. apply elem_of_union in Hs' as [Hs'|Hs'].
        -- apply elem_of_singleton in Hs'. subst s. exact (Ht' Hin).
        -- apply (HT s); [right; exact Hin|exact Hs'].
    + apply HT. left.
    + apply HU. left.
Qed.

Lemma dedup_nodup articles :
  NoDup (low_links (deduplicate_articles articles))
  /\ NoDup (low_titles (deduplicate_articles articles)).
Proof.
  pose proof (dedup_state_consistent articles _ consistent_init) as Hc.
  unfold deduplicate_articles. rewrite dedup_loop_state.
  destruct Hc as (_ & _ & NL & NT). split; assumption.
Qed.

(** X3: the articles that [deduplicate_articles] returns are articles of
    the input, in the order of the input, each at most as often as it
    occurs there; every one of them has a string title and a string link
    (an article whose title or link is not a string is dropped), and the
    first article of the input is returned whenever it has both. *)
Theorem dedup_returns_sublist_of_input (articles : list Article) :
  deduplicate_articles articles `sublist_of` articles
  /\ Forall has_strings (deduplicate_articles articles)
  /\ (forall a r, articles = a :: r -> has_strings a ->
        exists k, deduplicate_articles articles = a :: k).
Proof.
  unfold deduplicate_articles.
  destruct (dedup_loop_sublist articles [] ∅ ∅) as (k & E & S & F).
  rewrite E. cbn [app]. split; [exact S|]. split; [exact F|].
  intros a r -> [[t Ht] [l Hl]]. cbn [dedup_loop] in E. rewrite Ht, Hl in E.
  rewrite !bool_decide_eq_true_2 in E by set_solver. cbn [andb] in E.
  destruct (dedup_loop_sublist r ([] ++ [a])%list ({[lower l]} ∪ ∅)
              ({[lower t]} ∪ ∅)) as (k' & E' & _).
  rewrite E' in E. exists k'. symmetry. exact E.
Qed.

(** X4: deduplication is idempotent: a list that was deduplicated is
    returned unchanged by a second pass. *)
Theorem dedup_is_idempotent (articles : list Article) :
  deduplicate_articles (deduplicate_articles articles)
  = deduplicate_articles articles.
Proof.
  destruct (dedup_nodup articles) as [NL NT].
  destruct (dedup_loop_sublist articles [] ∅ ∅) as (k & E & _ & F).
  fold (deduplicate_articles articles) in E. cbn [app] in E.
  rewrite E in NL, NT |- *.
  unfold deduplicate_articles at 1.
  rewrite dedup_loop_fresh; [reflexivity|assumption..| |]; set_solver.
Qed.

End DedupLaws.

(** ** The most frequent item *)

Module FrequencyLaws.
Import Utils.

Lemma best_of_spec lst cands : forall pre best mid,
  (forall y, In y pre -> (count_of y lst < count_of best lst)%nat) ->
  (forall y, In y mid -> (count_of y lst <= count_of best lst)%nat) ->
  exists l1 l2,
    (pre ++ best :: mid ++ cands = l1 ++ best_of lst cands best :: l2)%list
    /\ (forall y, In y l1 ->
          (count_of y lst < count_of (best_of lst cands best) lst)%nat)
    /\ (forall y, In y l2 ->
          (count_of y lst <= count_of (best_of lst cands best) lst)%nat).
Proof.
  induction cands as [|c r IH]; intros pre best mid Hpre Hmid; cbn [best_of].
  - exists pre, mid. rewrite app_nil_r. auto.
  - destruct (count_of best lst <? count_of c lst)%nat eqn:Hlt.
    + apply Nat.ltb_lt in Hlt.
      destruct (IH (pre ++ best :: mid)%list c []) as (l1 & l2 & E & H1 & H2).
      * intros y Hy. apply in_app_or in Hy as [Hy|[<-|Hy]].
        -- specialize (Hpre y Hy). lia.
        -- exact Hlt.
        -- specialize (Hmid y Hy). lia.
      * intros y [].
      * exists l1, l2. split; [|auto]. rewrite <- E, <- app_assoc. reflexivity.
    + apply Nat.ltb_ge in Hlt.
      destruct (IH pre best (mid ++ [c])%list) as (l1 & l2 & E & H1 & H2).
      * exact Hpre.
      * intros y Hy. apply in_app_or in Hy as [Hy|[<-|[]]]; auto.
      * exists l1, l2. split; [|auto]. rewrite <- E, <- app_assoc. reflexivity.
Qed.

(** X5: on a non-empty list [most_frequent_item] returns an item of the
    list that no other item outnumbers, and among the items of highest
    count the one that occurs first: every item before its first
    occurrence has a strictly smaller count.  The empty list gives
    [None]. *)
Theorem most_frequent_item_is_first_maximum (lst : list pyval) :
  most_frequent_item [] = VNone
  /\ (lst <> [] ->
      exists l1 l2,
        lst = (l1 ++ most_frequent_item lst :: l2)%list
        /\ (forall y, In y l1 ->
              (count_of y lst < count_of (most_frequent_item lst) lst)%nat)
        /\ (forall y, In y lst ->
              (count_of y lst <= count_of (most_frequent_item lst) lst)%nat)).
Proof.
  split; [reflexivity|]. intros Hne.
  destruct lst as [|x r]; [congruence|]. cbn [most_frequent_item].
  destruct (best_of_spec (x :: r) r [] x []) as (l1 & l2 & E & H1 & H2);
    [intros y []..|].
  cbn [app] in E. exists l1, l2. split; [exact E|]. split; [exact H1|].
  intros y Hy. rewrite E in Hy at 1.
  apply in_app_or in Hy as [Hy|[<-|Hy]]; [specialize (H1 y Hy); lia|lia|auto].
Qed.

Lemma most_frequent_item_is_first_maximum_witness :
  exists l1 l2,
    [VStr "Likely"; VStr "Unlikely"; VStr "Unlikely"; VStr "Likely"]
    = (l1 ++ VStr "Likely" :: l2)%list
    /\ (forall y, In y l1 -> (count_of y [VStr "Likely"; VStr "Unlikely";
                                           VStr "Unlikely"; VStr "Likely"]
                              < 2)%nat)
    /\ (forall y, In y [VStr "Likely"; VStr "Unlikely"; VStr "Unlikely";
                        VStr "Likely"] ->
          (count_of y [VStr "Likely"; VStr "Unlikely"; VStr "Unlikely";
                       VStr "Likely"] <= 2)%nat).
Proof.
  exact (proj2 (most_frequent_item_is_first_maximum
                  [VStr "Likely"; VStr "Unlikely"; VStr "Unlikely";
                   VStr "Likely"]) ltac:(discriminate)).
Defined.

End FrequencyLaws.

(** ** Sorting and filtering the rated articles *)

Module SortLaws.
Import PyStr TimeUtils InformationRetrieval Ranking.

(** *** the stable descending sort *)

Section Sort.
Context {A : Type}.
Variable lt : A -> A -> bool.
(** the elements that are sorted, and the order on them *)
Variable P : A -> Prop.
Variable R : A -> A -> Prop.
Hypothesis lt_true : forall x y, P x -> P y -> lt x y = true -> R y x.
Hypothesis lt_false : forall x y, P x -> P y -> lt x y = false -> R x y.
Hypothesis R_trans : forall x y z, P x -> P y -> P z -> R x y -> R y z -> R x z.

Lemma insert_desc_perm x l : insert_desc lt x l ≡ₚ x :: l.
Proof.
  induction l as [|y r IH]; cbn [insert_desc]; [reflexivity|].
  destruct (lt x y); [|reflexivity].
  rewrite IH. apply Permutation_swap.
Qed.

Lemma sorted_desc_perm l : sorted_desc lt l ≡ₚ l.
Proof.
  unfold sorted_desc. induction l as [|x r IH]; cbn [foldr]; [reflexivity|].
  rewrite insert_desc_perm, IH. reflexivity.
Qed.

Lemma insert_desc_ranked x l :
  P x -> Forall P l -> StronglySorted R l ->
  StronglySorted R (insert_desc lt x l).
Proof.
  intros Px Pl Hs. induction Hs as [|y r Hr IH Hy]; cbn [insert_desc].
  - repeat constructor.
  - apply Forall_cons in Pl as [Py Pr].
    destruct (lt x y) eqn:Hlt.
    + constructor; [apply IH, Pr|].
      rewrite insert_desc_perm. constructor; [|exact Hy].
      apply lt_true; assumption.
    + constructor; [constructor; assumption|].
      pose proof (lt_false x y Px Py Hlt) as Hxy.
      constructor; [exact Hxy|].
      rewrite Forall_forall in Hy, Pr |- *. intros z Hz.
      apply (R_trans x y z); auto.
Qed.

Lemma sorted_desc_ranked l :
  Forall P l -> StronglySorted R (sorted_desc lt l).
Proof.
  unfold sorted_desc. induction l as [|x r IH]; cbn [foldr]; intros Hl.
  - constructor.
  - apply Forall_cons in Hl as [Px Pr].
    apply insert_desc_ranked; [exact Px| |apply IH, Pr].
    fold (sorted_desc lt r). rewrite sorted_desc_perm. exact Pr.
Qed.

End Sort.

(** *** what the filter keeps *)

(** the rating is a number other than zero that reaches the threshold *)
Definition rated_at_least (threshold : Q) (a : Article) : Prop :=
  exists r, relevance_rating a = Some r /\ ~ (r == 0)%Q /\ (threshold <= r)%Q.

Lemma keeps_rated threshold a :
  keeps threshold a = true <-> rated_at_least threshold a.
Proof.
  unfold keeps, rated_at_least. destruct (relevance_rating a) as [r|].
  - rewrite andb_true_iff, negb_true_iff, Qle_bool_iff. split.
    + intros [H0 Hle]. exists r. split; [reflexivity|]. split; [|exact Hle].
      intros E. apply Qeq_bool_iff in E. congruence.
    + intros (r' & [= <-] & H0 & Hle). split; [|exact Hle].
      destruct (Qeq_bool r 0) eqn:E; [|reflexivity].
      apply Qeq_bool_iff in E. contradiction.
  - split; [discriminate|]. intros (r & H & _). discriminate.
Qed.

(** [a] is rated at least as high as [b] *)
Definition rating_ge (a b : Article) : Prop :=
  exists x y, relevance_rating a = Some x /\ relevance_rating b = Some y
              /\ (y <= x)%Q.

(** X6: with the sort key "relevance" the call logs nothing and returns
    the articles whose rating is a number other than zero that reaches the
    threshold (an unrated article and an article rated 0 are dropped, also
    for a threshold of 0 or below), each as often as in the input, ordered
    from the highest rating to the lowest. *)
Theorem relevance_sort_is_ranked
  (articles : list Article) (default_date : string) (threshold : Q) :
  exists ranked,
    _sort_and_filter_articles articles default_date threshold "relevance"
    = ([], Ok ranked)
    /\ ranked ≡ₚ List.filter (keeps threshold) articles
    /\ (forall a, In a ranked <-> In a articles /\ rated_at_least threshold a)
    /\ StronglySorted rating_ge ranked.
Proof.
  eexists. split; [reflexivity|].
  assert (Hp := sorted_desc_perm rating_lt (List.filter (keeps threshold) articles)).
  split; [exact Hp|]. split.
  - intros a. rewrite <- !list_elem_of_In, Hp, list_elem_of_In, filter_In, keeps_rated.
    rewrite <- list_elem_of_In. reflexivity.
  - apply (sorted_desc_ranked rating_lt (rated_at_least threshold)).
    + intros x y (rx & Hx & _) (ry & Hy & _). unfold rating_lt, rating_ge.
      rewrite Hx, Hy. intros H. apply negb_true_iff in H.
      exists ry, rx. split; [reflexivity|]. split; [reflexivity|].
      destruct (Qlt_le_dec rx ry) as [Hlt|Hle]; [apply Qlt_le_weak, Hlt|].
      apply Qle_bool_iff in Hle. congruence.
    + intros x y (rx & Hx & _) (ry & Hy & _). unfold rating_lt, rating_ge.
      rewrite Hx, Hy. intros H. apply negb_false_iff, Qle_bool_iff in H.
      exists rx, ry. auto.
    + intros x y z _ _ _ (a & b & Ha & Hb & Hab) (b' & c & Hb' & Hc & Hbc).
      rewrite Hb in Hb'. injection Hb' as <-.
      exists a, c. split; [exact Ha|]. split; [exact Hc|].
      eapply Qle_trans; eassumption.
    + rewrite Forall_forall. intros a Ha.
      apply list_elem_of_In, filter_In in Ha as [_ Ha]. apply keeps_rated, Ha.
Qed.

(** *** the sort key "date" *)

Lemma mapM_ok_inv {B C : Type} (f : B -> outcome C) l r :
  mapM f l = Ok r -> Forall2 (fun x y => f x = Ok y) l r.
Proof.
  revert r. induction l as [|x l IH]; intros r; cbn.
  - intros [= <-]. constructor.
  - destruct (f x) as [y|e] eqn:Hx; cbn; [|discriminate].
    destruct (mapM f l) as [k|e]; cbn; [|discriminate].
    intros [= <-]. constructor; [exact Hx|apply IH; reflexivity].
Qed.

Lemma mapM_raised_inv {B C : Type} (f : B -> outcome C) l e :
  mapM f l = Raised e -> exists x, In x l /\ f x = Raised e.
Proof.
  induction l as [|x l IH]; cbn; [discriminate|].
  destruct (f x) as [y|e'] eqn:Hx; cbn.
  - destruct (mapM f l) as [k|e']; cbn; [discriminate|].
    intros [= <-]. destruct (IH eq_refl) as (z & Hz & Hf). eauto.
  - intros [= <-]. eauto.
Qed.

Lemma Forall2_in_r {B C : Type} (rel : B -> C -> Prop) l r b :
  Forall2 rel l r -> In b r -> exists a, In a l /\ rel a b.
Proof.
  induction 1 as [|x y l r Hxy _ IH]; intros Hb; [destruct Hb|].
  destruct Hb as [<- | Hb]; [exists x; split; [left; reflexivity|exact Hxy]|].
  destruct (IH Hb) as (a & Ha & Hq). exists a. split; [right; exact Ha|exact Hq].
Qed.

(** [a] is dated no earlier than [b] *)
Definition date_ge (a b : Article) : Prop :=
  exists x y, publish_date a = Some (Some x) /\ publish_date b = Some (Some y)
              /\ dt_leb (date_of y) (date_of x) = true.

Definition dated (a : Article) : Prop :=
  exists d, publish_date a = Some (Some d).

(** [b] is the article [a] after the loop that fills in the default date:
    [a] itself when it has a publish date, [a] with the parsed default date
    when its publish date is [None] *)
Definition filled_from (default_date : string) (a b : Article) : Prop :=
  (dated a /\ b = a)
  \/ (publish_date a = Some None
      /\ exists d, strptime_ymd default_date = Some d
                   /\ b = with_publish_date a (Some d)).

Lemma fill_default_date_ok default_date a b :
  fill_default_date default_date a = Ok b ->
  filled_from default_date a b /\ dated b.
Proof.
  unfold fill_default_date, filled_from, dated.
  destruct (publish_date a) as [[d|]|] eqn:Hd; [| |discriminate].
  - intros [= <-]. rewrite Hd. split; [left; split; [|reflexivity]|]; eauto.
  - destruct (strptime_ymd default_date) as [d|]; [|discriminate].
    intros [= <-]. cbn. split; [right; split; [reflexivity|]|]; eauto.
Qed.

Lemma date_ge_of_lt_true x y :
  dated x -> dated y -> date_lt x y = true -> date_ge y x.
Proof.
  intros [dx Hx] [dy Hy]. unfold date_lt, date_ge, dt_ltb, dt_leb.
  rewrite Hx, Hy. intros H. exists dy, dx.
  split; [reflexivity|]. split; [reflexivity|]. lia.
Qed.

Lemma date_ge_of_lt_false x y :
  dated x -> dated y -> date_lt x y = false -> date_ge x y.
Proof.
  intros [dx Hx] [dy Hy]. unfold date_lt, date_ge, dt_ltb, dt_leb.
  rewrite Hx, Hy. intros H. exists dx, dy.
  split; [reflexivity|]. split; [reflexivity|]. lia.
Qed.

Lemma date_ge_trans x y z : date_ge x y -> date_ge y z -> date_ge x z.
Proof.
  intros (a & b & Ha & Hb & Hab) (b' & c & Hb' & Hc & Hbc).
  rewrite Hb in Hb'. injection Hb' as <-.
  exists a, c. split; [exact Ha|]. split; [exact Hc|].
  unfold dt_leb in *. lia.
Qed.

(** X7: when the call with the sort key "date" returns, it has logged
    nothing, and what it returns is a rearrangement of the articles that
    pass the threshold, each taken once, with the parsed default date
    filled in for those whose publish date is [None]; the articles come
    ordered from the latest calendar date to the earliest. *)
Theorem date_sort_is_ranked
  (articles : list Article) (default_date : string) (threshold : Q)
  (t : list event) (ranked : list Article) :
  _sort_and_filter_articles articles default_date threshold "date"
  = (t, Ok ranked) ->
  t = []
  /\ (exists filled,
        Forall2 (filled_from default_date)
          (List.filter (keeps threshold) articles) filled
        /\ ranked ≡ₚ filled)
  /\ Forall dated ranked
  /\ StronglySorted date_ge ranked.
Proof.
  unfold _sort_and_filter_articles. cbn [String.eqb Ascii.eqb Bool.eqb].
  destruct (mapM _ _) as [filled|e] eqn:Hm; cbn; [|discriminate].
  intros [= <- <-]. split; [reflexivity|].
  apply mapM_ok_inv in Hm.
  assert (Hp := sorted_desc_perm date_lt filled).
  assert (Hd : Forall dated filled).
  { clear Hp. induction Hm as [|a b l r Hab _ IH]; constructor; [|exact IH].
    apply fill_default_date_ok in Hab. tauto. }
  split; [|split].
  - exists filled. split; [|exact Hp].
    eapply Forall2_impl; [exact Hm|].
    intros a b Hab. apply fill_default_date_ok in Hab. tauto.
  - rewrite Hp. exact Hd.
  - apply (sorted_desc_ranked date_lt dated); [| | |exact Hd].
    + apply date_ge_of_lt_true.
    + apply date_ge_of_lt_false.
    + intros x y z _ _ _. apply date_ge_trans.
Qed.

Lemma date_sort_is_ranked_witness :
  let old := with_publish_date (sample_article "A" "http://a" (Some 5%Q))
               (strptime_ymd "2023-12-24") in
  let undated := sample_article "B" "http://b" (Some 4%Q) in
  let late := with_publish_date undated (strptime_ymd "2024-01-31") in
  [] = @nil event
  /\ (exists filled,
        Forall2 (filled_from "2024-01-31")
          (List.filter (keeps 4)
             [old; sample_article "C" "http://c" (Some 1%Q); undated])
          filled
        /\ [late; old] ≡ₚ filled)
  /\ Forall dated [late; old]
  /\ StronglySorted date_ge [late; old].
Proof.
  cbv zeta.
  exact (date_sort_is_ranked
           [with_publish_date (sample_article "A" "http://a" (Some 5%Q))
              (strptime_ymd "2023-12-24");
            sample_article "C" "http://c" (Some 1%Q);
            sample_article "B" "http://b" (Some 4%Q)]
           "2024-01-31" 4 []
           [with_publish_date (sample_article "B" "http://b" (Some 4%Q))
              (strptime_ymd "2024-01-31");
            with_publish_date (sample_article "A" "http://a" (Some 5%Q))
              (strptime_ymd "2023-12-24")]
           eq_refl).
Defined.

(** *** the failures of the sort key "date" *)

Section DateFailures.
Variables (default_date : string) (threshold : Q).

(** the article passes the threshold and its publish date is [d] *)
Definition kept_with (articles : list Article) (d : option (option datetime))
  : Prop :=
  exists a, In a articles /\ rated_at_least threshold a /\ publish_date a = d.

Lemma fill_raises a e :
  fill_default_date default_date a = Raised e ->
  (e = "AttributeError" /\ publish_date a = None)
  \/ (e = "ValueError" /\ publish_date a = Some None
      /\ strptime_ymd default_date = None).
Proof.
  unfold fill_default_date. destruct (publish_date a) as [[d|]|]; [discriminate| |].
  - destruct (strptime_ymd default_date); [discriminate|].
    intros [= <-]. right. auto.
  - intros [= <-]. left. auto.
Qed.

Lemma fill_all_raises kept :
  (exists a, In a kept
             /\ (publish_date a = None
                 \/ (publish_date a = Some None
                     /\ strptime_ymd default_date = None))) ->
  exists e, mapM (fill_default_date default_date) kept = Raised e.
Proof.
  intros (a & Ha & Hbad). induction kept as [|x l IH]; [destruct Ha|]. cbn.
  destruct (fill_default_date default_date x) as [y|e] eqn:Hx; cbn; [|eauto].
  destruct Ha as [-> | Ha].
  - unfold fill_default_date in Hx.
    destruct Hbad as [Hd | [Hd Hp]]; rewrite Hd in Hx; [discriminate|].
    rewrite Hp in Hx. discriminate.
  - destruct (IH Ha) as [e ->]. eauto.
Qed.

Lemma fill_all_same (other_date : string) kept :
  Forall dated kept ->
  mapM (fill_default_date default_date) kept
  = mapM (fill_default_date other_date) kept.
Proof.
  induction 1 as [|x l [d Hx] _ IH]; [reflexivity|]. cbn.
  rewrite IH. unfold fill_default_date. rewrite Hx. reflexivity.
Qed.

End DateFailures.

Lemma date_run articles default_date threshold :
  _sort_and_filter_articles articles default_date threshold "date"
  = match mapM (fill_default_date default_date)
            (List.filter (keeps threshold) articles) with
    | Ok filled => ([], Ok (sorted_desc date_lt filled))
    | Raised e => ([], Raised e)
    end.
Proof.
  unfold _sort_and_filter_articles. cbn [String.eqb Ascii.eqb Bool.eqb].
  destruct (mapM _ _); reflexivity.
Qed.

(** X8: the failures of the sort key "date".  The call raises exactly when
    an article that passes the threshold has no [publish_date] attribute
    (as a [NewscatcherArticle] built from a null [published_date]), or the
    default date does not parse and an article that passes the threshold
    has the publish date [None].  It raises [AttributeError] or
    [ValueError], each only for its cause, and logs nothing.  When every
    article that passes the threshold has a publish date, the call returns
    and the result does not depend on the default date. *)
Theorem date_sort_fails_on_bad_default_date
  (articles : list Article) (default_date : string) (threshold : Q) :
  let run := _sort_and_filter_articles articles default_date threshold "date" in
  let no_attribute := kept_with threshold articles None in
  let needs_default := kept_with threshold articles (Some None) in
  ((exists t e, run = (t, Raised e))
   <-> no_attribute \/ (strptime_ymd default_date = None /\ needs_default))
  /\ (forall t e, run = (t, Raised e) ->
        t = []
        /\ ((e = "AttributeError" /\ no_attribute)
            \/ (e = "ValueError" /\ strptime_ymd default_date = None
                /\ needs_default)))
  /\ (~ no_attribute -> ~ needs_default ->
      (exists ranked, run = ([], Ok ranked))
      /\ forall other_date,
           run = _sort_and_filter_articles articles other_date threshold "date").
Proof.
  cbv zeta. unfold kept_with. rewrite date_run.
  set (kept := List.filter (keeps threshold) articles).
  assert (Hin : forall a, In a kept <-> In a articles /\ rated_at_least threshold a).
  { intros a. unfold kept. rewrite filter_In, keeps_rated. reflexivity. }
  assert (Hcause : forall (t : list event) (e : string),
            match mapM (fill_default_date default_date) kept with
            | Ok filled => (@nil event, Ok (sorted_desc date_lt filled))
            | Raised e' => ([], Raised e')
            end = (t, Raised e) ->
            t = []
            /\ ((e = "AttributeError"
                 /\ exists a, In a articles /\ rated_at_least threshold a
                              /\ publish_date a = None)
                \/ (e = "ValueError" /\ strptime_ymd default_date = None
                    /\ exists a, In a articles /\ rated_at_least threshold a
                                 /\ publish_date a = Some None))).
  { intros t e H.
    destruct (mapM _ kept) as [filled|e'] eqn:Hm; [discriminate|].
    injection H as <- <-. split; [reflexivity|].
    apply mapM_raised_inv in Hm as (a & Ha & Hf). apply Hin in Ha as [Ha Hr].
    destruct (fill_raises _ _ _ Hf) as [[-> Hd] | (-> & Hd & Hp)].
    - left. split; [reflexivity|]. exists a. auto.
    - right. split; [reflexivity|]. split; [exact Hp|]. exists a. auto. }
  split; [split|split].
  - intros (t & e & H). destruct (Hcause t e H) as [_ [[_ Ha] | (_ & Hp & Ha)]];
      [left; exact Ha|right; split; [exact Hp|exact Ha]].
  - intros Hbad.
    destruct (fill_all_raises default_date kept) as [e He].
    { destruct Hbad as [(a & Ha & Hr & Hd) | [Hp (a & Ha & Hr & Hd)]];
        exists a; (split; [apply Hin; auto|]); [left|right]; auto. }
    rewrite He. eauto.
  - exact Hcause.
  - intros Hno Hneeds.
    assert (Hd : Forall dated kept).
    { rewrite Forall_forall. intros a Ha. apply list_elem_of_In, Hin in Ha as [Ha Hr].
      destruct (publish_date a) as [[d|]|] eqn:Hda.
      - exists d. exact Hda.
      - exfalso. apply Hneeds. eauto.
      - exfalso. apply Hno. eauto. }
    split.
    + destruct (mapM (fill_default_date default_date) kept) as [filled|e] eqn:Hm;
        [eauto|].
      apply mapM_raised_inv in Hm as (a & Ha & Hf).
      rewrite Forall_forall in Hd.
      destruct (Hd a ltac:(apply list_elem_of_In, Ha)) as [d Hda].
      unfold fill_default_date in Hf. rewrite Hda in Hf. discriminate.
    + intros other_date. rewrite date_run. fold kept.
      rewrite (fill_all_same default_date other_date kept Hd). reflexivity.
Qed.

(** an article of the Newscatcher source whose payload had a null
    [published_date] *)
Definition without_publish_date (a : Article) : Article :=
  {| title := title a; canonical_link := canonical_link a;
     text_cleaned := text_cleaned a; publish_date := None;
     search_term := search_term a; summary := summary a;
     relevance_rating := relevance_rating a |}.

Lemma date_sort_fails_on_bad_default_date_witness :
  (exists t e,
     _sort_and_filter_articles
       [sample_article "A" "http://a" (Some 5%Q);
        without_publish_date (sample_article "B" "http://b" (Some 4%Q))]
       "2024-01-31" 4 "date" = (t, Raised e))
  /\ _sort_and_filter_articles
       [sample_article "A" "http://a" (Some 5%Q);
        without_publish_date (sample_article "B" "http://b" (Some 4%Q))]
       "2024-01-31" 4 "date" = ([], Raised "AttributeError").
Proof.
  split; [|reflexivity].
  apply (proj1 (date_sort_fails_on_bad_default_date
                  [sample_article "A" "http://a" (Some 5%Q);
                   without_publish_date
                     (sample_article "B" "http://b" (Some 4%Q))]
                  "2024-01-31" 4)).
  left. exists (without_publish_date (sample_article "B" "http://b" (Some 4%Q))).
  split; [right; left; reflexivity|]. split; [|reflexivity].
  exists 4%Q. split; [reflexivity|]. split; [discriminate|discriminate].
Defined.

End SortLaws.

(** ** Chunking and recursive summarization *)

Module SummarizeLaws.
Import PyStr StringUtils ModelUtils Summarize.
Local Open Scope Q_scope.

(** *** the words of a text *)

Fixpoint no_space (s : string) : bool :=
  match s with
  | EmptyString => true
  | String c r => negb (is_space c) && no_space r
  end.

(** a word of [str.split()]: not empty, no white space *)
Definition is_word (w : string) : Prop := w <> EmptyString /\ no_space w = true.

Lemma is_word_cons c w :
  is_space c = false -> no_space w = true -> is_word (String c w).
Proof. intros Hc Hw. split; [discriminate|]. cbn. rewrite Hc, Hw. reflexivity. Qed.

Lemma split_ws_words s : Forall is_word (split_ws s).
Proof.
  induction s as [|c r IH]; cbn [split_ws]; [constructor|].
  destruct (is_space c) eqn:Hc; [exact IH|].
  destruct (head_is_space r).
  - constructor; [apply is_word_cons; [exact Hc|reflexivity]|exact IH].
  - destruct (split_ws r) as [|w ws].
    + constructor; [apply is_word_cons; [exact Hc|reflexivity]|constructor].
    + apply Forall_cons in IH as [[_ Hw] Hws].
      constructor; [apply is_word_cons; assumption|exact Hws].
Qed.

Lemma split_ws_word_sep w rest :
  is_word w -> split_ws (w ++ " " ++ rest) = w :: split_ws rest.
Proof.
  intros [Hne Hw]. induction w as [|c w IH]; [congruence|].
  cbn [no_space] in Hw. apply andb_true_iff in Hw as [Hc Hw].
  apply negb_true_iff in Hc.
  change (String c w ++ " " ++ rest) with (String c (w ++ " " ++ rest)).
  cbn [split_ws]. rewrite Hc. destruct w as [|c' w'].
  - reflexivity.
  - rewrite IH by (discriminate || exact Hw).
    cbn [no_space] in Hw. apply andb_true_iff in Hw as [Hc' _].
    apply negb_true_iff in Hc'.
    change (String c' w' ++ " " ++ rest) with (String c' (w' ++ " " ++ rest)).
    cbn [head_is_space]. rewrite Hc'. reflexivity.
Qed.

Lemma split_ws_single w : is_word w -> split_ws w = [w].
Proof.
  intros [Hne Hw]. induction w as [|c w IH]; [congruence|].
  cbn [no_space] in Hw. apply andb_true_iff in Hw as [Hc Hw].
  apply negb_true_iff in Hc. cbn [split_ws]. rewrite Hc. destruct w as [|c' w'].
  - reflexivity.
  - rewrite IH by (discriminate || exact Hw).
    cbn [no_space] in Hw. apply andb_true_iff in Hw as [Hc' _].
    apply negb_true_iff in Hc'. cbn [head_is_space]. rewrite Hc'. reflexivity.
Qed.

Lemma split_ws_join ws :
  Forall is_word ws -> split_ws (join " " ws) = ws.
Proof.
  induction ws as [|x [|y r] IH]; intros H; [reflexivity| |].
  - apply Forall_cons in H as [Hx _]. apply split_ws_single, Hx.
  - apply Forall_cons in H as [Hx Hr].
    change (join " " (x :: y :: r)) with (x ++ " " ++ join " " (y :: r)).
    rewrite split_ws_word_sep by exact Hx. rewrite IH by exact Hr. reflexivity.
Qed.

Section Chunks.
Variable tiktoken_len : string -> string -> outcome nat.
Variable model_name : string.
Variable token_limit : Q.

Local Abbreviation tokens_of word := (count_tokens tiktoken_len word model_name).

(** the words gathered so far *)
Definition words_of (st : chunker) : list string :=
  (concat (map split_ws (chunks st)) ++ current_chunk st)%list.

(** a chunk of several words keeps within the limit *)
Definition chunk_fits (words : list string) : Prop :=
  (List.length words <= 1)%nat
  \/ exists ts, mapM (fun w => tokens_of w) words = Ok ts
                /\ Np.sum ts <= token_limit.

Definition chunker_ok (st : chunker) : Prop :=
  Forall is_word (current_chunk st)
  /\ Forall (fun c => chunk_fits (split_ws c)) (chunks st)
  /\ chunk_fits (current_chunk st)
  /\ exists ts, mapM (fun w => tokens_of w) (current_chunk st) = Ok ts
                /\ current_chunk_tokens st == Np.sum ts.

Lemma sum_snoc ts t : Np.sum (ts ++ [t]) == Np.sum ts + t.
Proof.
  unfold Np.sum. induction ts as [|x r IH]; cbn [foldr app]; [ring|].
  rewrite IH. ring.
Qed.

Lemma mapM_snoc {B C : Type} (f : B -> outcome C) l x ys y :
  mapM f l = Ok ys -> f x = Ok y -> mapM f (l ++ [x]) = Ok (ys ++ [y])%list.
Proof.
  revert ys. induction l as [|a l IH]; intros ys; cbn.
  - intros [= <-] ->. reflexivity.
  - destruct (f a) as [b|]; cbn; [|discriminate].
    destruct (mapM f l) as [k|]; cbn; [|discriminate].
    intros [= <-] Hx. rewrite (IH k eq_refl Hx). reflexivity.
Qed.

Lemma chunk_step_ok st word st' :
  is_word word -> chunker_ok st ->
  chunk_step tiktoken_len model_name token_limit st word = Ok st' ->
  chunker_ok st' /\ words_of st' = (words_of st ++ [word])%list.
Proof.
  intros Hw (Hcur & Hch & Hfit & ts & Hts & Hsum). unfold chunk_step.
  destruct (tokens_of word) as [wt|] eqn:Hwt; cbn [mbind outcome_bind];
    [|discriminate].
  destruct (negb _) eqn:Hover; intros [= <-]; unfold chunker_ok, words_of; cbn.
  - split.
    + split; [constructor; [exact Hw|constructor]|]. split; [|split].
      * apply Forall_app. split; [exact Hch|]. constructor; [|constructor].
        rewrite split_ws_join by exact Hcur. exact Hfit.
      * left. cbn. lia.
      * exists [wt]. rewrite Hwt. cbn. split; [reflexivity|].
        unfold Np.sum. cbn. ring.
    + rewrite map_app, concat_app. cbn. rewrite app_nil_r.
      rewrite split_ws_join by exact Hcur. rewrite <- app_assoc. reflexivity.
  - apply negb_false_iff, Qle_bool_iff in Hover. split.
    + split; [apply Forall_app; split; [exact Hcur|constructor; [exact Hw|constructor]]|].
      split; [exact Hch|].
      assert (Hm := mapM_snoc _ _ word ts wt Hts Hwt).
      split.
      * right. exists (ts ++ [wt])%list. split; [exact Hm|].
        rewrite sum_snoc, <- Hsum. exact Hover.
      * exists (ts ++ [wt])%list. split; [exact Hm|].
        rewrite sum_snoc, Hsum. reflexivity.
    + rewrite app_assoc. reflexivity.
Qed.

Lemma chunk_loop_ok words : forall st st',
  Forall is_word words -> chunker_ok st ->
  chunk_loop tiktoken_len model_name token_limit st words = Ok st' ->
  chunker_ok st' /\ words_of st' = (words_of st ++ words)%list.
Proof.
  induction words as [|w r IH]; intros st st' Hws Hst; cbn [chunk_loop].
  - intros [= <-]. rewrite app_nil_r. auto.
  - apply Forall_cons in Hws as [Hw Hr].
    destruct (chunk_step _ _ _ st w) as [st1|] eqn:H1; cbn [mbind outcome_bind];
      [|discriminate].
    intros H. destruct (chunk_step_ok _ _ _ Hw Hst H1) as [Hok1 E1].
    destruct (IH _ _ Hr Hok1 H) as [Hok' E']. split; [exact Hok'|].
    rewrite E', E1, <- app_assoc. reflexivity.
Qed.

Lemma chunker_ok_init :
  chunker_ok {| current_chunk := []; current_chunk_tokens := 0; chunks := [] |}.
Proof.
  split; [constructor|]. split; [constructor|]. split; [left; cbn; lia|].
  exists []. split; reflexivity.
Qed.

(** X9: the chunks keep the words of the text: read one after the other,
    the words of the chunks are the words of the text, none lost, none
    added and in the same order. *)
Theorem chunks_keep_the_words (text : string) (chunks : list string) :
  split_text_into_chunks tiktoken_len text model_name token_limit = Ok chunks ->
  concat (map split_ws chunks) = split_ws text.
Proof.
  unfold split_text_into_chunks.
  destruct (chunk_loop _ _ _ _ _) as [st|] eqn:Hl; cbn [mbind outcome_bind];
    [|discriminate].
  destruct (chunk_loop_ok _ _ _ (split_ws_words text) chunker_ok_init Hl)
    as [(Hcur & _) E].
  unfold words_of in E. cbn in E.
  assert (E' : concat (map split_ws
                         (Summarize.chunks st ++ [join " " (current_chunk st)]))
               = split_ws text).
  { rewrite map_app, concat_app. cbn [map concat]. rewrite app_nil_r.
    rewrite split_ws_join by exact Hcur. exact E. }
  destruct (current_chunk st) as [|w r] eqn:Hc; intros [= <-].
  - rewrite app_nil_r in E. exact E.
  - exact E'.
Qed.

(** X10: what the splitter guarantees of the limit: in a chunk of two
    words or more the token counts of the words add up to [token_limit] at
    most.  A chunk of one word can be over the limit (the word is never
    cut), and the white space that joins the words is not counted. *)
Theorem chunks_of_several_words_fit (text : string) (chunks : list string) :
  split_text_into_chunks tiktoken_len text model_name token_limit = Ok chunks ->
  Forall (fun chunk =>
            (1 < List.length (split_ws chunk))%nat ->
            exists ts,
              mapM (fun w => tokens_of w) (split_ws chunk) = Ok ts
              /\ Np.sum ts <= token_limit)
    chunks.
Proof.
  unfold split_text_into_chunks.
  destruct (chunk_loop _ _ _ _ _) as [st|] eqn:Hl; cbn [mbind outcome_bind];
    [|discriminate].
  destruct (chunk_loop_ok _ _ _ (split_ws_words text) chunker_ok_init Hl)
    as [(Hcur & Hch & Hfit & _) _].
  assert (Hall : Forall (fun c => chunk_fits (split_ws c))
                   (Summarize.chunks st ++ [join " " (current_chunk st)])).
  { apply Forall_app. split; [exact Hch|]. constructor; [|constructor].
    rewrite split_ws_join by exact Hcur. exact Hfit. }
  assert (Hw : forall l, Forall (fun c => chunk_fits (split_ws c)) l ->
               Forall (fun chunk =>
                         (1 < List.length (split_ws chunk))%nat ->
                         exists ts,
                           mapM (fun w => tokens_of w) (split_ws chunk) = Ok ts
                           /\ Np.sum ts <= token_limit) l).
  { intros l Hfits. eapply Forall_impl; [exact Hfits|].
    intros c [H1|H] Hlen; [lia|exact H]. }
  destruct (current_chunk st) as [|w r] eqn:Hc; intros [= <-]; apply Hw.
  - exact Hch.
  - exact Hall.
Qed.

End Chunks.

Lemma chunks_keep_the_words_witness :
  concat (map split_ws ["alpha beta"; "gamma"]) = split_ws " alpha beta  gamma ".
Proof.
  apply (chunks_keep_the_words (fun _ _ => Ok 0%nat)
           "togethercomputer/llama-2-7b-chat" 4 " alpha beta  gamma "
           ["alpha beta"; "gamma"]).
  vm_compute. reflexivity.
Defined.

Lemma chunks_of_several_words_fit_witness :
  Forall (fun chunk =>
            (1 < List.length (split_ws chunk))%nat ->
            exists ts,
              mapM (fun w => count_tokens (fun _ _ => Ok 0%nat) w
                               "togethercomputer/llama-2-7b-chat")
                (split_ws chunk) = Ok ts
              /\ Np.sum ts <= 4)
    ["alpha beta"; "gamma"].
Proof.
  apply (chunks_of_several_words_fit (fun _ _ => Ok 0%nat)
           "togethercomputer/llama-2-7b-chat" 4 " alpha beta  gamma "
           ["alpha beta"; "gamma"]).
  vm_compute. reflexivity.
Defined.

(** *** the recursion *)

Section Recursion.
Variable tiktoken_len : string -> string -> outcome nat.
Variable str_format : string -> list (string * fval) -> outcome string.
Variable get_response_from_model :
  string -> string -> option Z -> outcome string.
Variables model_name prompt : string.
Variable output_token_length : option Z.
Variable temperature : Q.
Variable limit : Z.
Hypothesis Hlimit : lookup model_name MODEL_TOKEN_LIMITS = Some limit.

Local Abbreviation rs fuel text :=
  (recursive_summarize tiktoken_len str_format get_response_from_model fuel
     text model_name prompt output_token_length temperature).
Local Abbreviation rs_unfold :=
  (SummarizeFacts.rs_unfold tiktoken_len str_format get_response_from_model
     model_name prompt output_token_length temperature).

(** a completion call of the model at hand whose prompt was rendered from
    an article text within the limit of the model *)
Definition within_limit (ev : event) : Prop :=
  match ev with
  | Completion model full_prompt =>
      model = model_name
      /\ exists template text tokens,
           str_format template [("article", FStr text)] = Ok full_prompt
           /\ count_tokens tiktoken_len text model_name = Ok tokens
           /\ tokens <= inject_Z limit
  | _ => True
  end.

Lemma summarize_chunks_trace (rec : string -> option (traced string))
  (P : event -> Prop) chunks : forall tr r,
  (forall c t x, rec c = Some (t, x) -> Forall P t) ->
  summarize_chunks rec chunks = Some (tr, r) -> Forall P tr.
Proof.
  induction chunks as [|c l IH]; intros tr r Hrec; cbn [summarize_chunks].
  - intros [= <- _]. constructor.
  - destruct (rec c) as [[t [s|e]]|] eqn:Hc; [| |discriminate].
    + destruct (summarize_chunks rec l) as [[t' [ss|e]]|] eqn:Hl;
        [| |discriminate]; intros [= <- _]; apply Forall_app;
        (split; [exact (Hrec _ _ _ Hc)|exact (IH _ _ Hrec eq_refl)]).
    + intros [= <- _]. exact (Hrec _ _ _ Hc).
Qed.

(** X11: the model is never sent a text over its limit: in every run of
    [recursive_summarize] that returns or raises, each completion call is
    made for the model at hand, with a prompt rendered from a text whose
    token count is at most the limit of the model. *)
Theorem completions_stay_within_limit (fuel : nat) :
  forall (text : string) (tr : list event) (r : outcome string),
  rs fuel text = Some (tr, r) -> Forall within_limit tr.
Proof.
  induction fuel as [|fuel IH]; intros text tr r; [discriminate|].
  rewrite rs_unfold.
  destruct (count_tokens tiktoken_len text model_name) as [n|] eqn:Hn;
    [|intros [= <- _]; constructor].
  cbv zeta. rewrite Hlimit.
  destruct (Qle_bool n (inject_Z limit)) eqn:Hle.
  - apply Qle_bool_iff in Hle. unfold summarize_once.
    set (template := match output_token_length with
                     | Some _ => _ | None => prompt end).
    destruct (str_format template [("article", FStr text)]) as [p|] eqn:Hp;
      [|cbn; intros [= <- _]; repeat constructor].
    assert (Hc : within_limit (Completion model_name p)).
    { split; [reflexivity|]. exists template, text, n. auto. }
    cbn.
    destruct (get_response_from_model model_name p output_token_length);
      cbn; intros [= <- _]; repeat (constructor; try exact Hc).
  - destruct (split_text_into_chunks _ _ _ _) as [chunks|];
      [|intros [= <- _]; repeat constructor].
    destruct (summarize_chunks _ chunks) as [[t [ss|e]]|] eqn:Hs;
      [| |discriminate].
    + destruct (rs fuel (join " " ss)) as [[t' r']|] eqn:Hr; [|discriminate].
      intros [= <- _]. constructor; [exact I|]. apply Forall_app. split.
      * eapply summarize_chunks_trace; [|exact Hs]. intros c t0 x. apply IH.
      * eapply IH, Hr.
    + intros [= <- _]. constructor; [exact I|].
      eapply summarize_chunks_trace; [|exact Hs]. intros c t0 x. apply IH.
Qed.

(** X12: a text that is a single word over the limit of the model is
    never summarized: the splitter returns the empty chunk followed by the
    word itself, and the call on the word starts over.  Whatever the model
    answers, [recursive_summarize] does not return a summary: it either
    fails (when the call on the empty chunk fails) or never returns. *)
Theorem over_limit_word_is_never_summarized (text : string) (tokens : Q) :
  split_ws text = [text] ->
  count_tokens tiktoken_len text model_name = Ok tokens ->
  inject_Z limit < tokens ->
  split_text_into_chunks tiktoken_len text model_name (inject_Z (limit - 1000))
  = Ok [""; text]
  /\ forall fuel tr out, rs fuel text <> Some (tr, Ok out).
Proof.
  intros Hword Hn Hover.
  assert (Hb : Qle_bool tokens (inject_Z limit) = false).
  { destruct (Qle_bool _ _) eqn:E; [|reflexivity].
    apply Qle_bool_iff in E. exact (False_ind _ (Qlt_not_le _ _ Hover E)). }
  assert (Hsplit : split_text_into_chunks tiktoken_len text model_name
                     (inject_Z (limit - 1000)) = Ok [""; text]).
  { unfold split_text_into_chunks. rewrite Hword. cbn [chunk_loop].
    unfold chunk_step. rewrite Hn. cbn [mbind outcome_bind current_chunk_tokens].
    assert (Hb' : Qle_bool (0 + tokens) (inject_Z (limit - 1000)) = false).
    { destruct (Qle_bool (0 + tokens) _) eqn:E; [|reflexivity].
      apply Qle_bool_iff in E. exfalso. apply (Qlt_not_le _ _ Hover).
      rewrite Qplus_0_l in E. eapply Qle_trans; [exact E|].
      rewrite <- Zle_Qle. lia. }
    rewrite Hb'. reflexivity. }
  split; [exact Hsplit|].
  induction fuel as [|fuel IH]; intros tr out; [discriminate|].
  rewrite rs_unfold, Hn. cbv zeta. rewrite Hlimit, Hb, Hsplit.
  cbn [summarize_chunks].
  destruct (rs fuel "") as [[t0 [s0|e0]]|]; [| |discriminate].
  - destruct (rs fuel text) as [[t1 [s1|e1]]|] eqn:H1; [| |discriminate].
    + exfalso. exact (IH _ _ eq_refl).
    + discriminate.
  - discriminate.
Qed.

End Recursion.

Lemma completions_stay_within_limit_witness :
  Forall (within_limit (fun _ _ => Ok 0%nat) (fun template _ => Ok template)
            "togethercomputer/llama-2-7b-chat" 4096)
    [Log "info" "Total number of tokens of the given text: {}" [VFloat (4 # 3)];
     Completion "togethercomputer/llama-2-7b-chat" "{article}";
     Log "info" "Time taken for summarization: {:.2f} seconds" [];
     Log "info" "Finished summarizing the article!" []].
Proof.
  apply (completions_stay_within_limit (fun _ _ => Ok 0%nat)
           (fun template _ => Ok template) (fun _ _ _ => Ok "short")
           "togethercomputer/llama-2-7b-chat" "{article}" None 0 4096 eq_refl
           1 "text" _ (Ok "short")).
  reflexivity.
Defined.

Lemma over_limit_word_is_never_summarized_witness :
  split_text_into_chunks SummarizeFacts.no_tiktoken SummarizeFacts.long_word
    SummarizeFacts.llama (inject_Z (4096 - 1000))
  = Ok [""; SummarizeFacts.long_word]
  /\ forall fuel tr out,
       recursive_summarize SummarizeFacts.no_tiktoken
         SummarizeFacts.plain_format SummarizeFacts.empty_summary fuel
         SummarizeFacts.long_word SummarizeFacts.llama "{article}" None 0
       <> Some (tr, Ok out).
Proof.
  apply (over_limit_word_is_never_summarized SummarizeFacts.no_tiktoken
           SummarizeFacts.plain_format SummarizeFacts.empty_summary
           SummarizeFacts.llama "{article}" None 0 4096 eq_refl
           SummarizeFacts.long_word (12289 # 3)).
  - vm_compute. reflexivity.
  - vm_compute. reflexivity.
  - reflexivity.
Defined.

End SummarizeLaws.

(** ** A text that is summarized for ever *)

Module SummarizeLoop.
Import PyStr StringUtils ModelUtils Summarize SummarizeFacts SummarizeLaws.
Local Open Scope Q_scope.

(** the token count of a text for a model that has no tokenizer *)
Definition thirds (text : string) : Q := Z.of_nat (String.length text) # 3.

Lemma thirds_nonneg text : 0 <= thirds text.
Proof. unfold thirds, Qle. cbn. lia. Qed.

Lemma sum_thirds_nonneg words : 0 <= Np.sum (map thirds words).
Proof.
  induction words as [|w r IH]; cbn [map Np.sum foldr]; [apply Qle_refl|].
  apply (Qle_trans _ (0 + 0)); [apply Qle_refl|].
  apply Qplus_le_compat; [apply thirds_nonneg|exact IH].
Qed.

Lemma lookup_forallb {V : Type} (P : V -> bool) key (d : list (string * V)) v :
  forallb (fun kv => P kv.2) d = true -> lookup key d = Some v -> P v = true.
Proof.
  induction d as [|[k x] r IH]; cbn [forallb lookup]; [discriminate|].
  intros H. apply andb_true_iff in H as [Hx Hr].
  destruct (String.eqb k key); [intros [= <-]; exact Hx|apply IH, Hr].
Qed.

Lemma limits_are_positive model_name limit :
  lookup model_name MODEL_TOKEN_LIMITS = Some limit -> (0 < limit)%Z.
Proof.
  intros H. apply Z.ltb_lt.
  apply (lookup_forallb (fun l => (0 <? l)%Z) model_name MODEL_TOKEN_LIMITS);
    [vm_compute; reflexivity|exact H].
Qed.

Section Loop.
Variable tiktoken_len : string -> string -> outcome nat.
Variable str_format : string -> list (string * fval) -> outcome string.
Variable get_response_from_model :
  string -> string -> option Z -> outcome string.
Variables model_name prompt : string.
Variable output_token_length : option Z.
Variable temperature : Q.
Variable limit : Z.

Hypothesis Hlimit : lookup model_name MODEL_TOKEN_LIMITS = Some limit.
(** the model is not one of OpenAI: a token is three characters *)
Hypothesis Hcount :
  forall t, count_tokens tiktoken_len t model_name = Ok (thirds t).

Local Abbreviation rs fuel text :=
  (recursive_summarize tiktoken_len str_format get_response_from_model fuel
     text model_name prompt output_token_length temperature).

(** words whose tokens fit the limit of a chunk all join the current
    chunk *)
Lemma chunk_loop_keeps_one_chunk token_limit words : forall st,
  current_chunk_tokens st + Np.sum (map thirds words) <= token_limit ->
  exists st',
    chunk_loop tiktoken_len model_name token_limit st words = Ok st'
    /\ chunks st' = chunks st
    /\ current_chunk st' = (current_chunk st ++ words)%list.
Proof.
  induction words as [|w r IH]; intros st Hfit.
  - exists st. rewrite app_nil_r. auto.
  - cbn [chunk_loop]. unfold chunk_step. rewrite Hcount.
    cbn [mbind outcome_bind]. cbn [map Np.sum foldr] in Hfit.
    fold (Np.sum (map thirds r)) in Hfit.
    assert (Hle : current_chunk_tokens st + thirds w <= token_limit).
    { eapply Qle_trans; [|exact Hfit].
      rewrite <- (Qplus_0_r (current_chunk_tokens st + thirds w)).
      rewrite <- Qplus_assoc. apply Qplus_le_compat; [apply Qle_refl|].
      apply Qplus_le_compat; [apply Qle_refl|apply sum_thirds_nonneg]. }
    apply Qle_bool_iff in Hle. rewrite Hle. cbn [negb mbind outcome_bind].
    destruct (IH {| current_chunk := (current_chunk st ++ [w])%list;
                    current_chunk_tokens := current_chunk_tokens st + thirds w;
                    chunks := chunks st |}) as (st' & E & Hc & Hw).
    { cbn. rewrite <- Qplus_assoc. exact Hfit. }
    exists st'. split; [exact E|]. split; [exact Hc|].
    rewrite Hw. cbn. rewrite <- app_assoc. reflexivity.
Qed.

(** a text with single spaces whose words, without the spaces, fit the
    limit of a chunk comes back as its only chunk *)
Lemma plain_text_is_its_only_chunk token_limit words :
  Forall is_word words -> words <> [] ->
  Np.sum (map thirds words) <= token_limit ->
  split_text_into_chunks tiktoken_len (join " " words) model_name token_limit
  = Ok [join " " words].
Proof.
  intros Hw Hne Hfit. unfold split_text_into_chunks.
  rewrite (split_ws_join words Hw).
  destruct (chunk_loop_keeps_one_chunk token_limit words
              {| current_chunk := []; current_chunk_tokens := 0; chunks := [] |})
    as (st & -> & Hc & Hcur).
  { cbn. rewrite Qplus_0_l. exact Hfit. }
  cbn [mbind outcome_bind]. rewrite Hc, Hcur. cbn [app chunks current_chunk].
  destruct words; [congruence|reflexivity].
Qed.

(** the recursion on a text that is its own only chunk never returns,
    whatever the summarizer answers *)
Lemma own_chunk_never_returns text :
  inject_Z limit < thirds text ->
  split_text_into_chunks tiktoken_len text model_name (inject_Z (limit - 1000))
  = Ok [text] ->
  forall fuel, rs fuel text = None.
Proof.
  intros Hover Hsplit. induction fuel as [|fuel IH]; [reflexivity|].
  rewrite rs_unfold, Hcount. cbv zeta. rewrite Hlimit.
  assert (Hb : Qle_bool (thirds text) (inject_Z limit) = false).
  { destruct (Qle_bool _ _) eqn:E; [|reflexivity].
    apply Qle_bool_iff in E. exact (False_ind _ (Qlt_not_le _ _ Hover E)). }
  rewrite Hb, Hsplit. cbn [summarize_chunks]. rewrite IH. reflexivity.
Qed.

Lemma plain_text_never_returns words :
  Forall is_word words ->
  inject_Z limit < thirds (join " " words) ->
  Np.sum (map thirds words) <= inject_Z (limit - 1000) ->
  forall fuel, rs fuel (join " " words) = None.
Proof.
  intros Hw Hover Hfit. apply own_chunk_never_returns; [exact Hover|].
  apply plain_text_is_its_only_chunk; [exact Hw| |exact Hfit].
  intros ->. revert Hover. unfold thirds, Qlt. cbn.
  pose proof (limits_are_positive _ _ Hlimit). lia.
Qed.

End Loop.

(** *** an ordinary text for a model with 32768 tokens *)

Definition mixtral : string := "mistralai/Mixtral-8x7B-Instruct-v0.1".

(** 19700 times the word "word" with single spaces: 98499 characters,
    that is 32833 tokens for the text and 26266 and two thirds for its
    words *)
Definition plain_words : list string := repeat "word" (Z.to_nat 19700).
Definition plain_text : string := join " " plain_words.

Lemma mixtral_limit : lookup mixtral MODEL_TOKEN_LIMITS = Some 32768%Z.
Proof. reflexivity. Qed.

Lemma mixtral_count tiktoken_len text :
  count_tokens tiktoken_len text mixtral = Ok (thirds text).
Proof. reflexivity. Qed.

Lemma length_join_repeat w n :
  (1 <= n)%nat ->
  Z.of_nat (String.length (join " " (repeat w n)))
  = (Z.of_nat n * (Z.of_nat (String.length w) + 1) - 1)%Z.
Proof.
  intros Hn. destruct n as [|n]; [lia|clear Hn].
  induction n as [|n IH].
  - cbn [repeat join]. lia.
  - change (repeat w (S (S n))) with (w :: repeat w (S n)).
    change (repeat w (S n)) with (w :: repeat w n) at 1.
    change (join " " (w :: w :: repeat w n))
      with (w ++ " " ++ join " " (w :: repeat w n)).
    change (w :: repeat w n) with (repeat w (S n)).
    rewrite !TokenFacts.length_app. cbn [String.length] in *. lia.
Qed.

Lemma sum_repeat q n :
  Np.sum (repeat q n) == inject_Z (Z.of_nat n) * q.
Proof.
  induction n as [|n IH].
  - cbn. unfold Qeq. cbn. lia.
  - cbn [repeat Np.sum foldr]. fold (Np.sum (repeat q n)). rewrite IH.
    rewrite Nat2Z.inj_succ. unfold Z.succ. rewrite inject_Z_plus. ring.
Qed.

Lemma plain_words_are_words : Forall is_word plain_words.
Proof.
  rewrite Forall_forall. intros w Hw.
  apply list_elem_of_In, repeat_spec in Hw as ->.
  split; [discriminate|reflexivity].
Qed.

Lemma plain_text_length : Z.of_nat (String.length plain_text) = 98499%Z.
Proof.
  unfold plain_text, plain_words. rewrite length_join_repeat by lia.
  cbn [String.length]. lia.
Qed.

Lemma plain_text_over_limit : inject_Z 32768 < thirds plain_text.
Proof.
  unfold thirds. rewrite plain_text_length. reflexivity.
Qed.

Lemma plain_words_fit :
  Np.sum (map thirds plain_words) <= inject_Z (32768 - 1000).
Proof.
  unfold plain_words. rewrite map_repeat, sum_repeat.
  rewrite Z2Nat.id by lia. vm_compute. discriminate.
Qed.

(** C8 (the recursion does not end): an ordinary text of 19700 words with
    single spaces, summarized for a model that counts a token for three
    characters and has a limit of 32768 tokens.  The text has 98499
    characters, 32833 tokens, and is over the limit; its words without the
    spaces have fewer than the 31768 tokens of a chunk, so that
    [split_text_into_chunks] returns the text itself as the only chunk,
    over the token limit that its docstring promises for each chunk.
    [recursive_summarize] then calls itself on the same text: at no depth
    of the recursion does the call return, whatever the tokenizer, the
    prompt and the summarizer are, a summarizer whose answers are shorter
    than its inputs included; the model is never called. *)
Theorem recursive_summarize_does_not_return_on_plain_text
  (tiktoken_len : string -> string -> outcome nat)
  (str_format : string -> list (string * fval) -> outcome string)
  (get_response_from_model : string -> string -> option Z -> outcome string)
  (prompt : string) (output_token_length : option Z) (temperature : Q) :
  Z.of_nat (String.length plain_text) = 98499%Z
  /\ count_tokens tiktoken_len plain_text mixtral = Ok (thirds plain_text)
  /\ lookup mixtral MODEL_TOKEN_LIMITS = Some 32768%Z
  /\ inject_Z 32768 < thirds plain_text
  /\ split_text_into_chunks tiktoken_len plain_text mixtral
       (inject_Z (32768 - 1000)) = Ok [plain_text]
  /\ forall fuel,
       recursive_summarize tiktoken_len str_format get_response_from_model
         fuel plain_text mixtral prompt output_token_length temperature
       = None.
Proof.
  split; [exact plain_text_length|]. split; [apply mixtral_count|].
  split; [exact mixtral_limit|]. split; [exact plain_text_over_limit|].
  split.
  - apply (plain_text_is_its_only_chunk tiktoken_len mixtral
             (mixtral_count tiktoken_len));
      [exact plain_words_are_words| |exact plain_words_fit].
    unfold plain_words. intros H.
    apply (f_equal (@List.length string)) in H.
    rewrite repeat_length in H. cbn [List.length] in H. lia.
  - apply (plain_text_never_returns tiktoken_len str_format
             get_response_from_model mixtral prompt output_token_length
             temperature 32768 mixtral_limit (mixtral_count tiktoken_len));
      [exact plain_words_are_words|exact plain_text_over_limit
      |exact plain_words_fit].
Qed.

End SummarizeLoop.

(** ** Fetching the full text of the Google News results *)

Module FetchLaws.
Import PyStr TimeUtils InformationRetrieval.

(** the urls for which the full article was requested, in order *)
Definition fetched (tr : list event) : list string :=
  omap (fun e => match e with FetchArticle url => Some url | _ => None end) tr.

(** what is kept of a full article: a non-empty text longer than the
    threshold and a publish date *)
Definition worth_keeping (length_threshold : Z) (a : Article) : Prop :=
  exists text, text_cleaned a = Some text /\ text <> ""
               /\ (length_threshold < Z.of_nat (String.length text))%Z
               /\ exists d, publish_date a = Some (Some d).

Lemma fetched_app t t' : fetched (t ++ t') = (fetched t ++ fetched t')%list.
Proof. apply omap_app. Qed.

Section Fetch.
Variable gnews_get_full_article : string -> outcome (option Article).
Variables num_articles length_threshold : Z.

Local Abbreviation group_loop :=
  (fulldata_group gnews_get_full_article num_articles length_threshold).
Local Abbreviation groups_loop :=
  (fulldata_groups gnews_get_full_article num_articles length_threshold).

(** the state of the loops after a run with trace [tr] that started with
    the articles [acc] and the urls [U] *)
Definition fetch_ok (U : gset string) (urls : list string) (tr : list event)
  : Prop :=
  NoDup (fetched tr)
  /\ forall u, u ∈ fetched tr -> (u ∉ U) /\ (u ∈ urls).

Definition state_ok (acc : list Article) (U : gset string) (budget : Z)
  (tr : list event) (st : list Article * gset string) : Prop :=
  (forall u, u ∈ st.2 <-> u ∈ U \/ u ∈ fetched tr)
  /\ exists new, st.1 = (acc ++ new)%list
                 /\ (Z.of_nat (List.length new) <= Z.max 0 budget)%Z
                 /\ Forall (worth_keeping length_threshold) new.

Lemma state_ok_refl acc U budget : state_ok acc U budget [] (acc, U).
Proof.
  split; [intros u; cbn; split; [left; assumption|intros [H|H]; [exact H|inversion H]]|].
  exists []. rewrite app_nil_r. split; [reflexivity|]. split; [cbn; lia|constructor].
Qed.

Lemma fetch_ok_cons U urls url ev tr :
  fetched [ev] = [] \/ (fetched [ev] = [url] /\ url ∉ U) ->
  fetch_ok ({[url]} ∪ U) urls tr ->
  fetch_ok U (url :: urls) (ev :: tr).
Proof.
  intros Hev [Hnd Hin]. change (ev :: tr) with ([ev] ++ tr)%list.
  unfold fetch_ok. rewrite fetched_app. destruct Hev as [-> | [-> Hu]]; cbn [app].
  - split; [exact Hnd|]. intros u Hu. destruct (Hin u Hu) as [H1 H2].
    split; [|right; exact H2].
    intros HU. apply H1, elem_of_union. right. exact HU.
  - split.
    + constructor; [|exact Hnd]. intros Hf. destruct (Hin url Hf) as [H1 _].
      apply H1, elem_of_union. left. apply elem_of_singleton. reflexivity.
    + intros u Hu'. apply elem_of_cons in Hu' as [-> | Hu'].
      * split; [exact Hu|left].
      * destruct (Hin u Hu') as [H1 H2]. split; [|right; exact H2].
        intros HU. apply H1, elem_of_union. right. exact HU.
Qed.

Lemma fetch_ok_skip U urls url tr :
  fetch_ok U urls tr -> fetch_ok U (url :: urls) tr.
Proof.
  intros [Hnd Hin]. split; [exact Hnd|]. intros u Hu.
  destruct (Hin u Hu) as [H1 H2]. split; [exact H1|right; exact H2].
Qed.

Lemma group_loop_spec group : forall added acc U tr r,
  group_loop group added acc U = (tr, r) ->
  fetch_ok U (map gn_url group) tr
  /\ forall st, r = Ok st -> state_ok acc U (num_articles - added) tr st.
Proof.
  induction group as [|a rest IH]; intros added acc U tr r; cbn [fulldata_group].
  - intros [= <- <-]. split; [split; [constructor|intros u Hu; inversion Hu]|].
    intros st [= <-]. apply state_ok_refl.
  - destruct (num_articles <=? added)%Z eqn:Hfull.
    { intros [= <- <-]. split; [split; [constructor|intros u Hu; inversion Hu]|].
      intros st [= <-]. apply state_ok_refl. }
    apply Z.leb_gt in Hfull.
    destruct (bool_decide (gn_url a ∈ U)) eqn:Hseen.
    { intros H. destruct (IH _ _ _ _ _ H) as [Hf Hs].
      split; [cbn [map]; apply fetch_ok_skip, Hf|exact Hs]. }
    apply bool_decide_eq_false in Hseen.
    destruct (gnews_get_full_article (gn_url a)) as [full|e] eqn:Hget.
    2:{ cbn. intros [= <- <-]. split; [|discriminate].
        apply fetch_ok_cons; [right; split; [reflexivity|exact Hseen]|].
        split; [constructor|intros u Hu; inversion Hu]. }
    assert (Hstep : forall added' acc' tr' r',
              group_loop rest added' acc' ({[gn_url a]} ∪ U) = (tr', r') ->
              (added <= added' <= num_articles)%Z ->
              (exists new, acc' = (acc ++ new)%list
                           /\ (Z.of_nat (List.length new) <= added' - added)%Z
                           /\ Forall (worth_keeping length_threshold) new) ->
              let tr := (FetchArticle (gn_url a)
                         :: Log "info" "Retrieved full article text for {}"
                              [VStr (gn_url a)] :: tr') in
              fetch_ok U (map gn_url (a :: rest)) tr
              /\ forall st, r' = Ok st ->
                   state_ok acc U (num_articles - added) tr st).
    { intros added' acc' tr' r' H Hle (new & -> & Hlen & Hnew) tr0.
      destruct (IH _ _ _ _ _ H) as [Hf Hs]. split.
      - cbn [map]. apply fetch_ok_cons; [right; split; [reflexivity|exact Hseen]|].
        destruct Hf as [Hnd Hin]. split; [exact Hnd|].
        intros u Hu. destruct (Hin u Hu) as [H1 H2]. split; [exact H1|exact H2].
      - intros st Hst. destruct (Hs st Hst) as [HU (new' & E & Hlen' & Hnew')].
        split.
        + intros u. rewrite HU. subst tr0. cbn.
          rewrite elem_of_union, elem_of_singleton, elem_of_cons. tauto.
        + exists (new ++ new')%list. rewrite E, <- app_assoc.
          split; [reflexivity|]. split; [rewrite length_app; lia|].
          apply Forall_app. auto. }
    assert (Hsame : exists new : list Article, acc = (acc ++ new)%list
              /\ (Z.of_nat (List.length new) <= added - added)%Z
              /\ Forall (worth_keeping length_threshold) new).
    { exists []. rewrite app_nil_r. split; [reflexivity|]. split; [cbn; lia|constructor]. }
    cbn. destruct full as [fa|].
    2:{ destruct (group_loop rest added acc _) as [tr' r'] eqn:Hrec.
        intros [= <- <-]. apply (Hstep _ _ _ _ Hrec); [lia|exact Hsame]. }
    destruct (text_cleaned fa) as [text|] eqn:Htext.
    2:{ destruct (group_loop rest added acc _) as [tr' r'] eqn:Hrec.
        intros [= <- <-]. apply (Hstep _ _ _ _ Hrec); [lia|exact Hsame]. }
    destruct (negb (String.eqb text "")) eqn:Hne.
    2:{ destruct (group_loop rest added acc _) as [tr' r'] eqn:Hrec.
        intros [= <- <-]. apply (Hstep _ _ _ _ Hrec); [lia|exact Hsame]. }
    destruct (publish_date fa) as [[d|]|] eqn:Hdate.
    3:{ cbn. intros [= <- <-]. split; [|discriminate].
        apply fetch_ok_cons; [right; split; [reflexivity|exact Hseen]|].
        split; cbn; [constructor|intros u Hu; inversion Hu]. }
    2:{ destruct (group_loop rest added acc _) as [tr' r'] eqn:Hrec.
        intros [= <- <-]. apply (Hstep _ _ _ _ Hrec); [lia|exact Hsame]. }
    destruct (longer_than text length_threshold) eqn:Hlong.
    2:{ destruct (group_loop rest added acc _) as [tr' r'] eqn:Hrec.
        intros [= <- <-]. apply (Hstep _ _ _ _ Hrec); [lia|exact Hsame]. }
    destruct (group_loop rest (added + 1) _ _) as [tr' r'] eqn:Hrec.
    intros [= <- <-]. apply (Hstep _ _ _ _ Hrec); [lia|].
    exists [with_search_term fa (gn_search_term a)].
    split; [reflexivity|]. split; [cbn; lia|].
    constructor; [|constructor].
    apply negb_true_iff, String.eqb_neq in Hne.
    unfold longer_than in Hlong. apply Z.ltb_lt in Hlong.
    exists text. cbn. rewrite Hdate. eauto.
Qed.

Lemma groups_loop_spec groups : forall acc U tr r,
  groups_loop groups acc U = (tr, r) ->
  fetch_ok U (concat (map (map gn_url) groups)) tr
  /\ forall articles, r = Ok articles ->
       exists new, articles = (acc ++ new)%list
                   /\ (Z.of_nat (List.length new)
                       <= Z.max 0 num_articles * Z.of_nat (List.length groups))%Z
                   /\ Forall (worth_keeping length_threshold) new.
Proof.
  induction groups as [|g rest IH]; intros acc U tr r; cbn [fulldata_groups].
  - intros [= <- <-]. split; [split; [constructor|intros u Hu; inversion Hu]|].
    intros articles [= <-]. exists []. rewrite app_nil_r.
    split; [reflexivity|]. split; [cbn; lia|constructor].
  - destruct (group_loop g 0 acc U) as [t1 [st|e]] eqn:Hg.
    2:{ cbn. intros [= <- <-]. destruct (group_loop_spec _ _ _ _ _ _ Hg) as [[Hnd Hin] _].
        split; [|discriminate]. split; [exact Hnd|].
        intros u Hu. destruct (Hin u Hu) as [H1 H2]. split; [exact H1|].
        cbn [map concat]. apply elem_of_app. left. exact H2. }
    cbn. destruct (groups_loop rest st.1 st.2) as [t2 r2] eqn:Hr.
    intros [= <- <-].
    destruct (group_loop_spec _ _ _ _ _ _ Hg) as [[Hnd1 Hin1] Hst].
    destruct (Hst st eq_refl) as [HU (new1 & E1 & Hlen1 & Hnew1)].
    destruct (IH _ _ _ _ Hr) as [[Hnd2 Hin2] Hres].
    split.
    + unfold fetch_ok. rewrite fetched_app. split.
      * apply NoDup_app. split; [exact Hnd1|]. split; [|exact Hnd2].
        intros u Hu1 Hu2. destruct (Hin2 u Hu2) as [Hnot _].
        apply Hnot, HU. right. exact Hu1.
      * intros u Hu. cbn [map concat]. apply elem_of_app in Hu as [Hu|Hu].
        -- destruct (Hin1 u Hu) as [H1 H2]. split; [exact H1|].
           apply elem_of_app. left. exact H2.
        -- destruct (Hin2 u Hu) as [H1 H2]. split.
           ++ intros HuU. apply H1, HU. left. exact HuU.
           ++ apply elem_of_app. right. exact H2.
    + intros articles Hart. destruct (Hres articles Hart) as (new2 & E2 & Hlen2 & Hnew2).
      exists (new1 ++ new2)%list. rewrite E2, E1, <- app_assoc.
      split; [reflexivity|]. split; [|apply Forall_app; auto].
      rewrite length_app. cbn [List.length]. rewrite Z.sub_0_r in Hlen1. lia.
Qed.

(** X13: no url is fetched twice.  In every run of
    [retrieve_gnews_articles_fulldata], also one that a failing download
    interrupts, the urls for which the full article is requested are
    pairwise distinct and are urls of the given search results. *)
Theorem each_url_is_fetched_once
  (retrieved_articles : list (list gn_raw)) (tr : list event)
  (r : outcome (list Article)) :
  retrieve_gnews_articles_fulldata gnews_get_full_article retrieved_articles
    num_articles length_threshold = (tr, r) ->
  NoDup (fetched tr)
  /\ forall url, In url (fetched tr) ->
       exists group article, In group retrieved_articles /\ In article group
                             /\ gn_url article = url.
Proof.
  intros H. destruct (groups_loop_spec _ _ _ _ _ H) as [[Hnd Hin] _].
  split; [exact Hnd|]. intros url Hu.
  apply list_elem_of_In in Hu. destruct (Hin url Hu) as [_ Hurl].
  apply list_elem_of_In, in_concat in Hurl as (urls & Hurls & Hurl).
  apply in_map_iff in Hurls as (group & <- & Hgroup).
  apply in_map_iff in Hurl as (article & <- & Harticle).
  exists group, article. auto.
Qed.

(** the articles taken from a group: the full article of one of its
    search results, with the search term of that result *)
Definition taken_from (group : list gn_raw) (a : Article) : Prop :=
  exists raw fa,
    In raw group /\ gnews_get_full_article (gn_url raw) = Ok (Some fa)
    /\ a = with_search_term fa (gn_search_term raw).

Lemma taken_from_cons raw group new :
  Forall (taken_from group) new -> Forall (taken_from (raw :: group)) new.
Proof.
  intros H. eapply Forall_impl; [exact H|]. intros a (r & fa & Hr & Hget & E).
  exists r, fa. split; [right; exact Hr|auto].
Qed.

(** what one group adds to the articles found so far *)
Lemma group_loop_block group : forall added acc U tr st,
  group_loop group added acc U = (tr, Ok st) ->
  exists new, st.1 = (acc ++ new)%list
              /\ (Z.of_nat (List.length new) <= Z.max 0 (num_articles - added))%Z
              /\ Forall (taken_from group) new.
Proof.
  induction group as [|a rest IH]; intros added acc U tr st; cbn [fulldata_group].
  - intros [= <- <-]. exists []. rewrite app_nil_r.
    split; [reflexivity|]. split; [cbn; lia|constructor].
  - destruct (num_articles <=? added)%Z eqn:Hfull.
    { intros [= <- <-]. exists []. rewrite app_nil_r.
      split; [reflexivity|]. split; [cbn; lia|constructor]. }
    apply Z.leb_gt in Hfull.
    assert (Hskip : forall U' tr',
              group_loop rest added acc U' = (tr', Ok st) ->
              exists new, st.1 = (acc ++ new)%list
                /\ (Z.of_nat (List.length new)
                    <= Z.max 0 (num_articles - added))%Z
                /\ Forall (taken_from (a :: rest)) new).
    { intros U' tr' H. destruct (IH _ _ _ _ _ H) as (new & E & Hlen & Hnew).
      exists new. split; [exact E|]. split; [exact Hlen|].
      apply taken_from_cons, Hnew. }
    destruct (bool_decide (gn_url a ∈ U)) eqn:Hseen; [apply Hskip|].
    destruct (gnews_get_full_article (gn_url a)) as [full|e] eqn:Hget;
      [|cbn; discriminate].
    cbn. destruct full as [fa|].
    2:{ destruct (group_loop rest added acc _) as [tr' r'] eqn:Hrec.
        intros [= <- ->]. exact (Hskip _ _ Hrec). }
    destruct (text_cleaned fa) as [text|] eqn:Htext.
    2:{ destruct (group_loop rest added acc _) as [tr' r'] eqn:Hrec.
        intros [= <- ->]. exact (Hskip _ _ Hrec). }
    destruct (negb (String.eqb text "")) eqn:Hne.
    2:{ destruct (group_loop rest added acc _) as [tr' r'] eqn:Hrec.
        intros [= <- ->]. exact (Hskip _ _ Hrec). }
    destruct (publish_date fa) as [[d|]|] eqn:Hdate; [| |cbn; discriminate].
    2:{ destruct (group_loop rest added acc _) as [tr' r'] eqn:Hrec.
        intros [= <- ->]. exact (Hskip _ _ Hrec). }
    destruct (longer_than text length_threshold) eqn:Hlong.
    2:{ destruct (group_loop rest added acc _) as [tr' r'] eqn:Hrec.
        intros [= <- ->]. exact (Hskip _ _ Hrec). }
    destruct (group_loop rest (added + 1) _ _) as [tr' r'] eqn:Hrec.
    intros [= <- ->].
    destruct (IH _ _ _ _ _ Hrec) as (new & E & Hlen & Hnew).
    exists (with_search_term fa (gn_search_term a) :: new).
    rewrite E, <- app_assoc. split; [reflexivity|].
    split; [cbn [List.length]; lia|].
    constructor; [|apply taken_from_cons, Hnew].
    exists a, fa. split; [left; reflexivity|]. split; [exact Hget|reflexivity].
Qed.

(** the result, group by group *)
Lemma groups_loop_blocks groups : forall acc U tr articles,
  groups_loop groups acc U = (tr, Ok articles) ->
  exists blocks,
    articles = (acc ++ concat blocks)%list
    /\ Forall2 (fun group block =>
                  (Z.of_nat (List.length block) <= Z.max 0 num_articles)%Z
                  /\ Forall (taken_from group) block)
         groups blocks.
Proof.
  induction groups as [|g rest IH]; intros acc U tr articles;
    cbn [fulldata_groups].
  - intros [= <- <-]. exists []. cbn. rewrite app_nil_r.
    split; [reflexivity|constructor].
  - destruct (group_loop g 0 acc U) as [t1 [st|e]] eqn:Hg; [|cbn; discriminate].
    cbn. destruct (groups_loop rest st.1 st.2) as [t2 r2] eqn:Hr.
    intros [= <- ->].
    destruct (group_loop_block _ _ _ _ _ _ Hg) as (new & E & Hlen & Hnew).
    destruct (IH _ _ _ _ Hr) as (blocks & E' & Hblocks).
    exists (new :: blocks). cbn [concat]. rewrite E', E, <- app_assoc.
    split; [reflexivity|]. constructor; [|exact Hblocks].
    rewrite Z.sub_0_r in Hlen. auto.
Qed.

(** X14: the articles that [retrieve_gnews_articles_fulldata] returns come
    group by group, in the order of the groups of search results: for each
    group at most [num_articles] articles (none when [num_articles] is
    zero or negative), each the full article of a search result of that
    group with the search term of that result; and every returned article
    has a non-empty text longer than the threshold and a publish date. *)
Theorem fulldata_returns_few_long_articles
  (retrieved_articles : list (list gn_raw)) (tr : list event)
  (articles : list Article) :
  retrieve_gnews_articles_fulldata gnews_get_full_article retrieved_articles
    num_articles length_threshold = (tr, Ok articles) ->
  (exists blocks,
     articles = concat blocks
     /\ Forall2 (fun group block =>
                   (Z.of_nat (List.length block) <= Z.max 0 num_articles)%Z
                   /\ Forall (taken_from group) block)
          retrieved_articles blocks)
  /\ Forall (worth_keeping length_threshold) articles.
Proof.
  intros H. split.
  - destruct (groups_loop_blocks _ _ _ _ _ H) as (blocks & E & Hb).
    exists blocks. cbn [app] in E. auto.
  - destruct (groups_loop_spec _ _ _ _ _ H) as [_ Hres].
    destruct (Hres articles eq_refl) as (new & -> & Hlen & Hnew).
    cbn [app]. exact Hnew.
Qed.

End Fetch.

(** two search terms that found the same page *)
Definition same_page_twice : list (list gn_raw) :=
  [[{| gn_url := "http://news/1"; gn_href := Some (Some "http://news");
       gn_search_term := "storm" |}];
   [{| gn_url := "http://news/1"; gn_href := Some (Some "http://news");
       gn_search_term := "flood" |}]].

Lemma each_url_is_fetched_once_witness :
  NoDup ["http://news/1"].
Proof.
  exact (proj1 (each_url_is_fetched_once (fun _ => Ok None) 5 200
                  same_page_twice
                  [FetchArticle "http://news/1";
                   Log "info" "Retrieved full article text for {}"
                     [VStr "http://news/1"]]
                  (Ok []) ltac:(vm_compute; reflexivity))).
Defined.

(** three search results of one term and one of a second term; the
    pages are long enough but for the third *)
Definition four_results : list (list gn_raw) :=
  [[{| gn_url := "http://news/1"; gn_href := Some (Some "http://news");
       gn_search_term := "storm" |};
    {| gn_url := "http://news/2"; gn_href := Some (Some "http://news");
       gn_search_term := "storm" |};
    {| gn_url := "http://news/3"; gn_href := Some (Some "http://news");
       gn_search_term := "storm" |}];
   [{| gn_url := "http://news/1"; gn_href := Some (Some "http://news");
       gn_search_term := "flood" |};
    {| gn_url := "http://news/4"; gn_href := Some (Some "http://news");
       gn_search_term := "flood" |}]].

Definition page (text : string) : Article :=
  {| title := Some "News"; canonical_link := Some "http://news";
     text_cleaned := Some text;
     publish_date := Some (strptime_ymd "2024-01-31");
     search_term := ""; summary := ""; relevance_rating := None |}.

Definition download (url : string) : outcome (option Article) :=
  if String.eqb url "http://news/3" then Ok (Some (page "short"))
  else Ok (Some (page ("A long text from " ++ url))).

Lemma fulldata_returns_few_long_articles_witness :
  (exists blocks,
     [with_search_term (page "A long text from http://news/1") "storm";
      with_search_term (page "A long text from http://news/2") "storm";
      with_search_term (page "A long text from http://news/4") "flood"]
     = concat blocks
     /\ Forall2 (fun group block =>
                   (Z.of_nat (List.length block) <= Z.max 0 2)%Z
                   /\ Forall (taken_from download group) block)
          four_results blocks)
  /\ Forall (worth_keeping 10)
       [with_search_term (page "A long text from http://news/1") "storm";
        with_search_term (page "A long text from http://news/2") "storm";
        with_search_term (page "A long text from http://news/4") "flood"].
Proof.
  exact (fulldata_returns_few_long_articles download 2 10 four_results
           [FetchArticle "http://news/1";
            Log "info" "Retrieved full article text for {}"
              [VStr "http://news/1"];
            FetchArticle "http://news/2";
            Log "info" "Retrieved full article text for {}"
              [VStr "http://news/2"];
            FetchArticle "http://news/4";
            Log "info" "Retrieved full article text for {}"
              [VStr "http://news/4"]]
           _ ltac:(vm_compute; reflexivity)).
Defined.

End FetchLaws.

(** ** The search on Google News *)

Module GnewsLaws.
Import PyStr TimeUtils InformationRetrieval.

Section Gnews.
Variable IRRETRIEVABLE_SITES : list string.
Variable py_int : string -> outcome Z.
Variable gnews_get_news :
  string -> Z * Z * Z -> Z * Z * Z -> Z -> outcome (list (option gn_raw)).

(** a search result tagged with [term] whose publisher is a site that can
    be retrieved *)
Definition usable_for (term : string) (a : gn_raw) : Prop :=
  gn_search_term a = term
  /\ exists href, gn_href a = Some href
                  /\ is_irretrievable_site IRRETRIEVABLE_SITES href = false.

Lemma gnews_term_spec d0 d1 max_results term t group :
  gnews_term IRRETRIEVABLE_SITES py_int gnews_get_news d0 d1 max_results term
  = (t, Ok group) ->
  Forall (usable_for term) group /\ calls t = [Search "gnews" term d0 d1].
Proof.
  unfold gnews_term.
  destruct (convert_date_string_to_tuple py_int d0) as [start|]; cbn;
    [|discriminate].
  destruct (convert_date_string_to_tuple py_int d1) as [stop|]; cbn;
    [|discriminate].
  destruct (gnews_get_news term start stop max_results) as [found|]; cbn;
    [|discriminate].
  intros [= <- <-]. split; [|reflexivity].
  rewrite Forall_forall. intros a Ha.
  apply list_elem_of_omap in Ha as (o & _ & Ho).
  destruct o as [raw|]; [|discriminate].
  destruct (gn_href raw) as [href|] eqn:Hh; [|discriminate].
  destruct (negb (is_irretrievable_site IRRETRIEVABLE_SITES href)) eqn:Hs;
    [|discriminate].
  injection Ho as <-. split; [reflexivity|]. exists href. cbn.
  split; [reflexivity|]. apply negb_true_iff, Hs.
Qed.

Lemma calls_app t t' : calls (t ++ t') = (calls t ++ calls t')%list.
Proof. apply List.filter_app. Qed.

Lemma gnews_terms_spec d0 d1 max_results search_terms : forall t groups,
  mapM (gnews_term IRRETRIEVABLE_SITES py_int gnews_get_news d0 d1 max_results)
    search_terms = (t, Ok groups) ->
  Forall2 (fun term group => Forall (usable_for term) group)
    search_terms groups
  /\ calls t = map (fun term => Search "gnews" term d0 d1) search_terms.
Proof.
  induction search_terms as [|term rest IH]; intros t groups; cbn [mapM].
  - intros [= <- <-]. split; constructor.
  - destruct (gnews_term _ _ _ d0 d1 max_results term) as [t1 [g|e]] eqn:H1;
      cbn [mbind traced_bind tbind]; [|discriminate].
    destruct (mapM _ rest) as [t2 [gs|e]] eqn:H2; cbn; [|discriminate].
    intros [= <- <-].
    destruct (gnews_term_spec _ _ _ _ _ _ H1) as [Hg Hc].
    destruct (IH _ _ eq_refl) as [Hgs Hcs].
    split; [constructor; assumption|].
    rewrite app_nil_r, calls_app, Hc, Hcs. reflexivity.
Qed.

(** X15: for a date range that is in order, [get_gnews_articles] returns
    one group of results for each search term, in the order of the terms;
    every result of a group is tagged with the term of the group and comes
    from a publisher that is not on the list of irretrievable sites; and
    Google News is queried exactly once for each term, in order, with the
    two dates. *)
Theorem gnews_groups_follow_the_terms
  (search_terms : list string) (d0 d1 : string) (max_results : Z)
  (tr : list event) (groups : list (list gn_raw)) :
  is_more_recent d0 d1 false = Ok true ->
  get_gnews_articles IRRETRIEVABLE_SITES py_int gnews_get_news search_terms
    [d0; d1] max_results = (tr, Ok groups) ->
  Forall2 (fun term group => Forall (usable_for term) group)
    search_terms groups
  /\ calls tr = map (fun term => Search "gnews" term d0 d1) search_terms.
Proof.
  intros Hrecent. unfold get_gnews_articles. rewrite Hrecent.
  cbn [mbind traced_bind tbind lift negb].
  destruct (mapM _ search_terms) as [t r] eqn:Hm. cbn [app].
  intros [= -> ->]. exact (gnews_terms_spec _ _ _ _ _ _ Hm).
Qed.

End Gnews.

Lemma gnews_groups_follow_the_terms_witness :
  Forall2 (fun term group => Forall (usable_for ["msn.com"] term) group)
    ["storm"]
    [[{| gn_url := "http://news/1"; gn_href := Some (Some "http://news");
         gn_search_term := "storm" |}]]
  /\ [Search "gnews" "storm" "2024-01-01" "2024-01-31"]
     = map (fun term => Search "gnews" term "2024-01-01" "2024-01-31") ["storm"].
Proof.
  exact (gnews_groups_follow_the_terms ["msn.com"] (fun _ => Ok 1%Z)
           (fun _ _ _ _ =>
              Ok [Some {| gn_url := "http://news/1";
                          gn_href := Some (Some "http://news");
                          gn_search_term := "" |};
                  None;
                  Some {| gn_url := "http://msn/2";
                          gn_href := Some (Some "http://www.msn.com");
                          gn_search_term := "" |}])
           ["storm"] "2024-01-01" "2024-01-31" 20
           [Search "gnews" "storm" "2024-01-01" "2024-01-31";
            Log "info" "Retrieved {} articles for {} via GNews."
              [VStr "1"; VStr "storm"]]
           [[{| gn_url := "http://news/1"; gn_href := Some (Some "http://news");
                gn_search_term := "storm" |}]]
           eq_refl ltac:(vm_compute; reflexivity)).
Defined.

End GnewsLaws.

(** ** Cleaning the search queries *)

Module CleanLaws.
Import PyStr InformationRetrieval.

(** the character [c] occurs in [s] *)
Definition occurs (c : ascii) (s : string) : bool := contains (String c "") s.

Lemma occurs_cons c x r :
  occurs c (String x r) = Ascii.eqb c x || occurs c r.
Proof.
  unfold occurs. cbn [contains starts_with].
  destruct (Ascii.eqb c x); [destruct r|]; reflexivity.
Qed.

Lemma occurs_app c a b : occurs c (a ++ b) = occurs c a || occurs c b.
Proof.
  induction a as [|x r IH]; [reflexivity|].
  change (String x r ++ b) with (String x (r ++ b)).
  rewrite !occurs_cons, IH. apply orb_assoc.
Qed.

Lemma occurs_drop c n s : occurs c s = false -> occurs c (drop n s) = false.
Proof.
  revert s. induction n as [|n IH]; intros [|x r] H; cbn [drop]; try exact H.
  rewrite occurs_cons in H. apply orb_false_iff in H as [_ H]. apply IH, H.
Qed.

Lemma occurs_join c l :
  Forall (fun piece => occurs c piece = false) l -> occurs c (join "" l) = false.
Proof.
  induction l as [|x [|y r] IH]; intros H; [reflexivity| |].
  - apply Forall_cons in H as [H _]. exact H.
  - apply Forall_cons in H as [Hx Hr].
    change (join "" (x :: y :: r)) with (x ++ "" ++ join "" (y :: r)).
    rewrite !occurs_app, Hx, (IH Hr). reflexivity.
Qed.

(** splitting adds no character *)
Lemma split_on_aux_keeps c sep fuel : forall cur s,
  occurs c cur = false -> occurs c s = false ->
  Forall (fun piece => occurs c piece = false) (split_on_aux fuel sep cur s).
Proof.
  induction fuel as [|f IH]; intros cur s Hcur Hs; cbn [split_on_aux].
  - constructor; [|constructor]. rewrite occurs_app, Hcur, Hs. reflexivity.
  - destruct s as [|x r]; [constructor; [exact Hcur|constructor]|].
    destruct (starts_with sep (String x r)).
    + constructor; [exact Hcur|]. apply IH; [reflexivity|apply occurs_drop, Hs].
    + rewrite occurs_cons in Hs. apply orb_false_iff in Hs as [Hx Hr].
      apply IH; [|exact Hr]. rewrite occurs_app, Hcur, occurs_cons, Hx. reflexivity.
Qed.

(** splitting at a character leaves it in no piece *)
Lemma split_on_aux_char c fuel : forall cur s,
  occurs c cur = false -> (String.length s < fuel)%nat ->
  Forall (fun piece => occurs c piece = false)
    (split_on_aux fuel (String c "") cur s).
Proof.
  induction fuel as [|f IH]; intros cur s Hcur Hlen; [lia|].
  cbn [split_on_aux]. destruct s as [|x r]; [constructor; [exact Hcur|constructor]|].
  cbn [String.length] in Hlen. cbn [starts_with].
  destruct (Ascii.eqb c x) eqn:Hx; cbn [andb].
  - constructor; [exact Hcur|]. cbn [String.length drop]. apply IH; [reflexivity|lia].
  - apply IH; [|lia]. rewrite occurs_app, Hcur, occurs_cons, Hx. reflexivity.
Qed.

Lemma append_empty s : s ++ "" = s.
Proof.
  induction s as [|y t IH]; [reflexivity|].
  change (String y t ++ "") with (String y (t ++ "")). congruence.
Qed.

Lemma append_snoc cur x s : (cur ++ String x "") ++ s = cur ++ String x s.
Proof.
  induction cur as [|y t IH]; [reflexivity|].
  change ((String y t ++ String x "") ++ s)
    with (String y ((t ++ String x "") ++ s)).
  change (String y t ++ String x s) with (String y (t ++ String x s)).
  congruence.
Qed.

(** a text without the separator is not split *)
Lemma split_on_aux_absent p fuel : forall cur s,
  contains p s = false -> (String.length s < fuel)%nat ->
  split_on_aux fuel p cur s = [cur ++ s].
Proof.
  induction fuel as [|f IH]; intros cur s Hc Hlen; [lia|].
  cbn [split_on_aux]. destruct s as [|x s'].
  - rewrite append_empty. reflexivity.
  - cbn [contains] in Hc. apply orb_false_iff in Hc as [Hs Hc'].
    rewrite Hs. cbn [String.length] in Hlen.
    rewrite IH by (exact Hc' || lia). rewrite append_snoc. reflexivity.
Qed.

Lemma remove_all_keeps c old s :
  occurs c s = false -> occurs c (remove_all old s) = false.
Proof.
  intros H. apply occurs_join, split_on_aux_keeps; [reflexivity|exact H].
Qed.

Lemma remove_all_char c s : occurs c (remove_all (String c "") s) = false.
Proof. apply occurs_join, split_on_aux_char; [reflexivity|lia]. Qed.

Lemma removals_keep c chars : forall q,
  occurs c q = false ->
  occurs c (foldl (fun acc char => remove_all char acc) q chars) = false.
Proof.
  induction chars as [|p r IH]; intros q H; [exact H|].
  cbn [foldl]. apply IH, remove_all_keeps, H.
Qed.

Lemma removals_remove c chars : forall q,
  In (String c "") chars ->
  occurs c (foldl (fun acc char => remove_all char acc) q chars) = false.
Proof.
  induction chars as [|p r IH]; intros q Hin; [destruct Hin|].
  cbn [foldl]. destruct Hin as [-> | Hin].
  - apply removals_keep, remove_all_char.
  - apply IH, Hin.
Qed.

Section Removals.
Variable chars : list string.

Local Abbreviation clean q := (foldl (fun acc char => remove_all char acc) q chars).

Lemma cleaned_has_no c (queries : list string) q :
  In (String c "") chars -> In q (map (fun q => clean q) queries) ->
  contains (String c "") q = false.
Proof.
  intros Hc Hq. apply in_map_iff in Hq as (q0 & <- & _).
  exact (removals_remove c chars q0 Hc).
Qed.

Lemma clean_is_identity q :
  (forall p, In p chars -> contains p q = false) -> clean q = q.
Proof.
  induction chars as [|p r IH]; intros Hclean; [reflexivity|].
  cbn [foldl].
  assert (E : remove_all p q = q).
  { specialize (Hclean p (or_introl eq_refl)). unfold remove_all, split_on.
    rewrite split_on_aux_absent by (exact Hclean || lia). reflexivity. }
  rewrite E. apply IH. intros p' Hp'. apply Hclean. right. exact Hp'.
Qed.

End Removals.

Lemma reserved_characters_are_removed c :
  In c ["["; "]"; "/"; ":"; "^"]%char -> In (String c "") characters_to_remove.
Proof.
  unfold characters_to_remove.
  intros [<-|[<-|[<-|[<-|[<-|[]]]]]];
    cbn [In]; repeat (first [left; reflexivity|right]).
Qed.

(** X16: [clean_search_queries] rewrites each query of the list, none is
    added or dropped, and afterwards no query holds a square bracket, a
    slash, a colon or a caret; a query that held none of the twelve
    patterns is left as it is. *)
Theorem cleaned_queries_hold_no_reserved_character (search_queries : list string) :
  List.length (clean_search_queries search_queries) = List.length search_queries
  /\ (forall q c, In q (clean_search_queries search_queries) ->
        In c ["["; "]"; "/"; ":"; "^"]%char ->
        contains (String c "") q = false)
  /\ (forall q, In q search_queries ->
        (forall p, In p characters_to_remove -> contains p q = false) ->
        In q (clean_search_queries search_queries)).
Proof.
  split; [apply length_map|]. split.
  - intros q c Hq Hc.
    exact (cleaned_has_no characters_to_remove c search_queries q
             (reserved_characters_are_removed c Hc) Hq).
  - intros q Hq Hclean. unfold clean_search_queries. apply in_map_iff.
    exists q. split; [|exact Hq].
    exact (clean_is_identity characters_to_remove q Hclean).
Qed.

(** the percent-encoded forms are removed one after the other, and one of
    them can appear once a later character is gone *)
Example encoded_bracket_can_survive :
  clean_search_queries ["rate %:5B cut"] = ["rate %5B cut"].
Proof. vm_compute. reflexivity. Qed.

End CleanLaws.

(** ** The search queries of a model response *)

Module QueryLaws.
Import PyStr InformationRetrieval SearchQueries CleanLaws.

Lemma occurs_lstrip c f s :
  occurs c s = false -> occurs c (lstrip_by f s) = false.
Proof.
  induction s as [|x r IH]; intros H; [reflexivity|].
  cbn [lstrip_by]. destruct (f x); [|exact H].
  rewrite occurs_cons in H. apply orb_false_iff in H as [_ H]. apply IH, H.
Qed.

Lemma occurs_rstrip c f s :
  occurs c s = false -> occurs c (rstrip_by f s) = false.
Proof.
  induction s as [|x r IH]; intros H; [reflexivity|].
  cbn [rstrip_by]. rewrite occurs_cons in H. apply orb_false_iff in H as [Hx Hr].
  destruct (f x && _); [reflexivity|].
  rewrite occurs_cons, Hx, (IH Hr). reflexivity.
Qed.

(** a query as the extraction returns it: not empty, without a semicolon
    and without a double quote *)
Definition is_query (q : string) : Prop :=
  q <> "" /\ occurs ";" q = false /\ occurs "034" q = false.

Lemma queries_of_a_line_are_clean_aux (line : string) :
  Forall is_query (extract_search_queries_from_line line).
Proof.
  unfold extract_search_queries_from_line. rewrite Forall_forall. intros q Hq.
  apply list_elem_of_In, filter_In in Hq as [Hq Hne].
  apply negb_true_iff, String.eqb_neq in Hne.
  apply in_map_iff in Hq as (piece & <- & Hpiece).
  apply filter_In in Hpiece as [Hpiece _].
  assert (Hsemi : occurs ";" piece = false).
  { assert (Hall : Forall (fun p => occurs ";" p = false) (split_on ";" line)).
    { apply split_on_aux_char; [reflexivity|lia]. }
    rewrite Forall_forall in Hall. apply Hall, list_elem_of_In, Hpiece. }
  split; [exact Hne|]. split.
  - apply remove_all_keeps. unfold strip_chars.
    apply occurs_rstrip, occurs_lstrip, Hsemi.
  - apply remove_all_char.
Qed.

(** X17: every query that [extract_search_queries_from_line] returns is a
    non-empty string that holds no semicolon and no double quote, whatever
    the line, and there are at most as many queries as the line has pieces
    between semicolons. *)
Theorem queries_of_a_line_are_clean (line : string) :
  Forall is_query (extract_search_queries_from_line line)
  /\ (List.length (extract_search_queries_from_line line)
      <= List.length (split_on ";" line))%nat.
Proof.
  split; [apply queries_of_a_line_are_clean_aux|].
  unfold extract_search_queries_from_line.
  etransitivity; [apply List.filter_length_le|].
  rewrite length_map. apply List.filter_length_le.
Qed.

(** *** where the marker has to be *)

Lemma starts_with_app_l p : forall a b,
  starts_with p a = true -> starts_with p (a ++ b) = true.
Proof.
  induction p as [|x p IH]; intros a b H; [reflexivity|].
  destruct a as [|y a]; [discriminate|].
  change (String y a ++ b) with (String y (a ++ b)). cbn [starts_with] in H |- *.
  apply andb_true_iff in H as [Hx Hp]. rewrite Hx. apply IH, Hp.
Qed.

Lemma contains_app_l p a b :
  contains p a = true -> contains p (a ++ b) = true.
Proof.
  induction a as [|y a IH]; intros H.
  - cbn [contains] in H. rewrite orb_false_r in H.
    destruct p; [|discriminate]. destruct b; reflexivity.
  - change (String y a ++ b) with (String y (a ++ b)). cbn [contains] in H |- *.
    apply orb_true_iff in H as [H|H].
    + pose proof (starts_with_app_l _ (String y a) b H) as H'.
      change (String y a ++ b) with (String y (a ++ b)) in H'.
      rewrite H'. reflexivity.
    + rewrite (IH H). apply orb_true_r.
Qed.

Lemma contains_app_r p a b :
  contains p b = true -> contains p (a ++ b) = true.
Proof.
  intros H. induction a as [|y a IH]; [exact H|].
  change (String y a ++ b) with (String y (a ++ b)). cbn [contains].
  rewrite IH. apply orb_true_r.
Qed.

Lemma contains_drop p n : forall s,
  contains p (drop n s) = true -> contains p s = true.
Proof.
  induction n as [|n IH]; intros [|x r] H; cbn [drop] in H; try exact H.
  cbn [contains]. rewrite (IH r H). apply orb_true_r.
Qed.

Lemma contains_lstrip p f s :
  contains p (lstrip_by f s) = true -> contains p s = true.
Proof.
  induction s as [|x r IH]; cbn [lstrip_by]; [trivial|].
  destruct (f x); [|trivial]. intros H. cbn [contains].
  rewrite (IH H). apply orb_true_r.
Qed.

Lemma rstrip_prefix f s : exists post, s = rstrip_by f s ++ post.
Proof.
  induction s as [|x r [post IH]]; [exists ""; reflexivity|].
  cbn [rstrip_by]. destruct (f x && _).
  - exists (String x r). reflexivity.
  - exists post. change (String x (rstrip_by f r) ++ post)
      with (String x (rstrip_by f r ++ post)). congruence.
Qed.

Lemma contains_strip p s : contains p (strip s) = true -> contains p s = true.
Proof.
  unfold strip. intros H. apply (contains_lstrip p is_whitespace).
  destruct (rstrip_prefix is_whitespace (lstrip_by is_whitespace s)) as [post E].
  rewrite E. apply contains_app_l, H.
Qed.

Lemma contains_piece p sep fuel : forall cur s piece,
  In piece (split_on_aux fuel sep cur s) -> contains p piece = true ->
  contains p (cur ++ s) = true.
Proof.
  induction fuel as [|f IH]; intros cur s piece; cbn [split_on_aux].
  - intros [<-|[]] H. exact H.
  - destruct s as [|x r].
    + intros [<-|[]] H. apply contains_app_l, H.
    + destruct (starts_with sep (String x r)).
      * intros [<-|Hin] H; [apply contains_app_l, H|].
        apply contains_app_r, (contains_drop p (String.length sep)).
        exact (IH _ _ _ Hin H).
      * intros Hin H. rewrite <- append_snoc. exact (IH _ _ _ Hin H).
Qed.

Lemma from_end_in {A : Type} k (l : list A) x : from_end k l = Ok x -> In x l.
Proof.
  unfold from_end. destruct (rev l !! (k - 1)%nat) as [y|] eqn:E; [|discriminate].
  intros [= <-]. apply list_elem_of_lookup_2, list_elem_of_In in E.
  apply in_rev, E.
Qed.

Lemma from_end_raises {A : Type} k (l : list A) e :
  from_end k l = Raised e -> e = "IndexError".
Proof.
  unfold from_end. destruct (rev l !! (k - 1)%nat); [discriminate|].
  intros [= <-]. reflexivity.
Qed.

Lemma after_first_found sep s part :
  after_first sep s = Ok part -> contains sep s = true.
Proof.
  induction s as [|x r IH]; cbn [after_first contains].
  - destruct (starts_with sep ""); [reflexivity|discriminate].
  - destruct (starts_with sep (String x r)); [reflexivity|].
    intros H. rewrite (IH H). reflexivity.
Qed.

Lemma after_first_raises sep s e :
  after_first sep s = Raised e -> e = "IndexError".
Proof.
  induction s as [|x r IH]; cbn [after_first].
  - destruct (starts_with sep ""); [discriminate|]. intros [= <-]. reflexivity.
  - destruct (starts_with sep (String x r)); [discriminate|exact IH].
Qed.

Lemma from_end_short {A : Type} (x : A) : from_end 2 [x] = Raised "IndexError".
Proof. reflexivity. Qed.

(** X18: [extract_search_queries] needs the marker and two lines: it
    raises [IndexError] for a response that is a single line once stripped
    (also when that line holds the marker and the queries) and for a
    response without the marker "Search Queries:"; whenever it returns,
    every query it returns is a non-empty string without semicolon and
    without double quote. *)
Theorem response_needs_marker_and_two_lines (model_response : string) :
  (contains (String "010" "") (strip model_response) = false ->
   extract_search_queries model_response = Raised "IndexError")
  /\ (contains "Search Queries:" model_response = false ->
      extract_search_queries model_response = Raised "IndexError")
  /\ (forall queries,
        extract_search_queries model_response = Ok queries ->
        Forall is_query queries).
Proof.
  split; [|split].
  - intros Hone. unfold extract_search_queries, split_on.
    rewrite split_on_aux_absent by (exact Hone || lia). reflexivity.
  - intros Hno. unfold extract_search_queries.
    destruct (from_end 2 _) as [second|e] eqn:H2; cbn [mbind outcome_bind].
    2:{ rewrite (from_end_raises _ _ _ H2). reflexivity. }
    destruct (contains "Search Queries:" second) eqn:Hc.
    + exfalso. apply from_end_in in H2. unfold split_on in H2.
      pose proof (contains_piece _ _ _ _ _ _ H2 Hc) as H.
      change ("" ++ strip model_response) with (strip model_response) in H.
      apply contains_strip in H. congruence.
    + destruct (after_first _ _) as [part|e] eqn:Ha; cbn [mbind outcome_bind].
      * apply after_first_found in Ha. congruence.
      * rewrite (after_first_raises _ _ _ Ha). reflexivity.
  - intros queries. unfold extract_search_queries.
    destruct (from_end 2 _) as [second|]; cbn [mbind outcome_bind];
      [|discriminate].
    destruct (contains "Search Queries:" second).
    + destruct (from_end 1 _) as [last|]; cbn [mbind outcome_bind];
        [|discriminate].
      intros [= <-]. apply queries_of_a_line_are_clean_aux.
    + destruct (after_first _ _) as [part|]; cbn [mbind outcome_bind];
        [|discriminate].
      intros [= <-]. apply queries_of_a_line_are_clean_aux.
Qed.

Lemma response_needs_marker_and_two_lines_witness :
  extract_search_queries "Search Queries: storm surge; flood warning"
  = Raised "IndexError".
Proof.
  apply (proj1 (response_needs_marker_and_two_lines
                  "Search Queries: storm surge; flood warning")).
  vm_compute. reflexivity.
Defined.

(** the same queries on a line of their own are found *)
Example queries_on_their_own_line :
  extract_search_queries
    ("Search Queries:" ++ String "010" "storm surge; flood warning")
  = Ok ["storm surge"; "flood warning"].
Proof. vm_compute. reflexivity. Qed.

End QueryLaws.

(** ** The indices of the largest numbers *)

Module IndexLaws.
Import ListUtils SortLaws.
Local Open Scope Q_scope.

Lemma sorted_app_cross {A : Type} (R : A -> A -> Prop) (l1 l2 : list A) :
  StronglySorted R (l1 ++ l2) ->
  forall x y, In x l1 -> In y l2 -> R x y.
Proof.
  induction l1 as [|a r IH]; cbn; intros H x y Hx Hy; [destruct Hx|].
  apply StronglySorted_inv in H as [Hs Ha]. destruct Hx as [<-|Hx].
  - rewrite Forall_forall in Ha. apply Ha, list_elem_of_In, in_or_app. auto.
  - exact (IH Hs x y Hx Hy).
Qed.

Lemma sorted_drop {A : Type} (R : A -> A -> Prop) n (l : list A) :
  StronglySorted R l -> StronglySorted R (drop n l).
Proof.
  revert l. induction n as [|n IH]; intros [|a r] H; cbn; try exact H.
  apply IH. apply StronglySorted_inv in H as [H _]. exact H.
Qed.

Section Indices.
Variable list_of_numbers : list Q.

Local Abbreviation len := (List.length list_of_numbers).
Local Abbreviation value i := (number_at list_of_numbers i).
Local Abbreviation ranked :=
  (sorted_asc (fun i j => negb (Qle_bool (value j) (value i))) (seq 0 len)).

Lemma ranked_perm : ranked ≡ₚ seq 0 len.
Proof. apply sorted_desc_perm. Qed.

Lemma ranked_sorted : StronglySorted (fun i j => value i <= value j) ranked.
Proof.
  apply (sorted_desc_ranked _ (fun _ => True)).
  - intros x y _ _ H. apply negb_true_iff in H.
    destruct (Qlt_le_dec (value y) (value x)) as [Hlt|Hle];
      [apply Qlt_le_weak, Hlt|].
    apply Qle_bool_iff in Hle. congruence.
  - intros x y _ _ H. apply negb_false_iff, Qle_bool_iff in H. exact H.
  - intros x y z _ _ _. apply Qle_trans.
  - rewrite Forall_forall. trivial.
Qed.

(** X19: for [N >= 1], [indices_of_N_largest_numbers] returns [min N len]
    pairwise distinct indices of the list; every number at an index that is
    left out is at most every number at a returned index; and the returned
    indices come in the order of increasing numbers, the index of a largest
    number last.  For [N = 0] the slice [[-0:]] keeps everything: all the
    indices are returned, not none. *)
Theorem largest_indices_are_the_largest (N : Z) :
  let result := indices_of_N_largest_numbers list_of_numbers N in
  ((1 <= N)%Z ->
   List.length result = Nat.min (Z.to_nat N) len
   /\ NoDup result
   /\ (forall i, In i result -> (i < len)%nat)
   /\ (forall i j, In i result -> (j < len)%nat -> ~ In j result ->
         value j <= value i)
   /\ StronglySorted (fun i j => value i <= value j) result)
  /\ (N = 0%Z -> result ≡ₚ seq 0 len).
Proof.
  cbv zeta. unfold indices_of_N_largest_numbers, list_slice_from.
  assert (Hlen : List.length ranked = len).
  { rewrite ranked_perm. apply length_seq. }
  split.
  - intros HN. destruct (- N <? 0)%Z eqn:Hneg; [|apply Z.ltb_ge in Hneg; lia].
    rewrite Hlen.
    set (m := Z.to_nat (Z.max 0 (Z.of_nat len + - N))).
    assert (Hsplit : ranked = (take m ranked ++ drop m ranked)%list)
      by (symmetry; apply take_drop).
    assert (Hnd : NoDup ranked).
    { rewrite ranked_perm. apply NoDup_ListNoDup, List.seq_NoDup. }
    assert (Hin : forall i, In i ranked <-> (i < len)%nat).
    { intros i. rewrite <- list_elem_of_In, ranked_perm, list_elem_of_In, in_seq. lia. }
    split; [rewrite length_drop, Hlen; subst m; lia|].
    split.
    { rewrite Hsplit in Hnd. apply NoDup_app in Hnd as (_ & _ & Hd). exact Hd. }
    split.
    { intros i Hi. apply Hin, list_elem_of_In.
      apply list_elem_of_In in Hi. eapply subseteq_drop, Hi. }
    split; [|apply sorted_drop, ranked_sorted].
    intros i j Hi Hj Hout.
    assert (Hjr : In j ranked) by (apply Hin, Hj).
    rewrite Hsplit in Hjr. apply in_app_or in Hjr as [Hjt|Hjd]; [|contradiction].
    pose proof ranked_sorted as Hs. rewrite Hsplit in Hs.
    exact (sorted_app_cross _ _ _ Hs j i Hjt Hi).
  - intros ->. cbn. apply ranked_perm.
Qed.

End Indices.

Lemma largest_indices_are_the_largest_witness :
  List.length (indices_of_N_largest_numbers [(1 # 5); (9 # 10); (1 # 2)] 2)
  = Nat.min (Z.to_nat 2) 3
  /\ indices_of_N_largest_numbers [(1 # 5); (9 # 10); (1 # 2)] 2 = [2; 1]%nat.
Proof.
  split; [|reflexivity].
  exact (proj1 (proj1 (largest_indices_are_the_largest
                         [(1 # 5); (9 # 10); (1 # 2)] 2) ltac:(lia))).
Defined.

End IndexLaws.

(** ** Rendering a prompt *)

Module PromptLaws.
Import PyStr StringUtils.

(** the field names that [get_prompt] knows *)
Definition known_fields : list string :=
  ["QUESTION"; "DATES"; "FEW_SHOT_EXAMPLES"; "RETRIEVED_INFO"; "BACKGROUND";
   "RESOLUTION_CRITERIA"; "REASONING"; "BASE_REASONINGS"; "NUM_KEYWORDS";
   "MAX_WORDS"; "ARTICLE"; "SUMMARY"; "DATA_SOURCE"].

Lemma unknown_field_adds_nothing a f :
  ~ In f known_fields -> field_entries a f = Ok [].
Proof.
  intros Hf. unfold field_entries.
  repeat match goal with
         | |- context [String.eqb f ?name] =>
             destruct (String.eqb_spec f name) as [->|_];
             [exfalso; apply Hf; unfold known_fields; cbn [In];
              repeat (first [left; reflexivity|right])|]
         end.
  reflexivity.
Qed.

Lemma only_dates_can_fail a f e :
  field_entries a f = Raised e -> f = "DATES".
Proof.
  unfold field_entries.
  repeat match goal with
         | |- context [String.eqb f ?name] =>
             destruct (String.eqb_spec f name) as [->|_];
             [first [reflexivity|discriminate]|]
         end.
  discriminate.
Qed.

Lemma mapM_app_ok {B C : Type} (g : B -> outcome C) l1 l2 :
  mapM g (l1 ++ l2)
  = match mapM g l1 with
    | Ok r1 => match mapM g l2 with
               | Ok r2 => Ok (r1 ++ r2)%list
               | Raised e => Raised e
               end
    | Raised e => Raised e
    end.
Proof.
  induction l1 as [|x l1 IH]; cbn.
  - destruct (mapM g l2); reflexivity.
  - destruct (g x) as [y|e]; cbn; [|reflexivity].
    rewrite IH. destruct (mapM g l1) as [r1|]; cbn; [|reflexivity].
    destruct (mapM g l2); reflexivity.
Qed.

Section Prompt.
Variable str_format : string -> list (string * fval) -> outcome string.

(** X20: [get_prompt] does not reject a field name it does not know: the
    name adds nothing to the mapping, and the prompt is rendered as if the
    name were not listed.  The only field that can make the construction of
    the mapping fail is "DATES", and it does when no dates are given: the
    call raises [TypeError] before the template is rendered. *)
Theorem unknown_fields_are_ignored
  (prompt_template : string) (before after : list string) (f : string)
  (a : prompt_args) :
  (~ In f known_fields ->
   get_prompt str_format prompt_template (before ++ f :: after) a
   = get_prompt str_format prompt_template (before ++ after) a)
  /\ (In "DATES" before -> pa_dates a = None ->
      get_prompt str_format prompt_template before a = Raised "TypeError").
Proof.
  split.
  - intros Hf. unfold get_prompt. rewrite !mapM_app_ok.
    destruct (mapM (field_entries a) before) as [r1|]; [|reflexivity].
    cbn [mapM]. rewrite (unknown_field_adds_nothing a f Hf).
    cbn [mbind outcome_bind].
    destruct (mapM (field_entries a) after) as [r2|]; cbn; [|reflexivity].
    rewrite !concat_app. reflexivity.
  - intros Hin Hd. unfold get_prompt.
    assert (H : mapM (field_entries a) before = Raised "TypeError");
      [|rewrite H; reflexivity].
    induction before as [|x r IH]; [destruct Hin|]. cbn [mapM].
    destruct (field_entries a x) as [y|e] eqn:Hx; cbn [mbind outcome_bind].
    + destruct Hin as [->|Hin].
      * unfold field_entries in Hx. cbn in Hx. rewrite Hd in Hx. discriminate.
      * rewrite (IH Hin). reflexivity.
    + pose proof (only_dates_can_fail _ _ _ Hx) as ->.
      unfold field_entries in Hx. cbn in Hx. rewrite Hd in Hx.
      injection Hx as <-. reflexivity.
Qed.

End Prompt.

Lemma unknown_fields_are_ignored_witness :
  get_prompt (fun template _ => Ok template) "{question}"
    (["QUESTION"] ++ "TOPIC" :: ["BACKGROUND"]) no_args
  = get_prompt (fun template _ => Ok template) "{question}"
      (["QUESTION"] ++ ["BACKGROUND"]) no_args.
Proof.
  apply (proj1 (unknown_fields_are_ignored (fun template _ => Ok template)
                  "{question}" ["QUESTION"] ["BACKGROUND"] "TOPIC" no_args)).
  unfold known_fields. cbn [In]. intros H.
  repeat (destruct H as [H|H]; [discriminate H|]). exact H.
Defined.

End PromptLaws.

(** ** The tables of models *)

Module ModelLaws.
Import PyStr StringUtils ModelUtils Summarize.
Local Open Scope Q_scope.

(** for a name of the table of sources the test on fine-tuned models is
    negative, and the name has a token limit *)
Lemma table_names_are_plain model_name src :
  lookup model_name MODEL_NAME_TO_SOURCE = Some src ->
  contains "ft:gpt" model_name = false
  /\ is_Some (lookup model_name MODEL_TOKEN_LIMITS).
Proof.
  unfold MODEL_NAME_TO_SOURCE, MODEL_TOKEN_LIMITS. cbn [lookup].
  repeat match goal with
         | |- context [String.eqb ?k model_name] =>
             destruct (String.eqb_spec k model_name) as [<-|_];
             [intros _; split; [reflexivity|cbn; eauto]|]
         end.
  discriminate.
Qed.

Lemma limits_have_sources model_name limit :
  lookup model_name MODEL_TOKEN_LIMITS = Some limit ->
  is_Some (lookup model_name MODEL_NAME_TO_SOURCE)
  /\ contains "ft:gpt" model_name = false.
Proof.
  unfold MODEL_NAME_TO_SOURCE, MODEL_TOKEN_LIMITS. cbn [lookup].
  repeat match goal with
         | |- context [String.eqb ?k model_name] =>
             destruct (String.eqb_spec k model_name) as [<-|_];
             [intros _; split; [cbn; eauto|reflexivity]|]
         end.
  discriminate.
Qed.

Section Counting.
Variable tiktoken_len : string -> string -> outcome nat.
Variable str_format : string -> list (string * fval) -> outcome string.
Variable get_response_from_model :
  string -> string -> option Z -> outcome string.

(** X21: the two tables of models list the same names, so the token count
    of a model with a token limit fails only if the tokenizer of an OpenAI
    model does, and is a third of the number of characters for the other
    sources.  A fine-tuned model (a name that holds "ft:gpt") is counted as
    an OpenAI model but has no token limit: [recursive_summarize] logs the
    token count and raises [KeyError] on it. *)
Theorem fine_tuned_model_has_no_token_limit (model_name text : string) :
  (is_Some (lookup model_name MODEL_TOKEN_LIMITS)
   <-> is_Some (lookup model_name MODEL_NAME_TO_SOURCE))
  /\ (forall limit, lookup model_name MODEL_TOKEN_LIMITS = Some limit ->
        (exists src, infer_model_source model_name = Ok src)
        /\ (count_tokens tiktoken_len text model_name
            = Ok (Z.of_nat (String.length text) # 3)
            \/ count_tokens tiktoken_len text model_name
               = (n ← tiktoken_len model_name text; Ok (inject_Z (Z.of_nat n)))))
  /\ (contains "ft:gpt" model_name = true ->
      lookup model_name MODEL_TOKEN_LIMITS = None
      /\ forall n fuel prompt output_token_length temperature,
           tiktoken_len model_name text = Ok n ->
           recursive_summarize tiktoken_len str_format get_response_from_model
             (S fuel) text model_name prompt output_token_length temperature
           = Some ([Log "info" "Total number of tokens of the given text: {}"
                      [VFloat (inject_Z (Z.of_nat n))]],
                   Raised "KeyError")).
Proof.
  split; [split|split].
  - intros [limit H]. apply (limits_have_sources _ _ H).
  - intros [src H]. apply (table_names_are_plain _ _ H).
  - intros limit H. destruct (limits_have_sources _ _ H) as [[src Hs] Hft].
    unfold count_tokens, infer_model_source. rewrite Hft, Hs.
    split; [eauto|]. cbn [mbind outcome_bind].
    destruct (String.eqb src OAI_SOURCE); [right|left]; reflexivity.
  - intros Hft.
    assert (Hnone : lookup model_name MODEL_TOKEN_LIMITS = None).
    { destruct (lookup model_name MODEL_TOKEN_LIMITS) as [limit|] eqn:H;
        [|reflexivity].
      destruct (limits_have_sources _ _ H) as [_ Hno]. congruence. }
    split; [exact Hnone|].
    intros n fuel prompt output_token_length temperature Hn.
    rewrite SummarizeFacts.rs_unfold.
    unfold count_tokens, infer_model_source. rewrite Hft.
    cbn [mbind outcome_bind]. change (String.eqb OAI_SOURCE OAI_SOURCE) with true.
    cbv iota. rewrite Hn. cbn [mbind outcome_bind]. cbv zeta.
    rewrite Hnone. reflexivity.
Qed.

End Counting.

Lemma fine_tuned_model_has_no_token_limit_witness :
  recursive_summarize (fun _ _ => Ok 3%nat) (fun template _ => Ok template)
    (fun _ _ _ => Ok "short") 1 "a short text" "ft:gpt-3.5-turbo:org" "{article}"
    None 0
  = Some ([Log "info" "Total number of tokens of the given text: {}"
             [VFloat (inject_Z (Z.of_nat 3))]],
          Raised "KeyError").
Proof.
  exact (proj2 (proj2 (proj2 (fine_tuned_model_has_no_token_limit
                                (fun _ _ => Ok 3%nat)
                                (fun template _ => Ok template)
                                (fun _ _ _ => Ok "short")
                                "ft:gpt-3.5-turbo:org" "a short text"))
                  eq_refl)
           3%nat 0%nat "{article}" None 0 eq_refl).
Defined.

End ModelLaws.

(** ** Dates *)

Module DateLaws.
Import PyStr TimeUtils DateUtils CleanLaws QueryLaws.
Local Open Scope Z_scope.

(** *** extract_date *)

Lemma first_piece_without_separator c fuel : forall cur date rest,
  occurs c date = false -> (String.length date < fuel)%nat ->
  exists pieces,
    split_on_aux fuel (String c "") cur (date ++ String c rest)
    = (cur ++ date) :: pieces.
Proof.
  induction fuel as [|f IH]; intros cur date rest Hno Hlen; [lia|].
  destruct date as [|x date]; cbn [split_on_aux].
  - change ("" ++ String c rest) with (String c rest). cbn [starts_with].
    rewrite Ascii.eqb_refl. cbn [andb]. rewrite append_empty. eauto.
  - change (String x date ++ String c rest) with (String x (date ++ String c rest)).
    rewrite occurs_cons in Hno. apply orb_false_iff in Hno as [Hx Hno].
    cbn [starts_with]. rewrite Hx. cbn [andb].
    cbn [String.length] in Hlen.
    destruct (IH (cur ++ String x "") date rest Hno ltac:(lia)) as [pieces E].
    rewrite E, append_snoc. eauto.
Qed.

(** X23: the date part of a timestamp.  For a text [date] without the
    letter T, [extract_date] of [date], "T" and any rest is [date] (so
    "2021-01-01T00:00:00Z" gives "2021-01-01"); in general the result holds
    no T, a string without T is returned as it is, and a second call
    changes nothing. *)
Theorem extract_date_keeps_what_precedes_T (s date rest : string) :
  (contains "T" date = false ->
   extract_date (date ++ "T" ++ rest) = date)
  /\ contains "T" (extract_date s) = false
  /\ (contains "T" s = false -> extract_date s = s)
  /\ extract_date (extract_date s) = extract_date s.
Proof.
  assert (Hno : forall t, contains "T" (extract_date t) = false).
  { intros t. unfold extract_date. destruct (contains "T" t) eqn:Hc; [|exact Hc].
    assert (Hall : Forall (fun p => occurs "T" p = false) (split_on "T" t)).
    { apply split_on_aux_char; [reflexivity|lia]. }
    destruct (split_on "T" t) as [|first others]; [reflexivity|].
    apply Forall_cons in Hall as [H _]. exact H. }
  assert (Hid : forall t, contains "T" t = false -> extract_date t = t).
  { intros t Hc. unfold extract_date. rewrite Hc. reflexivity. }
  split; [|split; [apply Hno|split; [apply Hid|apply Hid, Hno]]].
  intros Hdate. unfold extract_date.
  change (date ++ "T" ++ rest) with (date ++ String "T" rest).
  assert (Hc : contains "T" (date ++ String "T" rest) = true).
  { apply contains_app_r. cbn [contains starts_with].
    rewrite Ascii.eqb_refl. reflexivity. }
  rewrite Hc. unfold split_on.
  destruct (first_piece_without_separator "T"
              (S (String.length (date ++ String "T" rest))) "" date rest Hdate)
    as [pieces E].
  { rewrite TokenFacts.length_app. cbn [String.length]. lia. }
  rewrite E. reflexivity.
Qed.

Lemma extract_date_keeps_what_precedes_T_witness :
  extract_date ("2021-01-01" ++ "T" ++ "00:00:00Z") = "2021-01-01".
Proof.
  apply (proj1 (extract_date_keeps_what_precedes_T "" "2021-01-01" "00:00:00Z")).
  reflexivity.
Defined.

(** *** find_pred_with_closest_date *)

Section Closest.
Context {A : Type}.
Variable ref_date : datetime.

(** the number of days between the reference date and the date of an
    entry *)
Definition distance (t : string * A) (z : Z) : Prop :=
  exists d, strptime_ymd t.1 = Some d /\ z = Z.abs (days_between ref_date d).

Lemma closest_loop_spec rest : forall pre c mid m r,
  distance c m ->
  (forall t z, In t pre -> distance t z -> m < z) ->
  (forall t z, In t mid -> distance t z -> m <= z) ->
  closest_loop ref_date rest (Some c) (Some m) = Ok r ->
  exists t l1 l2 z,
    r = Some t /\ (pre ++ c :: mid ++ rest = l1 ++ t :: l2)%list
    /\ distance t z
    /\ (forall t' z', In t' l1 -> distance t' z' -> z < z')
    /\ (forall t' z', In t' l2 -> distance t' z' -> z <= z').
Proof.
  induction rest as [|x rest IH]; intros pre c mid m r Hc Hpre Hmid;
    cbn [closest_loop].
  - intros [= <-]. exists c, pre, mid, m. rewrite app_nil_r. auto.
  - destruct (strptime_ymd x.1) as [d|] eqn:Hx; [|discriminate].
    assert (Hdx : distance x (Z.abs (days_between ref_date d)))
      by (exists d; auto).
    assert (Hfun : forall z, distance x z -> z = Z.abs (days_between ref_date d)).
    { intros z (d' & Hd' & ->). congruence. }
    destruct (Z.abs (days_between ref_date d) <? m) eqn:Hlt.
    + apply Z.ltb_lt in Hlt. intros H.
      destruct (IH (pre ++ c :: mid)%list x [] _ r Hdx) as (t & l1 & l2 & z & E);
        [| |exact H|].
      * intros t z Ht Hz. apply in_app_or in Ht as [Ht|[<-|Ht]].
        -- specialize (Hpre t z Ht Hz). lia.
        -- destruct Hc as (dc & Hdc & ->). destruct Hz as (dz & Hdz & ->).
           assert (dz = dc) by congruence. subst. exact Hlt.
        -- specialize (Hmid t z Ht Hz). lia.
      * intros t z [].
      * exists t, l1, l2, z. rewrite <- app_assoc in E. exact E.
    + apply Z.ltb_ge in Hlt. intros H.
      destruct (IH pre c (mid ++ [x])%list m r Hc Hpre) as (t & l1 & l2 & z & E);
        [|exact H|].
      * intros t z Ht Hz. apply in_app_or in Ht as [Ht|[<-|[]]].
        -- exact (Hmid t z Ht Hz).
        -- rewrite (Hfun z Hz). exact Hlt.
      * exists t, l1, l2, z. rewrite <- app_assoc in E. exact E.
Qed.

Lemma closest_loop_raises (rest : list (string * A)) :
  forall closest min_diff bad,
  In bad rest -> strptime_ymd bad.1 = None ->
  closest_loop ref_date rest closest min_diff = Raised "ValueError".
Proof.
  induction rest as [|x rest IH]; intros closest min_diff bad Hin Hbad;
    [destruct Hin|].
  cbn [closest_loop]. destruct (strptime_ymd x.1) as [d|] eqn:Hx; [|reflexivity].
  destruct Hin as [->|Hin]; [congruence|].
  destruct (match min_diff with None => true | Some m => _ end);
    exact (IH _ _ bad Hin Hbad).
Qed.

End Closest.

(** X24: [find_pred_with_closest_date] returns [None] exactly for the
    empty list.  Otherwise, when the reference date and every date of the
    list parse, it returns an entry of the list whose date is at the
    smallest number of days from the reference date, and among the entries
    at that distance the first one.  A date of the list that does not parse
    makes the call raise [ValueError], also when it comes after the closest
    entry. *)
Theorem closest_date_is_the_first_minimum {A : Type}
  (date_str : string) (ref_date : datetime) (date_pred_list : list (string * A)) :
  strptime_ymd date_str = Some ref_date ->
  find_pred_with_closest_date date_str (@nil (string * A)) = Ok None
  /\ (forall bad, In bad date_pred_list -> strptime_ymd bad.1 = None ->
        find_pred_with_closest_date date_str date_pred_list
        = Raised "ValueError")
  /\ (forall r,
        find_pred_with_closest_date date_str date_pred_list = Ok r ->
        (r = None <-> date_pred_list = [])
        /\ forall t, r = Some t ->
             exists l1 l2 z,
               date_pred_list = (l1 ++ t :: l2)%list
               /\ distance ref_date t z
               /\ (forall t' z', In t' l1 -> distance ref_date t' z' -> z < z')
               /\ (forall t' z', In t' l2 -> distance ref_date t' z' -> z <= z')).
Proof.
  intros Href. unfold find_pred_with_closest_date. rewrite Href.
  split; [reflexivity|]. split.
  - intros bad Hin Hbad. exact (closest_loop_raises ref_date _ _ _ bad Hin Hbad).
  - intros r. destruct date_pred_list as [|x rest]; cbn [closest_loop].
    + intros [= <-]. split; [tauto|discriminate].
    + destruct (strptime_ymd x.1) as [d|] eqn:Hx; [|discriminate].
      intros H.
      destruct (closest_loop_spec ref_date rest [] x []
                  (Z.abs (days_between ref_date d)) r) as
        (t & l1 & l2 & z & -> & E & Hz & H1 & H2);
        [exists d; auto|intros ? ? []|intros ? ? []|exact H|].
      split; [split; discriminate|].
      intros t' [= <-]. exists l1, l2, z. cbn [app] in E. auto.
Qed.

Lemma closest_date_is_the_first_minimum_witness :
  find_pred_with_closest_date "2024-03-01" (@nil (string * Q)) = Ok None
  /\ find_pred_with_closest_date "2024-03-01"
       [("2024-02-28", (1 # 5)%Q); ("2024-03-03", (1 # 2)%Q);
        ("2024-02-30", (1 # 3)%Q)]
     = Raised "ValueError".
Proof.
  destruct (closest_date_is_the_first_minimum "2024-03-01"
              {| year := 2024; month := 3; day := 1; tod := 0 |}
              [("2024-02-28", (1 # 5)%Q); ("2024-03-03", (1 # 2)%Q);
               ("2024-02-30", (1 # 3)%Q)] eq_refl) as (H0 & Hbad & _).
  split; [exact H0|].
  apply (Hbad ("2024-02-30", (1 # 3)%Q)); [right; right; left|]; reflexivity.
Defined.

End DateLaws.

(** ** The calendar behind the dates *)

Module CalendarLaws.
Import PyStr TimeUtils DateUtils DateLaws.
Local Open Scope Z_scope.

(** a date of the calendar, at midnight *)
Definition valid_date (d : datetime) : Prop :=
  1 <= year d <= 9999 /\ 1 <= month d <= 12
  /\ 1 <= day d <= days_in_month (year d) (month d) /\ tod d = 0.

Lemma digit_val_range c : is_digit c = true -> 0 <= digit_val c <= 9.
Proof.
  unfold is_digit, digit_val. intros H. apply andb_true_iff in H as [H1 H2].
  apply Nat.leb_le in H1, H2. lia.
Qed.

Lemma digit_val_positive c :
  is_digit c = true -> Ascii.eqb c "0" = false -> 1 <= digit_val c <= 9.
Proof.
  intros Hd H0. pose proof (digit_val_range c Hd) as Hr.
  assert (digit_val c <> 0); [|lia].
  intros Hz. unfold digit_val in Hz.
  assert (Hn : nat_of_ascii c = 48%nat) by lia.
  apply Ascii.eqb_neq in H0. apply H0.
  rewrite <- (ascii_nat_embedding c), Hn. reflexivity.
Qed.

Lemma two_digits_range a b v : two_digits a b = Some v -> 0 <= v <= 99.
Proof.
  unfold two_digits. destruct (is_digit a) eqn:Ha; [|discriminate].
  destruct (is_digit b) eqn:Hb; [|discriminate]. intros [= <-].
  pose proof (digit_val_range a Ha). pose proof (digit_val_range b Hb). lia.
Qed.

(** the month written with one digit, before the dash [b] *)
Definition one_digit_month (a b : ascii) (rest : string) : option (Z * string) :=
  match b with
  | "-"%char =>
      if is_digit a && negb (Ascii.eqb a "0") then Some (digit_val a, rest)
      else None
  | _ => None
  end.

Lemma one_digit_month_eq a b rest :
  one_digit_month a b rest
  = if Ascii.eqb b "-"
    then (if is_digit a && negb (Ascii.eqb a "0")
          then Some (digit_val a, rest) else None)
    else None.
Proof. destruct b as [[] [] [] [] [] [] [] []]; reflexivity. Qed.

Lemma parse_month_two a b :
  parse_month (String a (String b "")) = one_digit_month a b "".
Proof. destruct b as [[] [] [] [] [] [] [] []]; reflexivity. Qed.

Lemma dash_match {X : Type} (c : ascii) (yes no : X) :
  match c with "-"%char => yes | _ => no end
  = if Ascii.eqb c "-" then yes else no.
Proof. destruct c as [[] [] [] [] [] [] [] []]; reflexivity. Qed.

(** the month written with two digits *)
Definition two_digit_month (a b : ascii) (rest : string) : option (Z * string) :=
  match two_digits a b with
  | Some m => if (1 <=? m) && (m <=? 12) then Some (m, rest) else None
  | None => None
  end.

Lemma parse_month_tree a b c rest :
  parse_month (String a (String b (String c rest)))
  = match b with
    | "-"%char =>
        match c with
        | "-"%char => two_digit_month a "-" rest
        | _ => one_digit_month a "-" (String c rest)
        end
    | _ =>
        match c with
        | "-"%char => two_digit_month a b rest
        | _ => None
        end
    end.
Proof.
  destruct b as [[] [] [] [] [] [] [] []]; reflexivity.
Qed.

Lemma parse_month_three a b c rest :
  parse_month (String a (String b (String c rest)))
  = if Ascii.eqb c "-" then two_digit_month a b rest
    else one_digit_month a b (String c rest).
Proof.
  rewrite parse_month_tree, !dash_match, !one_digit_month_eq.
  destruct (Ascii.eqb_spec b "-") as [->|Hb]; [rewrite Ascii.eqb_refl|];
    reflexivity.
Qed.

Lemma parse_month_range s m r : parse_month s = Some (m, r) -> 1 <= m <= 12.
Proof.
  destruct s as [|a [|b [|c rest]]]; try discriminate.
  - rewrite parse_month_two, one_digit_month_eq.
    destruct (Ascii.eqb b "-"); [|discriminate].
    destruct (is_digit a && negb (Ascii.eqb a "0")) eqn:Ha; [|discriminate].
    apply andb_true_iff in Ha as [Hd H0]. apply negb_true_iff in H0.
    intros [= <- _]. pose proof (digit_val_positive a Hd H0). lia.
  - rewrite parse_month_three, one_digit_month_eq.
    destruct (Ascii.eqb c "-").
    + unfold two_digit_month. destruct (two_digits a b) as [v|]; [|discriminate].
      destruct ((1 <=? v) && (v <=? 12)) eqn:Hr; [|discriminate].
      intros [= <- _]. apply andb_true_iff in Hr as [H1 H2]. lia.
    + destruct (Ascii.eqb b "-"); [|discriminate].
      destruct (is_digit a && negb (Ascii.eqb a "0")) eqn:Ha; [|discriminate].
      apply andb_true_iff in Ha as [Hd H0]. apply negb_true_iff in H0.
      intros [= <- _]. pose proof (digit_val_positive a Hd H0). lia.
Qed.

Lemma parse_day_range s d : parse_day s = Some d -> 1 <= d <= 31.
Proof.
  unfold parse_day.
  destruct s as [|a [|b [|c s3]]]; try discriminate.
  - destruct (is_digit a && negb (Ascii.eqb a "0")) eqn:Ha; [|discriminate].
    apply andb_true_iff in Ha as [Hd H0]. apply negb_true_iff in H0.
    intros [= <-]. pose proof (digit_val_positive a Hd H0). lia.
  - destruct (Ascii.eqb a " ").
    + destruct (is_digit b && negb (Ascii.eqb b "0")) eqn:Hb; [|discriminate].
      apply andb_true_iff in Hb as [Hd H0]. apply negb_true_iff in H0.
      intros [= <-]. pose proof (digit_val_positive b Hd H0). lia.
    + destruct (two_digits a b) as [v|]; [|discriminate].
      destruct ((1 <=? v) && (v <=? 31)) eqn:Hr; [|discriminate].
      intros [= <-]. apply andb_true_iff in Hr as [H1 H2]. lia.
Qed.

Lemma strptime_ymd_eq y1 y2 y3 y4 c r :
  strptime_ymd (String y1 (String y2 (String y3 (String y4 (String c r)))))
  = if Ascii.eqb c "-" then
      match two_digits y1 y2, two_digits y3 y4, parse_month r with
      | Some hi, Some lo, Some (m, r') =>
          match parse_day r' with
          | Some d =>
              let y := 100 * hi + lo in
              if (1 <=? y) && (d <=? days_in_month y m)
              then Some {| year := y; month := m; day := d; tod := 0 |}
              else None
          | None => None
          end
      | _, _, _ => None
      end
    else None.
Proof. destruct c as [[] [] [] [] [] [] [] []]; reflexivity. Qed.

(** what [strptime] accepts is a date of the calendar *)
Lemma strptime_valid s d : strptime_ymd s = Some d -> valid_date d.
Proof.
  destruct s as [|y1 [|y2 [|y3 [|y4 [|c r]]]]]; try discriminate.
  rewrite strptime_ymd_eq. destruct (Ascii.eqb c "-"); [|discriminate].
  destruct (two_digits y1 y2) as [hi|] eqn:Hhi; [|discriminate].
  destruct (two_digits y3 y4) as [lo|] eqn:Hlo; [|discriminate].
  destruct (parse_month r) as [[m r']|] eqn:Hm; [|discriminate].
  destruct (parse_day r') as [dd|] eqn:Hd; [|discriminate].
  cbv zeta.
  destruct ((1 <=? 100 * hi + lo) && (dd <=? days_in_month (100 * hi + lo) m))
    eqn:Hc; [|discriminate].
  intros [= <-]. apply andb_true_iff in Hc as [Hy Hdim].
  apply two_digits_range in Hhi, Hlo. apply parse_month_range in Hm.
  apply parse_day_range in Hd. unfold valid_date. cbn. lia.
Qed.

Lemma days_in_month_range y m : 28 <= days_in_month y m <= 31.
Proof.
  unfold days_in_month.
  destruct (m =? 2); [destruct (is_leap y); lia|].
  destruct ((m =? 4) || (m =? 6) || (m =? 9) || (m =? 11)); lia.
Qed.

Lemma small_month m :
  1 <= m <= 12 ->
  m = 1 \/ m = 2 \/ m = 3 \/ m = 4 \/ m = 5 \/ m = 6 \/ m = 7 \/ m = 8
  \/ m = 9 \/ m = 10 \/ m = 11 \/ m = 12.
Proof. lia. Qed.

Lemma days_before_month_step y m :
  1 <= m <= 12 ->
  days_before_month y (m + 1) = days_before_month y m + days_in_month y m.
Proof.
  intros Hm. apply small_month in Hm.
  repeat (destruct Hm as [->|Hm]); try subst m;
    unfold days_before_month, days_in_month; destruct (is_leap y);
    reflexivity.
Qed.

Lemma days_before_month_first y : days_before_month y 1 = 0.
Proof. reflexivity. Qed.

Lemma days_before_month_mono y m1 m2 :
  1 <= m1 -> m1 <= m2 -> m2 <= 13 ->
  days_before_month y m1 <= days_before_month y m2.
Proof.
  intros H1 H12 H2.
  replace m2 with (m1 + Z.of_nat (Z.to_nat (m2 - m1))) in * by lia.
  induction (Z.to_nat (m2 - m1)) as [|k IH].
  - replace (m1 + Z.of_nat 0) with m1 by lia. lia.
  - replace (m1 + Z.of_nat (S k)) with (m1 + Z.of_nat k + 1) in * by lia.
    rewrite days_before_month_step by lia.
    pose proof (days_in_month_range y (m1 + Z.of_nat k)).
    assert (days_before_month y m1 <= days_before_month y (m1 + Z.of_nat k))
      by (apply IH; lia).
    lia.
Qed.

(** the length of year [y] *)
Definition days_in_year (y : Z) : Z := if is_leap y then 366 else 365.

Lemma days_before_month_last y : days_before_month y 13 = days_in_year y.
Proof.
  unfold days_before_month, days_in_month, days_in_year;
    destruct (is_leap y); reflexivity.
Qed.

Lemma days_before_year_step y :
  days_before_year (y + 1) = days_before_year y + days_in_year y.
Proof.
  unfold days_before_year, days_in_year, is_leap. cbv zeta.
  replace (y + 1 - 1) with y by lia.
  destruct (y mod 4 =? 0) eqn:H4; destruct (y mod 100 =? 0) eqn:H100;
    destruct (y mod 400 =? 0) eqn:H400; cbn;
    rewrite ?Z.eqb_eq, ?Z.eqb_neq in *;
    Z.to_euclidean_division_equations; lia.
Qed.

Lemma days_before_year_mono y1 y2 :
  y1 <= y2 -> days_before_year y1 <= days_before_year y2.
Proof.
  intros H. unfold days_before_year. cbv zeta.
  Z.to_euclidean_division_equations. lia.
Qed.

Lemma day_of_year_range d :
  valid_date d ->
  1 <= days_before_month (year d) (month d) + day d <= days_in_year (year d).
Proof.
  intros (Hy & Hm & Hd & _).
  pose proof (days_before_month_mono (year d) 1 (month d)) as Hlo.
  pose proof (days_before_month_mono (year d) (month d + 1) 13) as Hhi.
  rewrite days_before_month_first in Hlo.
  rewrite days_before_month_step, days_before_month_last in Hhi by lia.
  lia.
Qed.

(** the order of the dates, read off their fields *)
Lemma dt_key_order a b :
  valid_date a -> valid_date b -> dt_key a < dt_key b ->
  year a < year b
  \/ (year a = year b /\ month a < month b)
  \/ (year a = year b /\ month a = month b /\ day a < day b).
Proof.
  intros (Hya & Hma & Hda & Hta) (Hyb & Hmb & Hdb & Htb). unfold dt_key.
  pose proof (days_in_month_range (year a) (month a)).
  pose proof (days_in_month_range (year b) (month b)).
  lia.
Qed.

Lemma dt_key_inj a b :
  valid_date a -> valid_date b -> dt_key a = dt_key b -> a = b.
Proof.
  intros (Hya & Hma & Hda & Hta) (Hyb & Hmb & Hdb & Htb). unfold dt_key.
  pose proof (days_in_month_range (year a) (month a)).
  pose proof (days_in_month_range (year b) (month b)).
  destruct a as [ya ma da ta], b as [yb mb db tb]; cbn in *. intros E.
  assert (ya = yb) by lia. assert (ma = mb) by lia. assert (da = db) by lia.
  congruence.
Qed.

(** a later date has a larger ordinal *)
Lemma toordinal_lt a b :
  valid_date a -> valid_date b -> dt_key a < dt_key b ->
  toordinal a < toordinal b.
Proof.
  intros Ha Hb Hlt. destruct (dt_key_order a b Ha Hb Hlt) as [Hy|[[Hy Hm]|[Hy [Hm Hd]]]];
    unfold toordinal.
  - pose proof (day_of_year_range a Ha). pose proof (day_of_year_range b Hb).
    pose proof (days_before_year_step (year a)).
    pose proof (days_before_year_mono (year a + 1) (year b)). lia.
  - destruct Ha as (_ & Hma & Hda & _), Hb as (_ & Hmb & Hdb & _).
    rewrite <- Hy.
    pose proof (days_before_month_mono (year a) (month a + 1) (month b)) as Hmono.
    rewrite days_before_month_step in Hmono by lia. lia.
  - rewrite Hy, Hm. lia.
Qed.

Lemma toordinal_le a b :
  valid_date a -> valid_date b -> dt_key a <= dt_key b ->
  toordinal a <= toordinal b.
Proof.
  intros Ha Hb Hle. destruct (Z.eq_dec (dt_key a) (dt_key b)) as [E|N].
  - rewrite (dt_key_inj a b Ha Hb E). lia.
  - pose proof (toordinal_lt a b Ha Hb). lia.
Qed.

(** two dates with the same ordinal are the same date *)
Lemma toordinal_inj a b :
  valid_date a -> valid_date b -> toordinal a = toordinal b -> a = b.
Proof.
  intros Ha Hb E. apply dt_key_inj; [exact Ha|exact Hb|].
  pose proof (toordinal_lt a b Ha Hb). pose proof (toordinal_lt b a Hb Ha).
  lia.
Qed.

(** X25: [is_less_than_N_days_apart] is one-sided.  When the second date
    is not later than the first one (as [is_more_recent] orders them), the
    answer is [True] for every [N] from 1 to 999999999, however many days
    lie between the two dates; when the second date is not earlier than the
    first one, the answer is [False] for every [N] from -999999999 to 0.
    For two dates that parse and an [N] of larger magnitude the call
    raises [OverflowError]. *)
Theorem days_apart_check_is_one_sided (date1_str date2_str : string) (N : Z) :
  (is_more_recent date2_str date1_str true = Ok true ->
   1 <= N <= max_timedelta_days ->
   is_less_than_N_days_apart date1_str date2_str N = Ok true)
  /\ (is_more_recent date1_str date2_str true = Ok true ->
      - max_timedelta_days <= N <= 0 ->
      is_less_than_N_days_apart date1_str date2_str N = Ok false)
  /\ (forall b, is_more_recent date1_str date2_str true = Ok b ->
      max_timedelta_days < Z.abs N ->
      is_less_than_N_days_apart date1_str date2_str N = Raised "OverflowError").
Proof.
  unfold is_more_recent, is_less_than_N_days_apart, days_between, dt_leb,
    timedelta_days.
  destruct (strptime_ymd date1_str) as [d1|] eqn:H1;
    [|repeat split; try destruct (strptime_ymd date2_str); discriminate].
  destruct (strptime_ymd date2_str) as [d2|] eqn:H2;
    [|repeat split; discriminate].
  apply strptime_valid in H1, H2.
  split; [|split].
  - intros [= Hle] HN. apply Z.leb_le in Hle.
    destruct (Z.leb_spec (Z.abs N) max_timedelta_days); [|lia]. f_equal.
    apply Z.ltb_lt. pose proof (toordinal_le d2 d1 H2 H1 Hle). lia.
  - intros [= Hle] HN. apply Z.leb_le in Hle.
    destruct (Z.leb_spec (Z.abs N) max_timedelta_days); [|lia]. f_equal.
    apply Z.ltb_ge. pose proof (toordinal_le d1 d2 H1 H2 Hle). lia.
  - intros b _ HN.
    destruct (Z.leb_spec (Z.abs N) max_timedelta_days); [lia|reflexivity].
Qed.

Lemma days_apart_check_is_one_sided_witness :
  is_less_than_N_days_apart "2024-03-01" "1999-12-31" 3 = Ok true
  /\ is_less_than_N_days_apart "1999-12-31" "2024-03-01" 0 = Ok false
  /\ is_less_than_N_days_apart "1999-12-31" "2024-03-01" 1000000000
     = Raised "OverflowError".
Proof.
  split; [|split].
  - apply (proj1 (days_apart_check_is_one_sided "2024-03-01" "1999-12-31" 3));
      [reflexivity|unfold max_timedelta_days; lia].
  - apply (proj1 (proj2 (days_apart_check_is_one_sided
                           "1999-12-31" "2024-03-01" 0)));
      [reflexivity|unfold max_timedelta_days; lia].
  - apply (proj2 (proj2 (days_apart_check_is_one_sided
                           "1999-12-31" "2024-03-01" 1000000000)) true);
      [reflexivity|unfold max_timedelta_days; lia].
Defined.

(** X26: an exact match is found.  When the reference date parses, the
    call returns an entry and some entry of the list carries the reference
    date (in any accepted spelling, such as "2024-3-1" for "2024-03-01"),
    the returned entry carries the reference date too, and no entry with
    that date comes before it in the list. *)
Theorem closest_date_finds_an_exact_match {A : Type}
  (date_str : string) (ref_date : datetime)
  (date_pred_list : list (string * A)) (same found : string * A) :
  strptime_ymd date_str = Some ref_date ->
  In same date_pred_list -> strptime_ymd same.1 = Some ref_date ->
  find_pred_with_closest_date date_str date_pred_list = Ok (Some found) ->
  strptime_ymd found.1 = Some ref_date
  /\ exists l1 l2,
       date_pred_list = (l1 ++ found :: l2)%list
       /\ forall t, In t l1 -> strptime_ymd t.1 <> Some ref_date.
Proof.
  intros Href Hin Hsame. unfold find_pred_with_closest_date. rewrite Href.
  destruct date_pred_list as [|x rest]; [destruct Hin|]. cbn [closest_loop].
  destruct (strptime_ymd x.1) as [d|] eqn:Hx; [|discriminate]. intros H.
  destruct (closest_loop_spec ref_date rest [] x []
              (Z.abs (days_between ref_date d)) (Some found)) as
    (t & l1 & l2 & z & [= <-] & E & (df & Hdf & ->) & Hl1 & Hl2);
    [exists d; auto|intros ? ? []|intros ? ? []|exact H|].
  cbn [app] in E.
  assert (Hzero : distance ref_date same 0).
  { exists ref_date. split; [exact Hsame|]. unfold days_between. lia. }
  assert (Hmin : Z.abs (days_between ref_date df) = 0).
  { rewrite E in Hin. apply in_app_or in Hin as [Hin|[<-|Hin]].
    - specialize (Hl1 same 0 Hin Hzero). lia.
    - destruct Hzero as (d0 & Hd0 & ->). congruence.
    - specialize (Hl2 same 0 Hin Hzero). lia. }
  split.
  - rewrite Hdf. f_equal. symmetry. apply toordinal_inj.
    + exact (strptime_valid _ _ Href).
    + exact (strptime_valid _ _ Hdf).
    + unfold days_between in Hmin. lia.
  - exists l1, l2. split; [exact E|]. intros t Ht Hdt.
    assert (Ht0 : distance ref_date t 0).
    { exists ref_date. split; [exact Hdt|]. unfold days_between. lia. }
    specialize (Hl1 t 0 Ht Ht0). lia.
Qed.

Lemma closest_date_finds_an_exact_match_witness :
  strptime_ymd "2024-3-1"
  = Some {| year := 2024; month := 3; day := 1; tod := 0 |}
  /\ exists l1 l2,
       [("2024-02-29", 1%Z); ("2024-3-1", 2%Z); ("2024-03-01", 3%Z)]
       = (l1 ++ ("2024-3-1", 2%Z) :: l2)%list
       /\ forall t, In t l1 ->
            strptime_ymd t.1
            <> Some {| year := 2024; month := 3; day := 1; tod := 0 |}.
Proof.
  apply (closest_date_finds_an_exact_match "2024-03-01"
           {| year := 2024; month := 3; day := 1; tod := 0 |}
           [("2024-02-29", 1%Z); ("2024-3-1", 2%Z); ("2024-03-01", 3%Z)]
           ("2024-03-01", 3%Z) ("2024-3-1", 2%Z));
    [reflexivity|right; right; left; reflexivity|reflexivity|reflexivity].
Defined.

End CalendarLaws.
